(** * Farm Tower Defense: a shallow embedding of [farm_tower_defense.py]

    The Python classes [KonamiManager], [Farm], [PlayerFarm], [Monster],
    [Boss] and [Game] are embedded as records with one Rocq function per
    method.  Python [int] is [Z], Python [float] is the kernel's binary64
    [float], [str] is [string] (the UTF-8 bytes of the text), [dict] and
    [set] are [gmap] and [gset].  Methods that mutate their object are
    computations in a state-and-exception monad whose state survives a
    raised exception, as a Python object does. *)

From Stdlib Require Import ZArith List String Ascii Floats Lia Bool DecimalString.
From stdpp Require Import gmap strings.
Import ListNotations.

#[local] Set Warnings "-inexact-float".
#[local] Open Scope Z_scope.

(** ** Python built-ins *)

Module Py.

(** The exceptions the program can meet.  [OutOfFuel] is not a Python
    exception: it marks a loop of the model that was given too little
    fuel to reach the end of its script. *)
Inductive exn : Type :=
| OverflowError
| ValueError
| IndexError
| AssertionError
| AttributeError
| EOFError
| KeyboardInterrupt
| KonamiHint (hint : string)
| OutOfFuel.

Inductive result (A : Type) : Type :=
| Ok (a : A)
| Raise (e : exn).
Arguments Ok {A} a.
Arguments Raise {A} e.

(** A method call: it reads and writes the object [S] and either returns
    or raises; what was written before a [raise] stays written. *)
Definition M (S A : Type) : Type := S -> result A * S.

Definition ret {S A} (a : A) : M S A := fun s => (Ok a, s).

Definition bind {S A B} (m : M S A) (k : A -> M S B) : M S B :=
  fun s =>
    match m s with
    | (Ok a, s') => k a s'
    | (Raise e, s') => (Raise e, s')
    end.

Definition raise {S A} (e : exn) : M S A := fun s => (Raise e, s).
Definition gets {S A} (f : S -> A) : M S A := fun s => (Ok (f s), s).
Definition modify {S} (f : S -> S) : M S unit := fun s => (Ok tt, f s).
Definition lift {S A} (r : result A) : M S A := fun s => (r, s).

(** Run a method of a component [T] of the object [S]. *)
Definition zoom {S T A} (proj : S -> T) (inj : T -> S -> S) (m : M T A) : M S A :=
  fun s => let (r, t) := m (proj s) in (r, inj t s).

Definition when {S} (b : bool) (m : M S unit) : M S unit :=
  if b then m else ret tt.

(** [try: m except KeyboardInterrupt: handler] *)
Definition except_interrupt {S A} (m : M S A) (handler : M S A) : M S A :=
  fun s =>
    match m s with
    | (Raise KeyboardInterrupt, s') => handler s'
    | other => other
    end.

Definition on_fst {S T A} (m : M S A) : M (S * T) A :=
  zoom fst (fun s st => (s, snd st)) m.
Definition on_snd {S T A} (m : M T A) : M (S * T) A :=
  zoom snd (fun t st => (fst st, t)) m.

(** *** [int] and [float] *)

(** [float(n)] as [n * x] and [n - x] compute it for an [int] operand:
    the nearest double, ties to even; too large an [int] raises. *)
Definition float_of_int (z : Z) : result float :=
  match binary_normalize prec emax z 0 false with
  | S754_infinity _ => Raise OverflowError
  | sf => Ok (SF2Prim sf)
  end.

(** [n * x] for an [int] n and a [float] x. *)
Definition int_mul_float (n : Z) (x : float) : result float :=
  match float_of_int n with
  | Ok f => Ok (f * x)%float
  | Raise e => Raise e
  end.

(** The integer nearest to [m * 2^e], ties to even. *)
Definition nearest_even (m : positive) (e : Z) : Z :=
  if 0 <=? e then Z.pos m * 2 ^ e
  else
    let d := 2 ^ (- e) in
    let q := Z.pos m / d in
    let r := Z.pos m mod d in
    match 2 * r ?= d with
    | Lt => q
    | Gt => q + 1
    | Eq => if Z.even q then q else q + 1
    end.

(** The integer part of [m * 2^e]. *)
Definition truncated (m : positive) (e : Z) : Z :=
  if 0 <=? e then Z.pos m * 2 ^ e else Z.pos m / 2 ^ (- e).

Definition signed (s : bool) (z : Z) : Z := if s then - z else z.

(** [round(x)] with one argument: an [int], halves go to the even
    neighbour; [nan] and the infinities raise. *)
Definition round (x : float) : result Z :=
  match Prim2SF x with
  | S754_zero _ => Ok 0
  | S754_nan => Raise ValueError
  | S754_infinity _ => Raise OverflowError
  | S754_finite s m e => Ok (signed s (nearest_even m e))
  end.

(** [round(n * x)] for an [int] n. *)
Definition round_product (n : Z) (x : float) : result Z :=
  match int_mul_float n x with
  | Ok y => round y
  | Raise e => Raise e
  end.

(** [int(x)]: truncation toward zero. *)
Definition int_of_float (x : float) : result Z :=
  match Prim2SF x with
  | S754_zero _ => Ok 0
  | S754_nan => Raise ValueError
  | S754_infinity _ => Raise OverflowError
  | S754_finite s m e => Ok (signed s (truncated m e))
  end.

(** [int(n * x)] for an [int] n. *)
Definition int_product (n : Z) (x : float) : result Z :=
  match int_mul_float n x with
  | Ok y => int_of_float y
  | Raise e => Raise e
  end.

(** Truth value of a [float] ([if debuff:]): anything but zero. *)
Definition float_truthy (x : float) : bool := negb (x =? 0)%float.

(** [min(a, b)] and [max(a, b)] on floats: the first argument unless the
    second is strictly smaller (larger). *)
Definition fmin (a b : float) : float := if (b <? a)%float then b else a.
Definition fmax (a b : float) : float := if (a <? b)%float then b else a.

(** *** [str] *)

(** [str(n)] and [f"{n}"] for an [int]. *)
Definition str (n : Z) : string := NilZero.string_of_int (Z.to_int n).

(** [f"{x:.1f}"]: one decimal, correctly rounded. *)
Definition format_1f (x : float) : string :=
  match Prim2SF x with
  | S754_nan => "nan"
  | S754_infinity s => if s then "-inf" else "inf"
  | S754_zero s => if s then "-0.0" else "0.0"
  | S754_finite s m e =>
      let q := nearest_even (m * 10) e in
      ((if s then "-" else "") ++ str (q / 10) ++ "." ++ str (q mod 10))%string
  end.

(** [str.lower] and [str.strip] on the ASCII range; bytes of other
    characters are left as they are. *)
Definition lower_char (c : ascii) : ascii :=
  let n := N_of_ascii c in
  if ((65 <=? n) && (n <=? 90))%N then ascii_of_N (n + 32) else c.

Fixpoint lower (s : string) : string :=
  match s with
  | EmptyString => EmptyString
  | String c s' => String (lower_char c) (lower s')
  end.

Definition is_space (c : ascii) : bool :=
  let n := N_of_ascii c in
  ((n =? 32) || ((9 <=? n) && (n <=? 13)) || ((28 <=? n) && (n <=? 31)))%N.

Fixpoint lstrip (s : string) : string :=
  match s with
  | EmptyString => EmptyString
  | String c s' => if is_space c then lstrip s' else s
  end.

Fixpoint rstrip (s : string) : string :=
  match s with
  | EmptyString => EmptyString
  | String c s' =>
      match rstrip s' with
      | EmptyString => if is_space c then EmptyString else String c EmptyString
      | r => String c r
      end
  end.

Definition strip (s : string) : string := rstrip (lstrip s).

(** [s.split()]: the maximal runs of non-space characters.  [cur] is the
    run being read, reversed. *)
Fixpoint split_go (cur : list ascii) (s : string) : list string :=
  let flush rest :=
    match cur with
    | [] => rest
    | _ => string_of_list_ascii (rev cur) :: rest
    end in
  match s with
  | EmptyString => flush []
  | String c s' => if is_space c then flush (split_go [] s') else split_go (c :: cur) s'
  end.

Definition split (s : string) : list string := split_go [] s.

(** [s.splitlines()], for the line ends LF, CR and CR LF. *)
Fixpoint splitlines_go (cur : list ascii) (s : string) : list string :=
  match s with
  | EmptyString =>
      match cur with
      | [] => []
      | _ => [string_of_list_ascii (rev cur)]
      end
  | String c s' =>
      if (N_of_ascii c =? 10)%N then
        string_of_list_ascii (rev cur) :: splitlines_go [] s'
      else if (N_of_ascii c =? 13)%N then
        string_of_list_ascii (rev cur) ::
          match s' with
          | String c' s'' =>
              if (N_of_ascii c' =? 10)%N then splitlines_go [] s'' else splitlines_go [] s'
          | EmptyString => []
          end
      else splitlines_go (c :: cur) s'
  end.

Definition splitlines (s : string) : list string := splitlines_go [] s.

(** [int(s)] for a stripped [str]: an optional sign, then ASCII digits
    that single underscores may separate; [None] is [ValueError]. *)
Definition digit_of (c : ascii) : option Z :=
  let n := N_of_ascii c in
  if ((48 <=? n) && (n <=? 57))%N then Some (Z.of_N n - 48) else None.

Fixpoint parse_digits (acc : Z) (after_digit : bool) (s : string) : option Z :=
  match s with
  | EmptyString => if after_digit then Some acc else None
  | String c s' =>
      match digit_of c with
      | Some d => parse_digits (acc * 10 + d) true s'
      | None =>
          if (N_of_ascii c =? 95)%N && after_digit then parse_digits acc false s'
          else None
      end
  end.

Definition parse_int (s : string) : option Z :=
  match s with
  | String "-" s' => option_map Z.opp (parse_digits 0 false s')
  | String "+" s' => parse_digits 0 false s'
  | _ => parse_digits 0 false s
  end.

(** Truth value of a [str]: non-empty. *)
Definition nonempty (s : string) : bool :=
  match s with EmptyString => false | _ => true end.

End Py.

Import Py.

Declare Scope py_scope.
Delimit Scope py_scope with py.
Notation "'let*' x ':=' m 'in' k" := (Py.bind m (fun x => k))
  (at level 10, x pattern, m at level 100, k at level 200) : py_scope.
Notation "m ';;;' k" := (Py.bind m (fun _ => k))
  (at level 100, k at level 200, right associativity) : py_scope.
#[local] Open Scope py_scope.

(** ** [random.Random] *)

(** The generator is used through two primitives: [random()], a float in
    [0, 1), and [_randbelow(n)], an int in [0, n).  The other methods are
    written from them as [Lib/random.py] does. *)
Class RandomGen (R : Type) : Type := {
  rng_random : R -> float * R;
  rng_randbelow : Z -> R -> Z * R;
  rng_randbelow_range : forall (n : Z) (r : R), 0 < n -> 0 <= fst (rng_randbelow n r) < n
}.

Module Random.
Section Methods.
Context {R : Type} `{RandomGen R}.

Definition random : M R float :=
  fun r => let (x, r') := rng_random r in (Ok x, r').

Definition randbelow (n : Z) : M R Z :=
  fun r => let (k, r') := rng_randbelow n r in (Ok k, r').

(** [uniform(a, b)] is [a + (b - a) * random()]. *)
Definition uniform (a b : float) : M R float :=
  let* x := random in ret (a + (b - a) * x)%float.

(** [randint(a, b)] is [a + _randbelow(b - a + 1)]. *)
Definition randint (a b : Z) : M R Z :=
  let* k := randbelow (b - a + 1) in ret (a + k).

(** [choice(seq)]: [IndexError] on an empty sequence. *)
Definition choice {A} (seq : list A) : M R A :=
  match seq with
  | [] => raise IndexError
  | _ =>
      let* i := randbelow (Z.of_nat (length seq)) in
      match seq !! Z.to_nat i with
      | Some x => ret x
      | None => raise IndexError
      end
  end.

(** [x[i], x[j] = x[j], x[i]] *)
Definition swap {A} (i j : nat) (x : list A) : list A :=
  match x !! i, x !! j with
  | Some a, Some b => <[j := a]> (<[i := b]> x)
  | _, _ => x
  end.

(** [shuffle(x)]: for [i] from [len(x) - 1] down to 1, swap [x[i]] with
    [x[_randbelow(i + 1)]]. *)
Fixpoint shuffle_from {A} (i : nat) (x : list A) : M R (list A) :=
  match i with
  | O => ret x
  | S i' =>
      let* j := randbelow (Z.of_nat i + 1) in
      shuffle_from i' (swap i (Z.to_nat j) x)
  end.

Definition shuffle {A} (x : list A) : M R (list A) :=
  shuffle_from (length x - 1) x.
End Methods.
End Random.

(** A scripted generator: the draws are read off a tape of 53-bit numbers.
    [random()] returns the entry [k] as [k / 2^53], [_randbelow(n)] returns
    [k mod n]; a tape that has run out yields zeros. *)
Module Tape.
Definition t : Type := list Z.

Definition next (r : t) : Z * t :=
  match r with
  | [] => (0, [])
  | k :: r' => (k mod 2 ^ 53, r')
  end.

Definition unit_float (k : Z) : float :=
  Z.ldexp (SF2Prim (binary_normalize prec emax k 0 false)) (-53).

Definition random (r : t) : float * t :=
  let (k, r') := next r in (unit_float k, r').

Definition randbelow (n : Z) (r : t) : Z * t :=
  let (k, r') := next r in (k mod n, r').

Lemma randbelow_range (n : Z) (r : t) : 0 < n -> 0 <= fst (randbelow n r) < n.
Proof.
  intros Hn. unfold randbelow. destruct (next r) as [k r']. cbn [fst].
  apply Z.mod_pos_bound, Hn.
Qed.

#[global] Instance gen : RandomGen t := {
  rng_random := random;
  rng_randbelow := randbelow;
  rng_randbelow_range := randbelow_range
}.
End Tape.

(** ** The IO layer *)

(** [IOInterface] as a scripted console: [write] appends a line to what was
    written, [prompt] returns the next line of the script and raises
    [EOFError] when the script is over. *)
Module IO.
Record t : Type := mk {
  written : list string;
  script : list string
}.

Definition write (text : string) : M t unit :=
  modify (fun io => mk (written io ++ [text]) (script io)).

Definition prompt (text : string) : M t string :=
  fun io =>
    match script io with
    | [] => (Raise EOFError, io)
    | line :: rest => (Ok line, mk (written io) rest)
    end.
End IO.

(** ** Module constants *)

Definition KONAMI_SEQUENCE : list string :=
  ["up"; "up"; "down"; "down"; "left"; "right"; "left"; "right"; "b"; "a"]%string.

Definition STORY_END_WAVE : Z := 25.

(** ** [KonamiManager] *)

(** The manager keeps a reference to the generator it was built with; the
    [Game] passes its own, so the two share one object.  The methods below
    therefore run on the pair of the manager and that generator. *)
Module KonamiManager.
Record t : Type := mk {
  sequence : list string;
  buffer : list string;
  max_uses : Z;
  uses : Z;
  locked : bool;
  hints : list string
}.

Definition set_buffer (b : list string) (k : t) : t :=
  mk (sequence k) b (max_uses k) (uses k) (locked k) (hints k).
Definition set_uses (u : Z) (k : t) : t :=
  mk (sequence k) (buffer k) (max_uses k) u (locked k) (hints k).
Definition set_locked (l : bool) (k : t) : t :=
  mk (sequence k) (buffer k) (max_uses k) (uses k) l (hints k).

Definition HINTS : list string :=
  [ "A strange breeze whistles... like a whisper of old codes.";
    "You feel your fingers itching for a rhythm you've never learned.";
    "The soil pulses with hidden power. What if you... remembered something forgotten?";
    "A distant memory nudges your thoughtsâ€”up, up, down...?" ]%string.

(** [__init__(sequence, rng, max_uses=0)] *)
Definition init (seq : list string) (max_uses : Z) : t :=
  mk seq [] max_uses 0 false HINTS.

(** [self.max_uses <= 0] *)
Definition unlimited (k : t) : bool := max_uses k <=? 0.

(** [not self.locked and (unlimited or self.uses < self.max_uses)] *)
Definition usable (k : t) : bool :=
  negb (locked k) && (unlimited k || (uses k <? max_uses k)).

(** [self.uses += 1], then lock when the cap is reached. *)
Definition consume : M t unit :=
  modify (fun k => set_uses (uses k + 1) k) ;;;
  let* k := gets id in
  when (negb (unlimited k) && (max_uses k <=? uses k)) (modify (set_locked true)).

(** [self.buffer.append(value)], and [self.buffer.pop(0)] once the buffer
    is longer than the sequence. *)
Definition remember (value : string) : M t unit :=
  modify (fun k => set_buffer (buffer k ++ [value]) k) ;;;
  modify (fun k =>
    if (length (sequence k) <? length (buffer k))%nat
    then set_buffer (tail (buffer k)) k else k).

Section Methods.
Context {R : Type} `{RandomGen R}.

Definition push (value : string) : M (t * R) bool :=
  let value := Py.strip (Py.lower value) in
  if negb (Py.nonempty value) then ret false
  else
    on_fst (remember value) ;;;
    let* k := gets fst in
    if bool_decide (buffer k = sequence k) && usable k then
      on_fst (modify (set_buffer [])) ;;;
      on_fst consume ;;;
      ret true
    else
      let* hint :=
        if bool_decide (buffer k <> take (length (buffer k)) (sequence k)) then
          let* x := on_snd Random.random in ret (x <? 0.15)%float
        else ret false in
      if hint then
        (* Provide a gentle hint when the sequence does not match. *)
        let* h := on_snd (Random.choice (hints k)) in
        raise (KonamiHint h)
      else ret false.

(** Check a full sequence (used when activating a purchased fragment). *)
Definition check_sequence (inputs : list string) : M (t * R) bool :=
  let tokens := map (fun x => Py.strip (Py.lower x)) inputs in
  let* k := gets fst in
  if bool_decide (tokens = sequence k) && usable k then
    on_fst consume ;;;
    ret true
  else ret false.
End Methods.

Definition unlocks_remaining (k : t) : Z :=
  if max_uses k <=? 0 then 999999 else Z.max 0 (max_uses k - uses k).
End KonamiManager.

(** ** [Farm] *)

Module Farm.
Record t : Type := mk {
  name : string;
  max_hp : Z;
  health : Z;
  attack_power : Z
}.

Definition set_name (n : string) (f : t) : t := mk n (max_hp f) (health f) (attack_power f).
Definition set_max_hp (m : Z) (f : t) : t := mk (name f) m (health f) (attack_power f).
Definition set_health (h : Z) (f : t) : t := mk (name f) (max_hp f) h (attack_power f).
Definition set_attack_power (a : Z) (f : t) : t := mk (name f) (max_hp f) (health f) a.

(** [__init__(name, health, attack_power)] *)
Definition init (name : string) (health attack_power : Z) : t :=
  mk name health health attack_power.

Definition is_alive (self : t) : bool := 0 <? health self.

Definition display_hp (self : t) : string :=
  (Py.str (health self) ++ "/" ++ Py.str (max_hp self))%string.

(** [round(self.max_hp * percent)] *)
Definition percent_amount (percent : float) : M t Z :=
  let* hp := gets max_hp in
  lift (Py.round_product hp percent).

Definition heal_percent (percent : float) : M t Z :=
  let* amount := percent_amount percent in
  modify (fun self => set_health (Z.min (max_hp self) (health self + amount)) self) ;;;
  ret amount.

Definition damage_percent (percent : float) : M t Z :=
  let* amount := percent_amount percent in
  modify (fun self => set_health (Z.max 0 (health self - amount)) self) ;;;
  ret amount.

Definition heal_flat (amount : Z) : M t Z :=
  modify (fun self => set_health (Z.min (max_hp self) (health self + amount)) self) ;;;
  ret amount.

Definition take_damage (amount : Z) : M t Z :=
  modify (fun self => set_health (Z.max 0 (health self - amount)) self) ;;;
  ret amount.

Section Attack.
Context {R : Type} `{RandomGen R}.

(** [round(multiplier * self.attack_power)] *)
Definition roll_attack_damage (self : t) : M R Z :=
  let* multiplier := Random.uniform 0.8 1.2 in
  let* a := lift (Py.float_of_int (attack_power self)) in
  lift (Py.round (multiplier * a)).

(** [apply_attack_damage(other, damage)], on [other]. *)
Definition apply_attack_damage (damage : Z) : M t Z :=
  take_damage damage ;;; ret damage.

(** [attack(other, rng)], on [other] and the generator. *)
Definition attack (self : t) : M (t * R) Z :=
  let* damage := on_snd (roll_attack_damage self) in
  on_fst (apply_attack_damage damage).
End Attack.
End Farm.


Module Skill.
(** The [effect] callables of the catalogue, by the method they call. *)
Inductive effect : Type :=
| blazing_corn
| rain_dance_buffed
| stampede_buffed
| increase_max_hp (amount : Z)
| sap_burst
| concussive_seed.

Record t : Type := mk {
  name : string;
  description : string;
  effect_of : effect;
  cooldown : Z
}.
End Skill.

(** ** [Monster] and [Boss] *)

(** An enemy is a [Farm] of class [Monster] or [Boss]; the attributes the
    battle sets on it with [setattr] are fields that start absent. *)
Module Enemy.
Inductive kind : Type := Monster | Boss.

Record t : Type := mk {
  farm : Farm.t;
  kind_of : kind;
  passive_reward : option (string * string * bool);
  stunned : bool;
  attack_debuff : option float;
  last_gimmick_turn : option Z
}.

Definition set_farm (f : Farm.t) (e : t) : t :=
  mk f (kind_of e) (passive_reward e) (stunned e) (attack_debuff e) (last_gimmick_turn e).
Definition set_stunned (b : bool) (e : t) : t :=
  mk (farm e) (kind_of e) (passive_reward e) b (attack_debuff e) (last_gimmick_turn e).
Definition set_attack_debuff (d : option float) (e : t) : t :=
  mk (farm e) (kind_of e) (passive_reward e) (stunned e) d (last_gimmick_turn e).
Definition set_last_gimmick_turn (n : option Z) (e : t) : t :=
  mk (farm e) (kind_of e) (passive_reward e) (stunned e) (attack_debuff e) n.

Definition on_farm {A} (m : M Farm.t A) : M t A := zoom farm set_farm m.

(** [isinstance(enemy, Boss)] *)
Definition is_boss (e : t) : bool :=
  match kind_of e with Boss => true | Monster => false end.

Definition is_alive (e : t) : bool := Farm.is_alive (farm e).

Definition BOSS_TITLES (wave : Z) : option string :=
  if wave =? 5 then Some "Gorecrow"%string
  else if wave =? 10 then Some "Scorch Herald"%string
  else if wave =? 15 then Some "Rusthorn"%string
  else if wave =? 20 then Some "Emberlord"%string
  else if wave =? 25 then Some "Gravelox"%string
  else None.

(** [Monster(wave)] *)
Definition monster (wave : Z) : t :=
  mk (Farm.init "Enemy Monster" (100 + wave * 12) (12 + wave * 3))
     Monster None false None None.

(** [Boss(wave)] *)
Definition boss (wave : Z) : t :=
  let base := farm (monster wave) in
  let name :=
    match BOSS_TITLES wave with
    | Some title => (title ++ " (Wave " ++ Py.str wave ++ ")")%string
    | None => ("Endless Warden (Wave " ++ Py.str wave ++ ")")%string
    end in
  let '(add_hp, add_attack) :=
    if wave <=? 10 then (80, 15)
    else if wave <=? 30 then (150, 30)
    else (250, 40) in
  mk (Farm.mk name (Farm.max_hp base + add_hp) (Farm.health base + add_hp)
              (Farm.attack_power base + add_attack))
     Boss
     (Some ("Ember's Fury"%string,
            "Gain +5 attack per stack (stackable up to 3 times)."%string,
            true))
     false None None.
End Enemy.

(** ** [PlayerFarm] *)

Module PlayerFarm.
Section WithGenerator.
Context {R : Type} `{RandomGen R}.

Record t : Type := mk {
  farm : Farm.t;
  skills : list Skill.t;
  coins : Z;
  gold : Z;
  rng : R;
  tonic_turns : Z;
  tonic_reduction : float;
  skill_cooldowns : gmap string Z;
  passives : gmap string (Z * bool);
  konami_fragments : Z;
  konami_fragment_rounds_left : Z;
  konami_purchase_count : Z;
  gold_tip_shown : bool;
  merchant_skill_given : bool;
  temp_attack_bonus : Z;
  irrigation_attack_turns : Z;
  irrigation_attack_bonus : float;
  irrigation_shield : Z;
  defensive_path : bool
}.

Definition set_farm (x : Farm.t) (p : t) : t :=
  mk x (skills p) (coins p) (gold p) (rng p) (tonic_turns p) (tonic_reduction p)
     (skill_cooldowns p) (passives p) (konami_fragments p) (konami_fragment_rounds_left p)
     (konami_purchase_count p) (gold_tip_shown p) (merchant_skill_given p) (temp_attack_bonus p)
     (irrigation_attack_turns p) (irrigation_attack_bonus p) (irrigation_shield p)
     (defensive_path p).
Definition set_skills (x : list Skill.t) (p : t) : t :=
  mk (farm p) x (coins p) (gold p) (rng p) (tonic_turns p) (tonic_reduction p) (skill_cooldowns p)
     (passives p) (konami_fragments p) (konami_fragment_rounds_left p) (konami_purchase_count p)
     (gold_tip_shown p) (merchant_skill_given p) (temp_attack_bonus p) (irrigation_attack_turns p)
     (irrigation_attack_bonus p) (irrigation_shield p) (defensive_path p).
Definition set_coins (x : Z) (p : t) : t :=
  mk (farm p) (skills p) x (gold p) (rng p) (tonic_turns p) (tonic_reduction p)
     (skill_cooldowns p) (passives p) (konami_fragments p) (konami_fragment_rounds_left p)
     (konami_purchase_count p) (gold_tip_shown p) (merchant_skill_given p) (temp_attack_bonus p)
     (irrigation_attack_turns p) (irrigation_attack_bonus p) (irrigation_shield p)
     (defensive_path p).
Definition set_gold (x : Z) (p : t) : t :=
  mk (farm p) (skills p) (coins p) x (rng p) (tonic_turns p) (tonic_reduction p)
     (skill_cooldowns p) (passives p) (konami_fragments p) (konami_fragment_rounds_left p)
     (konami_purchase_count p) (gold_tip_shown p) (merchant_skill_given p) (temp_attack_bonus p)
     (irrigation_attack_turns p) (irrigation_attack_bonus p) (irrigation_shield p)
     (defensive_path p).
Definition set_rng (x : R) (p : t) : t :=
  mk (farm p) (skills p) (coins p) (gold p) x (tonic_turns p) (tonic_reduction p)
     (skill_cooldowns p) (passives p) (konami_fragments p) (konami_fragment_rounds_left p)
     (konami_purchase_count p) (gold_tip_shown p) (merchant_skill_given p) (temp_attack_bonus p)
     (irrigation_attack_turns p) (irrigation_attack_bonus p) (irrigation_shield p)
     (defensive_path p).
Definition set_tonic_turns (x : Z) (p : t) : t :=
  mk (farm p) (skills p) (coins p) (gold p) (rng p) x (tonic_reduction p) (skill_cooldowns p)
     (passives p) (konami_fragments p) (konami_fragment_rounds_left p) (konami_purchase_count p)
     (gold_tip_shown p) (merchant_skill_given p) (temp_attack_bonus p) (irrigation_attack_turns p)
     (irrigation_attack_bonus p) (irrigation_shield p) (defensive_path p).
Definition set_tonic_reduction (x : float) (p : t) : t :=
  mk (farm p) (skills p) (coins p) (gold p) (rng p) (tonic_turns p) x (skill_cooldowns p)
     (passives p) (konami_fragments p) (konami_fragment_rounds_left p) (konami_purchase_count p)
     (gold_tip_shown p) (merchant_skill_given p) (temp_attack_bonus p) (irrigation_attack_turns p)
     (irrigation_attack_bonus p) (irrigation_shield p) (defensive_path p).
Definition set_skill_cooldowns (x : gmap string Z) (p : t) : t :=
  mk (farm p) (skills p) (coins p) (gold p) (rng p) (tonic_turns p) (tonic_reduction p) x
     (passives p) (konami_fragments p) (konami_fragment_rounds_left p) (konami_purchase_count p)
     (gold_tip_shown p) (merchant_skill_given p) (temp_attack_bonus p) (irrigation_attack_turns p)
     (irrigation_attack_bonus p) (irrigation_shield p) (defensive_path p).
Definition set_passives (x : gmap string (Z * bool)) (p : t) : t :=
  mk (farm p) (skills p) (coins p) (gold p) (rng p) (tonic_turns p) (tonic_reduction p)
     (skill_cooldowns p) x (konami_fragments p) (konami_fragment_rounds_left p)
     (konami_purchase_count p) (gold_tip_shown p) (merchant_skill_given p) (temp_attack_bonus p)
     (irrigation_attack_turns p) (irrigation_attack_bonus p) (irrigation_shield p)
     (defensive_path p).
Definition set_konami_fragments (x : Z) (p : t) : t :=
  mk (farm p) (skills p) (coins p) (gold p) (rng p) (tonic_turns p) (tonic_reduction p)
     (skill_cooldowns p) (passives p) x (konami_fragment_rounds_left p) (konami_purchase_count p)
     (gold_tip_shown p) (merchant_skill_given p) (temp_attack_bonus p) (irrigation_attack_turns p)
     (irrigation_attack_bonus p) (irrigation_shield p) (defensive_path p).
Definition set_konami_fragment_rounds_left (x : Z) (p : t) : t :=
  mk (farm p) (skills p) (coins p) (gold p) (rng p) (tonic_turns p) (tonic_reduction p)
     (skill_cooldowns p) (passives p) (konami_fragments p) x (konami_purchase_count p)
     (gold_tip_shown p) (merchant_skill_given p) (temp_attack_bonus p) (irrigation_attack_turns p)
     (irrigation_attack_bonus p) (irrigation_shield p) (defensive_path p).
Definition set_konami_purchase_count (x : Z) (p : t) : t :=
  mk (farm p) (skills p) (coins p) (gold p) (rng p) (tonic_turns p) (tonic_reduction p)
     (skill_cooldowns p) (passives p) (konami_fragments p) (konami_fragment_rounds_left p) x
     (gold_tip_shown p) (merchant_skill_given p) (temp_attack_bonus p) (irrigation_attack_turns p)
     (irrigation_attack_bonus p) (irrigation_shield p) (defensive_path p).
Definition set_gold_tip_shown (x : bool) (p : t) : t :=
  mk (farm p) (skills p) (coins p) (gold p) (rng p) (tonic_turns p) (tonic_reduction p)
     (skill_cooldowns p) (passives p) (konami_fragments p) (konami_fragment_rounds_left p)
     (konami_purchase_count p) x (merchant_skill_given p) (temp_attack_bonus p)
     (irrigation_attack_turns p) (irrigation_attack_bonus p) (irrigation_shield p)
     (defensive_path p).
Definition set_merchant_skill_given (x : bool) (p : t) : t :=
  mk (farm p) (skills p) (coins p) (gold p) (rng p) (tonic_turns p) (tonic_reduction p)
     (skill_cooldowns p) (passives p) (konami_fragments p) (konami_fragment_rounds_left p)
     (konami_purchase_count p) (gold_tip_shown p) x (temp_attack_bonus p)
     (irrigation_attack_turns p) (irrigation_attack_bonus p) (irrigation_shield p)
     (defensive_path p).
Definition set_temp_attack_bonus (x : Z) (p : t) : t :=
  mk (farm p) (skills p) (coins p) (gold p) (rng p) (tonic_turns p) (tonic_reduction p)
     (skill_cooldowns p) (passives p) (konami_fragments p) (konami_fragment_rounds_left p)
     (konami_purchase_count p) (gold_tip_shown p) (merchant_skill_given p) x
     (irrigation_attack_turns p) (irrigation_attack_bonus p) (irrigation_shield p)
     (defensive_path p).
Definition set_irrigation_attack_turns (x : Z) (p : t) : t :=
  mk (farm p) (skills p) (coins p) (gold p) (rng p) (tonic_turns p) (tonic_reduction p)
     (skill_cooldowns p) (passives p) (konami_fragments p) (konami_fragment_rounds_left p)
     (konami_purchase_count p) (gold_tip_shown p) (merchant_skill_given p) (temp_attack_bonus p) x
     (irrigation_attack_bonus p) (irrigation_shield p) (defensive_path p).
Definition set_irrigation_attack_bonus (x : float) (p : t) : t :=
  mk (farm p) (skills p) (coins p) (gold p) (rng p) (tonic_turns p) (tonic_reduction p)
     (skill_cooldowns p) (passives p) (konami_fragments p) (konami_fragment_rounds_left p)
     (konami_purchase_count p) (gold_tip_shown p) (merchant_skill_given p) (temp_attack_bonus p)
     (irrigation_attack_turns p) x (irrigation_shield p) (defensive_path p).
Definition set_irrigation_shield (x : Z) (p : t) : t :=
  mk (farm p) (skills p) (coins p) (gold p) (rng p) (tonic_turns p) (tonic_reduction p)
     (skill_cooldowns p) (passives p) (konami_fragments p) (konami_fragment_rounds_left p)
     (konami_purchase_count p) (gold_tip_shown p) (merchant_skill_given p) (temp_attack_bonus p)
     (irrigation_attack_turns p) (irrigation_attack_bonus p) x (defensive_path p).
Definition set_defensive_path (x : bool) (p : t) : t :=
  mk (farm p) (skills p) (coins p) (gold p) (rng p) (tonic_turns p) (tonic_reduction p)
     (skill_cooldowns p) (passives p) (konami_fragments p) (konami_fragment_rounds_left p)
     (konami_purchase_count p) (gold_tip_shown p) (merchant_skill_given p) (temp_attack_bonus p)
     (irrigation_attack_turns p) (irrigation_attack_bonus p) (irrigation_shield p) x.

Definition on_farm {A} (m : M Farm.t A) : M t A := zoom farm set_farm m.

Definition name (p : t) : string := Farm.name (farm p).
Definition max_hp (p : t) : Z := Farm.max_hp (farm p).
Definition health (p : t) : Z := Farm.health (farm p).
Definition attack_power (p : t) : Z := Farm.attack_power (farm p).
Definition is_alive (p : t) : bool := Farm.is_alive (farm p).
Definition set_max_hp (x : Z) (p : t) : t := set_farm (Farm.set_max_hp x (farm p)) p.
Definition set_health (x : Z) (p : t) : t := set_farm (Farm.set_health x (farm p)) p.
Definition set_attack_power (x : Z) (p : t) : t :=
  set_farm (Farm.set_attack_power x (farm p)) p.

(** [__init__(name)].  The player's own generator is [random.Random()],
    seeded by the operating system: [entropy] is the state it starts
    in, which nothing in the program chooses. *)
Definition init (name : string) (entropy : R) : t :=
  mk (Farm.init name 150 25) [] 0 0 entropy 0 0%float ∅ ∅ 0 0 0 false false 0 0 0%float 0
     false.

(** The override of [Farm.take_damage]: the shield absorbs first. *)
Definition take_damage (amount : Z) : M t Z :=
  let* self := gets id in
  let* amount :=
    if (0 <? irrigation_shield self) && (0 <? amount) then
      let absorbed := Z.min amount (irrigation_shield self) in
      modify (set_irrigation_shield (irrigation_shield self - absorbed)) ;;;
      ret (amount - absorbed)
    else ret amount in
  on_farm (Farm.take_damage amount).

(** [attack(other, rng)], on the player, [other] and the generator. *)
Definition attack : M (t * Farm.t * R) Z :=
  let* self := gets (fun s => fst (fst s)) in
  let* damage := on_snd (Farm.roll_attack_damage (farm self)) in
  let* damage :=
    if (0 <? irrigation_attack_turns self) && (0 <? irrigation_attack_bonus self)%float then
      let* damage := lift (Py.round_product damage (1 + irrigation_attack_bonus self)) in
      on_fst (on_fst (
        modify (fun p => set_irrigation_attack_turns (irrigation_attack_turns p - 1) p) ;;;
        let* p := gets id in
        when (irrigation_attack_turns p <=? 0) (modify (set_irrigation_attack_bonus 0)))) ;;;
      ret damage
    else ret damage in
  on_fst (on_snd (Farm.apply_attack_damage damage)).

Definition wave_clear_upgrade : M t unit :=
  modify (fun p => set_attack_power (attack_power p + 5) p) ;;;
  modify (fun p => set_max_hp (max_hp p + 10) p) ;;;
  modify (fun p => set_health (max_hp p) p).

Definition all_skills : list Skill.t :=
  [ Skill.mk "Blazing Corn"
      "Deal 30% of enemy current HP + 30% of your attack power and stun the enemy."
      Skill.blazing_corn 4;
    Skill.mk "Rain Dance"
      "Restore HP equal to 30% of your max HP + 50% of your attack power."
      Skill.rain_dance_buffed 5;
    Skill.mk "Stampede"
      "Strike for 1.3x attack power, reduce enemy next attack, and you take 30% recoil."
      Skill.stampede_buffed 5;
    Skill.mk "Fortify Fence"
      "Permanently increase max HP by 25."
      (Skill.increase_max_hp 25) 9999;
    Skill.mk "Sap Burst"
      "Deal 0.9x attack power and heal for 12% of your max HP."
      Skill.sap_burst 3;
    Skill.mk "Concussive Seed"
      "Deal 0.5x attack power and stun the enemy to skip its next turn."
      Skill.concussive_seed 4 ]%string.

(** [all(existing.name != skill.name for existing in self.skills)] *)
Definition is_new (skill : Skill.t) (owned : list Skill.t) : bool :=
  forallb (fun existing => negb (Skill.name existing =? Skill.name skill)%string) owned.

(** [add_new_skill(io)], on the player and the IO layer.  The shuffle
    draws from the player's own generator [self.rng]. *)
Definition add_new_skill : M (t * IO.t) unit :=
  let* available :=
    on_fst (zoom rng set_rng (Random.shuffle all_skills)) in
  let* self := gets fst in
  match find (fun skill => is_new skill (skills self)) available with
  | Some skill =>
      on_fst (modify (fun p => set_skills (skills p ++ [skill]) p)) ;;;
      on_snd (IO.write ("âœ¨ New skill acquired: " ++ Skill.name skill ++ "!"))
  | None => on_snd (IO.write "No new skill found. All unlocked.")
  end.

Definition attack_boost : M t unit :=
  modify (fun p => set_attack_power (attack_power p + 20) p).

Definition defense_boost : M t unit :=
  modify (fun p => set_max_hp (max_hp p + 50) p) ;;;
  modify (fun p => set_health (Z.min (max_hp p) (health p)) p).

Definition konami_activation_cost (self : t) (extra_tiers : Z) : Z * Z :=
  let tiers := konami_purchase_count self / 3 + Z.max 0 extra_tiers in
  (7 + tiers * 2, 5 + tiers).

(** *** Skill effects, on the player, the enemy and the IO layer *)

Definition on_player {A} (m : M t A) : M (t * Enemy.t * IO.t) A := on_fst (on_fst m).
Definition on_enemy {A} (m : M Enemy.t A) : M (t * Enemy.t * IO.t) A := on_fst (on_snd m).
Definition on_io {A} (m : M IO.t A) : M (t * Enemy.t * IO.t) A := on_snd m.

Definition skill_increase_max_hp (amount : Z) : M (t * Enemy.t * IO.t) unit :=
  on_player (modify (fun p => set_max_hp (max_hp p + amount) p)) ;;;
  on_player (modify (fun p => set_health (health p + amount) p)) ;;;
  on_io (IO.write ("ðŸ›¡ï¸ Fortify Fence raises Farm's max HP by " ++ Py.str amount ++ ".")).

Definition skill_blazing_corn : M (t * Enemy.t * IO.t) unit :=
  let* (player, enemy, _) := gets id in
  let* a := lift (Py.round_product (Farm.health (Enemy.farm enemy)) 0.3) in
  let* b := lift (Py.round_product (attack_power player) 0.3) in
  let damage := a + b in
  on_enemy (Enemy.on_farm (Farm.take_damage damage)) ;;;
  on_enemy (modify (Enemy.set_stunned true)) ;;;
  on_io (IO.write ("ðŸ”¥ Blazing Corn deals " ++ Py.str damage ++ " damage and stuns "
                   ++ Farm.name (Enemy.farm enemy) ++ " (they skip their next turn)!")).

Definition skill_rain_dance_buffed : M (t * Enemy.t * IO.t) unit :=
  let* player := gets (fun s => fst (fst s)) in
  let* a := lift (Py.round_product (max_hp player) 0.3) in
  let* b := lift (Py.round_product (attack_power player) 0.5) in
  let amount := a + b in
  on_player (on_farm (Farm.heal_flat amount)) ;;;
  on_io (IO.write ("ðŸŒ§ï¸ Rain Dance restores " ++ Py.str amount ++ " HP!")).

Definition skill_stampede : M (t * Enemy.t * IO.t) unit :=
  let* (player, enemy, _) := gets id in
  let* damage := lift (Py.round_product (attack_power player) 1.3) in
  on_enemy (Enemy.on_farm (Farm.take_damage damage)) ;;;
  (* apply a debuff: reduce enemy attack this turn by 30% *)
  on_enemy (modify (fun e =>
    match Enemy.attack_debuff e with
    | Some d => Enemy.set_attack_debuff (Some (d + 0.3)%float) e
    | None => Enemy.set_attack_debuff (Some 0.3%float) e
    end)) ;;;
  (* recoil 30% of damage dealt *)
  let* recoil := lift (Py.round_product damage 0.3) in
  on_player (take_damage recoil) ;;;
  on_io (IO.write ("ðŸ„ Stampede hits " ++ Farm.name (Enemy.farm enemy) ++ " for "
                   ++ Py.str damage ++ " damage, you recoil " ++ Py.str recoil
                   ++ " HP and reduce their next attack!")).

Definition skill_stampede_buffed : M (t * Enemy.t * IO.t) unit := skill_stampede.

Definition skill_concussive_seed : M (t * Enemy.t * IO.t) unit :=
  let* (player, enemy, _) := gets id in
  let* damage := lift (Py.round_product (attack_power player) 0.5) in
  on_enemy (Enemy.on_farm (Farm.take_damage damage)) ;;;
  (* apply stun flag for one turn *)
  on_enemy (modify (Enemy.set_stunned true)) ;;;
  on_io (IO.write ("ðŸŒ± Concussive Seed hits for " ++ Py.str damage ++ " and stuns "
                   ++ Farm.name (Enemy.farm enemy) ++ "!")).

Definition skill_sap_burst : M (t * Enemy.t * IO.t) unit :=
  let* player := gets (fun s => fst (fst s)) in
  let* damage := lift (Py.round_product (attack_power player) 0.9) in
  on_enemy (Enemy.on_farm (Farm.take_damage damage)) ;;;
  let* heal := on_player (on_farm (Farm.heal_percent 0.12)) in
  on_io (IO.write ("ðŸŒ¿ Sap Burst deals " ++ Py.str damage ++ " damage and restores "
                   ++ Py.str heal ++ " HP.")).

(** [Skill.use(player, target, io)]: call the skill's [effect]. *)
Definition use (skill : Skill.t) : M (t * Enemy.t * IO.t) unit :=
  match Skill.effect_of skill with
  | Skill.blazing_corn => skill_blazing_corn
  | Skill.rain_dance_buffed => skill_rain_dance_buffed
  | Skill.stampede_buffed => skill_stampede_buffed
  | Skill.increase_max_hp amount => skill_increase_max_hp amount
  | Skill.sap_burst => skill_sap_burst
  | Skill.concussive_seed => skill_concussive_seed
  end.
End WithGenerator.
Arguments t R : clear implicits.
End PlayerFarm.

(** ** [Game] *)

Module Game.
Section WithGenerator.
Context {R : Type} `{RandomGen R}.

Record t : Type := mk {
  io : IO.t;
  rng : R;
  wave : Z;
  konami_manager : KonamiManager.t;
  used_events : gset string;
  player : option (PlayerFarm.t R);
  turn_count : Z;
  endless_mode : bool;
  current_area : option string;
  stop_requested : bool
}.

Definition set_io (x : IO.t) (g : t) : t :=
  mk x (rng g) (wave g) (konami_manager g) (used_events g) (player g) (turn_count g)
     (endless_mode g) (current_area g) (stop_requested g).
Definition set_rng (x : R) (g : t) : t :=
  mk (io g) x (wave g) (konami_manager g) (used_events g) (player g) (turn_count g)
     (endless_mode g) (current_area g) (stop_requested g).
Definition set_wave (x : Z) (g : t) : t :=
  mk (io g) (rng g) x (konami_manager g) (used_events g) (player g) (turn_count g)
     (endless_mode g) (current_area g) (stop_requested g).
Definition set_konami_manager (x : KonamiManager.t) (g : t) : t :=
  mk (io g) (rng g) (wave g) x (used_events g) (player g) (turn_count g) (endless_mode g)
     (current_area g) (stop_requested g).
Definition set_used_events (x : gset string) (g : t) : t :=
  mk (io g) (rng g) (wave g) (konami_manager g) x (player g) (turn_count g) (endless_mode g)
     (current_area g) (stop_requested g).
Definition set_player (x : option (PlayerFarm.t R)) (g : t) : t :=
  mk (io g) (rng g) (wave g) (konami_manager g) (used_events g) x (turn_count g) (endless_mode g)
     (current_area g) (stop_requested g).
Definition set_turn_count (x : Z) (g : t) : t :=
  mk (io g) (rng g) (wave g) (konami_manager g) (used_events g) (player g) x (endless_mode g)
     (current_area g) (stop_requested g).
Definition set_endless_mode (x : bool) (g : t) : t :=
  mk (io g) (rng g) (wave g) (konami_manager g) (used_events g) (player g) (turn_count g) x
     (current_area g) (stop_requested g).
Definition set_current_area (x : option string) (g : t) : t :=
  mk (io g) (rng g) (wave g) (konami_manager g) (used_events g) (player g) (turn_count g)
     (endless_mode g) x (stop_requested g).
Definition set_stop_requested (x : bool) (g : t) : t :=
  mk (io g) (rng g) (wave g) (konami_manager g) (used_events g) (player g) (turn_count g)
     (endless_mode g) (current_area g) x.

(** [Game(io, rng)] *)
Definition init (io : IO.t) (rng : R) : t :=
  mk io rng 1 (KonamiManager.init KONAMI_SEQUENCE 0) ∅ None 0 false None false.

Definition write (text : string) : M t unit := zoom io set_io (IO.write text).
Definition prompt (text : string) : M t string := zoom io set_io (IO.prompt text).

(** [assert self.player is not None] *)
Definition assert_player : M t unit :=
  fun g =>
    match player g with
    | Some _ => (Ok tt, g)
    | None => (Raise AssertionError, g)
    end.

(** [self.player], as an object to read and to run methods on. *)
Definition the_player : M t (PlayerFarm.t R) :=
  fun g =>
    match player g with
    | Some p => (Ok p, g)
    | None => (Raise AttributeError, g)
    end.

Definition on_player {A} (m : M (PlayerFarm.t R) A) : M t A :=
  fun g =>
    match player g with
    | Some p => let (r, p') := m p in (r, set_player (Some p') g)
    | None => (Raise AttributeError, g)
    end.

(** A method of the player that also writes to [self.io]. *)
Definition on_player_io {A} (m : M (PlayerFarm.t R * IO.t) A) : M t A :=
  fun g =>
    match player g with
    | Some p => let '(r, (p', io')) := m (p, io g) in (r, set_io io' (set_player (Some p') g))
    | None => (Raise AttributeError, g)
    end.

(** *** The battle, on the game and the enemy it was called with *)

Definition on_game {A} (m : M t A) : M (t * Enemy.t) A := on_fst m.
Definition on_enemy {A} (m : M Enemy.t A) : M (t * Enemy.t) A := on_snd m.
Definition enemy_name (e : Enemy.t) : string := Farm.name (Enemy.farm e).

(** [self.player.attack(enemy, self.rng)] *)
Definition player_attacks : M (t * Enemy.t) Z :=
  fun '(g, e) =>
    match player g with
    | Some p =>
        let '(r, (p', f', rng')) := PlayerFarm.attack (p, Enemy.farm e, rng g) in
        (r, (set_rng rng' (set_player (Some p') g), Enemy.set_farm f' e))
    | None => (Raise AttributeError, (g, e))
    end.

(** [skill.use(self.player, enemy, self.io)] *)
Definition use_skill (skill : Skill.t) : M (t * Enemy.t) unit :=
  fun '(g, e) =>
    match player g with
    | Some p =>
        let '(r, (p', e', io')) := PlayerFarm.use skill (p, e, io g) in
        (r, (set_io io' (set_player (Some p') g), e'))
    | None => (Raise AttributeError, (g, e))
    end.

Definition offer_boss_passive (boss : Enemy.t) : M t unit :=
  assert_player ;;;
  (* boss.passive_reward: (name, desc, stackable) *)
  match Enemy.passive_reward boss with
  | None => ret tt
  | Some (name, desc, stackable) =>
      let* p := the_player in
      let stacks := fst (default (0, stackable) (PlayerFarm.passives p !! name)) in
      let initial_stacks := stacks in
      if 3 <=? stacks then ret tt
      else
        (* Auto-apply passive. Small chance for an extra stack, tiny chance for backlash. *)
        write ("
ðŸ† Boss Reward: " ++ name ++ " â€” " ++ desc ++ " Obtained!") ;;;
        let stacks := Z.min 3 (stacks + 1) in
        let grant stacks :=
          on_player (modify (fun p =>
            PlayerFarm.set_passives (<[name := (stacks, stackable)]> (PlayerFarm.passives p)) p)) ;;;
          when (name =? "Ember's Fury")%string
            (on_player (modify (fun p =>
               PlayerFarm.set_attack_power (PlayerFarm.attack_power p + 5) p))) in
        grant stacks ;;;
        (* 20% chance to immediately grant +1 extra stack if available (but not on first acquisition) *)
        let* surge :=
          if stackable && (0 <? initial_stacks) && (stacks <? 3) then
            let* x := zoom rng set_rng Random.random in ret (x <? 0.2)%float
          else ret false in
        let* stacks :=
          if surge then
            let stacks := Z.min 3 (stacks + 1) in
            grant stacks ;;;
            write "A surge amplifies the reward! An extra stack is granted." ;;;
            ret stacks
          else ret stacks in
        (* 10% chance small backlash *)
        let* x := zoom rng set_rng Random.random in
        when (x <? 0.10)%float
          (let* p := the_player in
           let* n := lift (Py.int_product (PlayerFarm.max_hp p) 0.05) in
           let lost := Z.max 1 n in
           on_player (PlayerFarm.take_damage lost) ;;;
           write ("The passive leaves a bitter aftertaste. You lose " ++ Py.str lost ++ " HP.")) ;;;
        write ("Passive applied. Current stacks: " ++ Py.str stacks ++ ".")
  end.

(** The lines of the skill menu, numbered from [idx]. *)
Fixpoint skill_menu (cooldowns : gmap string Z) (idx : Z) (skills : list Skill.t)
  : list string :=
  match skills with
  | [] => []
  | skill :: rest =>
      let cd := default 0 (cooldowns !! Skill.name skill) in
      let cd_text := (if (cd =? 0)%Z then "" else " (CD: " ++ Py.str cd ++ ")")%string in
      (Py.str idx ++ ". " ++ Skill.name skill ++ " â€” " ++ Skill.description skill
         ++ cd_text)%string
      :: skill_menu cooldowns (idx + 1) rest
  end.

Fixpoint write_all (lines : list string) : M t unit :=
  match lines with
  | [] => ret tt
  | line :: rest => write line ;;; write_all rest
  end.

Definition handle_skill : M (t * Enemy.t) unit :=
  on_game assert_player ;;;
  let* p := on_game the_player in
  match PlayerFarm.skills p with
  | [] => on_game (write "You have no skills yet, so you just emoted lolz")
  | _ =>
      on_game (write "Available Skills:") ;;;
      on_game (write_all (skill_menu (PlayerFarm.skill_cooldowns p) 1 (PlayerFarm.skills p))) ;;;
      let* index_raw := on_game (prompt "Choose a skill: ") in
      match Py.parse_int (Py.strip index_raw) with
      | None => on_game (write "Meh, that skill doesn't exist, so you emoted lolz")
      | Some n =>
          let index := n - 1 in
          match (if 0 <=? index then PlayerFarm.skills p !! Z.to_nat index else None) with
          | Some skill =>
              (* check cooldown *)
              let cd := default 0 (PlayerFarm.skill_cooldowns p !! Skill.name skill) in
              if 0 <? cd then
                on_game (write (Skill.name skill ++ " is on cd for " ++ Py.str cd
                                ++ " more turns.")) ;;;
                on_game (write "Be patience, jeez.")
              else
                (* use skill *)
                use_skill skill ;;;
                (* set cooldown if present *)
                let cd := Skill.cooldown skill in
                when (negb (cd =? 0) && (0 <? cd) && (cd <? 9999))
                  (on_game (on_player (modify (fun p =>
                     PlayerFarm.set_skill_cooldowns
                       (<[Skill.name skill := cd]> (PlayerFarm.skill_cooldowns p)) p))))
          | None => on_game (write "Meh, that skill doesn't exist, so you emoted lolz")
          end
      end
  end.

Definition show_options : M (t * Enemy.t) unit :=
  on_game assert_player ;;;
  on_game (write "Choose action: [1] Attack  [2] Heal  [3] Skill") ;;;
  let* line := on_game (prompt "> ") in
  let choice := Py.strip line in
  let* (g, enemy) := gets id in
  let* p := on_game the_player in
  if (choice =? "1")%string then
    let* damage := player_attacks in
    on_game (write (PlayerFarm.name p ++ " attacks " ++ enemy_name enemy ++ " for "
                    ++ Py.str damage ++ " damage!"))
  else if (choice =? "2")%string then
    let* amount := on_game (on_player (PlayerFarm.on_farm (Farm.heal_flat 50))) in
    on_game (write (PlayerFarm.name p ++ " uses a heal and recovers " ++ Py.str amount
                    ++ " HP."))
  else if (choice =? "3")%string then handle_skill
  else
    (* fail dialogue for invalid action *)
    on_game (write "Enemy gets a free turn due to your no focus, lol.").

Definition maybe_trigger_endless_gimmick : M (t * Enemy.t) unit :=
  on_game assert_player ;;;
  let* (g, enemy) := gets id in
  let last_turn := default (-999) (Enemy.last_gimmick_turn enemy) in
  if turn_count g - last_turn <? 3 then ret tt
  else
    let base := (if Enemy.is_boss enemy then 0.24 else 0.14)%float in
    let wave_scale := Z.max 0 (wave g - STORY_END_WAVE) in
    let* scaled := lift (Py.int_mul_float wave_scale 0.01) in
    let chance := (base + Py.fmin 0.18 scaled)%float in
    let* x := on_game (zoom rng set_rng Random.random) in
    if (chance <=? x)%float then ret tt
    else
      let* (percent, label) :=
        if Enemy.is_boss enemy then
          let* scaled := lift (Py.int_mul_float wave_scale 0.002) in
          ret ((0.06 + Py.fmin 0.12 scaled)%float, "Boss Siphon"%string)
        else
          let* scaled := lift (Py.int_mul_float wave_scale 0.0015) in
          ret ((0.04 + Py.fmin 0.08 scaled)%float, "Endless Hunger"%string) in
      let* p := on_game the_player in
      let* n := lift (Py.round_product (PlayerFarm.max_hp p) percent) in
      let damage := Z.max 1 n in
      on_game (on_player (PlayerFarm.take_damage damage)) ;;;
      on_game (write ("ðŸ”» " ++ enemy_name enemy ++ " triggers " ++ label ++ ", draining "
                      ++ Py.str damage ++ " HP (" ++ Py.format_1f (percent * 100)
                      ++ "% of max)!")) ;;;
      on_enemy (modify (Enemy.set_last_gimmick_turn (Some (turn_count g)))).

Definition long_battle_threshold : Z := 10.
Definition boss_threshold : Z := 15.

(** [enemy.attack_power = int(enemy.attack_power * 1.5)] *)
Definition scale_attack_power : M Enemy.t unit :=
  let* enemy := gets id in
  let* a := lift (Py.int_product (Farm.attack_power (Enemy.farm enemy)) 1.5) in
  Enemy.on_farm (modify (Farm.set_attack_power a)).

(** increase enemy scaling if battle goes too long *)
Definition escalate : M (t * Enemy.t) unit :=
  let* (g, enemy) := gets id in
  when ((long_battle_threshold <=? turn_count g) && negb (Enemy.is_boss enemy))
    ((* scale by 1.5x *)
     on_enemy scale_attack_power ;;;
     on_game (write "âš ï¸ The enemy is getting Stronger by the turn!")) ;;;
  when ((boss_threshold <=? turn_count g) && Enemy.is_boss enemy)
    (on_enemy scale_attack_power ;;;
     on_game (write "âš ï¸ The boss's getting impatient, it gets Stronger!")).

(** tick down cooldowns *)
Definition tick (cd : Z) : option Z :=
  if 0 <? cd then (if cd - 1 =? 0 then None else Some (cd - 1)) else Some cd.

Definition tick_cooldowns : M t unit :=
  on_player (modify (fun p =>
    PlayerFarm.set_skill_cooldowns (omap tick (PlayerFarm.skill_cooldowns p)) p)).

(** enemy action *)
Definition enemy_action : M (t * Enemy.t) unit :=
  let* (g, enemy) := gets id in
  (* handle stun *)
  if Enemy.stunned enemy then
    on_game (write (enemy_name enemy ++ " got stunned and can't act this turn!")) ;;;
    on_enemy (modify (Enemy.set_stunned false))
  else
    (* apply any attack debuff *)
    let debuff := default 0%float (Enemy.attack_debuff enemy) in
    let* base := on_game (zoom rng set_rng (Farm.roll_attack_damage (Enemy.farm enemy))) in
    let* actual :=
      if Py.float_truthy debuff then
        let* n := lift (Py.int_product base (1 - debuff)) in ret (Z.max 0 n)
      else ret base in
    (* reset debuff after used *)
    when (Py.float_truthy debuff) (on_enemy (modify (Enemy.set_attack_debuff (Some 0%float)))) ;;;
    (* apply player tonic reduction if active *)
    let* p := on_game the_player in
    let* actual :=
      if (0 <? PlayerFarm.tonic_turns p) && (0 <? PlayerFarm.tonic_reduction p)%float then
        let* reduced := lift (Py.int_product actual (1 - PlayerFarm.tonic_reduction p)) in
        on_game (write ("Your tonic reduce your Damage taken from " ++ Py.str actual ++ " to "
                        ++ Py.str reduced ++ " this turn.")) ;;;
        on_game (on_player (
          modify (fun p => PlayerFarm.set_tonic_turns (PlayerFarm.tonic_turns p - 1) p) ;;;
          let* p := gets id in
          when (PlayerFarm.tonic_turns p =? 0) (modify (PlayerFarm.set_tonic_reduction 0)))) ;;;
        ret reduced
      else ret actual in
    on_game (on_player (PlayerFarm.take_damage actual)) ;;;
    on_game (write (enemy_name enemy ++ " attacks " ++ PlayerFarm.name p ++ " for "
                    ++ Py.str actual ++ " damage!")).

(** guaranteed konami fragment drop if player has less than 3 *)
Definition drop_fragment : M t unit :=
  let* p := the_player in
  when (PlayerFarm.konami_fragments p <? 3)
    (on_player (modify (fun p =>
       PlayerFarm.set_konami_fragments (PlayerFarm.konami_fragments p + 1) p)) ;;;
     on_player (modify (PlayerFarm.set_konami_fragment_rounds_left 5)) ;;;
     write "Konami Fragment Obtained from the Boss!").

(** check death to award coins *)
Definition award (enemy : Enemy.t) : M t unit :=
  let reward := if negb (Enemy.is_boss enemy) then 6 else 15 in
  on_player (modify (fun p => PlayerFarm.set_coins (PlayerFarm.coins p + reward) p)) ;;;
  let* p := the_player in
  write ("ðŸŽ‰ You defeated " ++ enemy_name enemy ++ "! Coins +" ++ Py.str reward
         ++ " (Total: " ++ Py.str (PlayerFarm.coins p) ++ ")") ;;;
  (* Boss gives passive choice *)
  when (Enemy.is_boss enemy) (drop_fragment ;;; offer_boss_passive enemy).

(** One pass through the body of the [while] loop of [_battle]. *)
Definition battle_turn : M (t * Enemy.t) unit :=
  on_game (modify (fun g => set_turn_count (turn_count g + 1) g)) ;;;
  escalate ;;;
  (* show status *)
  let* (g, enemy) := gets id in
  let* p := on_game the_player in
  on_game (write ("
" ++ PlayerFarm.name p ++ ": " ++ Farm.display_hp (PlayerFarm.farm p) ++ " | "
                  ++ enemy_name enemy ++ ": " ++ Farm.display_hp (Enemy.farm enemy)
                  ++ " | Coins: " ++ Py.str (PlayerFarm.coins p))) ;;;
  on_game tick_cooldowns ;;;
  (* in-battle actions *)
  show_options ;;;
  let* (g, enemy) := gets id in
  when (endless_mode g && Enemy.is_alive enemy) maybe_trigger_endless_gimmick ;;;
  let* (g, enemy) := gets id in
  when (Enemy.is_alive enemy) enemy_action ;;;
  let* (g, enemy) := gets id in
  when (negb (Enemy.is_alive enemy)) (on_game (award enemy)).

(** [while self.player.is_alive and enemy.is_alive], at most [fuel] times. *)
Fixpoint battle_loop (fuel : nat) : M (t * Enemy.t) unit :=
  let* (g, enemy) := gets id in
  let* p := on_game the_player in
  if PlayerFarm.is_alive p && Enemy.is_alive enemy then
    match fuel with
    | O => raise OutOfFuel
    | S fuel' => battle_turn ;;; battle_loop fuel'
    end
  else ret tt.

(** [_battle(enemy)].  Every turn reads a line of the script, so one
    more pass than the script has lines is fuel enough
    ([FuelFacts.battle_never_out_of_fuel]). *)
Definition battle (enemy : Enemy.t) : M t unit :=
  assert_player ;;;
  (* battle loop with cooldown ticking and turn limits *)
  modify (set_turn_count 0) ;;;
  fun g =>
    let fuel := S (length (IO.script (io g))) in
    let '(r, (g', _)) := battle_loop fuel (g, enemy) in (r, g').

(** *** The shop *)

(** [self.konami_manager.check_sequence(tokens)]: the manager draws from
    the generator of the game. *)
Definition check_sequence (tokens : list string) : M t bool :=
  zoom (fun g => (konami_manager g, rng g))
       (fun s g => set_rng (snd s) (set_konami_manager (fst s) g))
       (KonamiManager.check_sequence tokens).

Definition update_player (f : PlayerFarm.t R -> PlayerFarm.t R) : M t unit :=
  on_player (modify f).

(** [f"Coins: {self.player.coins} | Gold: {self.player.gold}"] *)
Definition write_purse : M t unit :=
  let* p := the_player in
  write ("Coins: " ++ Py.str (PlayerFarm.coins p) ++ " | Gold: " ++ Py.str (PlayerFarm.gold p)).

Definition gold_tip : M t unit :=
  let* p := the_player in
  when (negb (PlayerFarm.gold_tip_shown p))
    (write "Tip: Buy a Gold Pouch with coins to get gold." ;;;
     update_player (PlayerFarm.set_gold_tip_shown true)).

(** [1] the tonic *)
Definition buy_tonic : M t unit :=
  let* g := gets id in
  let* p := the_player in
  if 0 <? PlayerFarm.tonic_turns p then
    write "This item is still in effect, buy a different one."
  else
    (if endless_mode g then
       if 10 <=? PlayerFarm.coins p then
         update_player (fun p => PlayerFarm.set_coins (PlayerFarm.coins p - 10) p) ;;;
         update_player (PlayerFarm.set_tonic_turns 2) ;;;
         update_player (PlayerFarm.set_tonic_reduction 0.45) ;;;
         write "You drink an Ironbark Brew. Damage reduced by 45% for 2 turns."
       else write "Not enough coins."
     else
       if 8 <=? PlayerFarm.coins p then
         update_player (fun p => PlayerFarm.set_coins (PlayerFarm.coins p - 8) p) ;;;
         update_player (PlayerFarm.set_tonic_turns 3) ;;;
         update_player (PlayerFarm.set_tonic_reduction 0.30) ;;;
         write "You apply a Field Tonic, reducing incoming damage by 30% for 3 turns."
       else write "Not enough coins.") ;;;
    write_purse.

(** [2] the attack buff for this wave *)
Definition buy_attack : M t unit :=
  let* g := gets id in
  let* p := the_player in
  let cost := if endless_mode g then 12 else 6 in
  let buff := if endless_mode g then 20 else 12 in
  if cost <=? PlayerFarm.coins p then
    update_player (fun p => PlayerFarm.set_coins (PlayerFarm.coins p - cost) p) ;;;
    update_player (fun p => PlayerFarm.set_attack_power (PlayerFarm.attack_power p + buff) p) ;;;
    update_player (fun p =>
      PlayerFarm.set_temp_attack_bonus (PlayerFarm.temp_attack_bonus p + buff) p) ;;;
    (if endless_mode g then
       write ("You raise a War Banner in spirit. Attack +" ++ Py.str buff ++ " for this wave.")
     else
       write ("You drink the Attack Tonic. Attack +" ++ Py.str buff ++ " for this wave.")) ;;;
    write_purse
  else write "Not enough coins.".

(** [3] coins to gold *)
Definition buy_gold : M t unit :=
  let* g := gets id in
  let* p := the_player in
  if endless_mode g then
    if 15 <=? PlayerFarm.coins p then
      update_player (fun p => PlayerFarm.set_coins (PlayerFarm.coins p - 15) p) ;;;
      update_player (fun p => PlayerFarm.set_gold (PlayerFarm.gold p + 2) p) ;;;
      write "You purchase a Golden Relic and gain 2 gold." ;;;
      write_purse
    else write "Not enough coins."
  else
    if 10 <=? PlayerFarm.coins p then
      update_player (fun p => PlayerFarm.set_coins (PlayerFarm.coins p - 10) p) ;;;
      update_player (fun p => PlayerFarm.set_gold (PlayerFarm.gold p + 1) p) ;;;
      write "You purchase a Gold Pouch and gain 1 gold." ;;;
      write_purse
    else write "Not enough coins.".

(** [4] the permanent seed: [price] gold for [atk] attack and [hp] max HP *)
Definition plant_seed (price atk hp : Z) (text : string) : M t unit :=
  let* p := the_player in
  if price <=? PlayerFarm.gold p then
    update_player (fun p => PlayerFarm.set_gold (PlayerFarm.gold p - price) p) ;;;
    update_player (fun p => PlayerFarm.set_attack_power (PlayerFarm.attack_power p + atk) p) ;;;
    update_player (fun p => PlayerFarm.set_max_hp (PlayerFarm.max_hp p + hp) p) ;;;
    update_player (fun p =>
      PlayerFarm.set_health (Z.min (PlayerFarm.health p + hp) (PlayerFarm.max_hp p)) p) ;;;
    write text ;;;
    write_purse
  else
    write "Not enough gold." ;;;
    gold_tip.

Definition buy_seed : M t unit :=
  let* g := gets id in
  if endless_mode g then
    plant_seed 2 8 20 "You plant an Ancient Seed. Attack and Max HP surge permanently."
  else
    (* spend gold for a Blessed Seed *)
    plant_seed 1 3 10 "You plant the Blessed Seed. Attack and Max HP permanently increased.".

(** [5] activate a fragment *)
Definition activate_fragment (coins_cost gold_cost : Z) : M t unit :=
  let* p := the_player in
  if 0 <? PlayerFarm.konami_fragments p then
    (* require gold + coins to attempt activation *)
    if (PlayerFarm.gold p <? gold_cost) || (PlayerFarm.coins p <? coins_cost) then
      write ("Activating a fragment costs " ++ Py.str gold_cost ++ " gold and "
             ++ Py.str coins_cost ++ " coins. You don't have enough resources.") ;;;
      gold_tip
    else
      write "Enter the Konami sequence tokens separated by spaces (e.g. 'up up down ...'):" ;;;
      let* line := prompt "> " in
      let tokens := Py.split (Py.strip line) in
      let* matched := check_sequence tokens in
      if matched then
        (* consume fragment *)
        update_player (fun p =>
          PlayerFarm.set_konami_fragments (PlayerFarm.konami_fragments p - 1) p) ;;;
        update_player (fun p => PlayerFarm.set_gold (PlayerFarm.gold p - gold_cost) p) ;;;
        update_player (fun p => PlayerFarm.set_coins (PlayerFarm.coins p - coins_cost) p) ;;;
        update_player (fun p =>
          PlayerFarm.set_konami_purchase_count (PlayerFarm.konami_purchase_count p + 1) p) ;;;
        write "The Konami Fragment glows and releases power into you & your farm!" ;;;
        (* smaller buff: +30% of stats but in flat increases *)
        let* p := the_player in
        let* a := lift (Py.int_product (PlayerFarm.attack_power p) 0.3) in
        let atk_buff := Z.max 1 a in
        let* h := lift (Py.int_product (PlayerFarm.max_hp p) 0.3) in
        let hp_buff := Z.max 1 h in
        update_player (fun p =>
          PlayerFarm.set_attack_power (PlayerFarm.attack_power p + atk_buff) p) ;;;
        update_player (fun p => PlayerFarm.set_max_hp (PlayerFarm.max_hp p + hp_buff) p) ;;;
        update_player (fun p => PlayerFarm.set_health (PlayerFarm.health p + hp_buff) p) ;;;
        on_player_io PlayerFarm.add_new_skill ;;;
        write ("Stats surge: Attack +" ++ Py.str atk_buff ++ ", Max HP +" ++ Py.str hp_buff
               ++ " (health +" ++ Py.str hp_buff ++ ").") ;;;
        write_purse
      else
        write "The sequence fizzles. The fragment resists activation." ;;;
        (* failed activations have a small chance to break the fragment *)
        let* x := zoom rng set_rng Random.random in
        when (x <? 0.25)%float
          (update_player (fun p =>
             PlayerFarm.set_konami_fragments (Z.max 0 (PlayerFarm.konami_fragments p - 1)) p) ;;;
           write "Your fragment breaks, due to failed attempt.")
  else write "You don't have one.".

Definition shop_menu (endless : bool) (coins_cost gold_cost : Z) : list string :=
  [ "
ðŸª The traveling shop appears! You may buy items:" ]%string
  ++ (if endless then
        [ "[1] Ironbark Brew (10 coins) - reduce incoming damage by 45% for 2 turns";
          "[2] War Banner (12 coins) - +20 attack for this wave";
          "[3] Golden Relic (15 coins) - gain 2 gold";
          "[4] Ancient Seed (2 gold) - permanently +8 attack and +20 max HP" ]
      else
        [ "[1] Field Tonic (8 coins) - reduce incoming damage by 30% for 3 turns";
          "[2] Attack Tonic (6 coins) - +12 attack for this wave";
          "[3] Gold Pouch (pay 10 coins) - gain 1 gold";
          "[4] Blessed Seed (1 gold) - permanently +3 attack and +10 max HP" ])%string
  ++ [ "[5] Activate Konami Fragment (" ++ Py.str gold_cost ++ " gold + "
         ++ Py.str coins_cost ++ " coins)";
       "[6] Leave" ]%string.

(** One pass through the [while True] of [_open_shop]; [false] is the
    [break]. *)
Definition shop_visit : M t bool :=
  let* g := gets id in
  let* p := the_player in
  let extra_tiers := if endless_mode g then 1 else 0 in
  let '(coins_cost, gold_cost) := PlayerFarm.konami_activation_cost p extra_tiers in
  write_all (shop_menu (endless_mode g) coins_cost gold_cost) ;;;
  let* line := prompt "> " in
  let choice := Py.strip line in
  if (choice =? "1")%string then buy_tonic ;;; ret true
  else if (choice =? "2")%string then buy_attack ;;; ret true
  else if (choice =? "3")%string then buy_gold ;;; ret true
  else if (choice =? "4")%string then buy_seed ;;; ret true
  else if (choice =? "5")%string then activate_fragment coins_cost gold_cost ;;; ret true
  else if (choice =? "6")%string then write "You leave the shop." ;;; ret false
  else
    (* invalid option returns to shop menu *)
    write "LOL what are you trying to do??" ;;; ret true.

(** loop shop until the player chooses to leave *)
Fixpoint shop_loop (fuel : nat) : M t unit :=
  match fuel with
  | O => raise OutOfFuel
  | S fuel' =>
      let* again := shop_visit in
      if again then shop_loop fuel' else ret tt
  end.

(** [_open_shop()].  Every visit reads a line of the script
    ([FuelFacts.open_shop_never_out_of_fuel]). *)
Definition open_shop : M t unit :=
  assert_player ;;;
  let* g := gets id in
  shop_loop (S (length (IO.script (io g)))).

(** *** Random events *)

Definition RANDOM_EVENTS : list string :=
  [ "Mysterious Merchant"; "Lightning Storm"; "Lost Cow Returns"; "Strange Seed Sprouts";
    "A Trap"; "Wandering Bard"; "Locust Swarm"; "Irrigation Boom"; "Moonlit Harvest" ]%string.

Definition BAD_EVENTS : list string :=
  [ "Sudden Hail"; "Rusty Pitchfork"; "Thorny Brambles" ]%string.

(** Each entry is a [range(lo, hi)] and its events. *)
Definition WAVE_RANGE_EVENTS : list (Z * Z * list string) :=
  [ (1, 11, ["Butterfly Bloom"; "Soggy Furrows"]);
    (11, 21, ["Cinder Drift"; "Charred Fence"]);
    (21, 31, ["Gravel Gust"; "Rusted Plow"]) ]%string.

Definition event_pool (g : t) : list string :=
  RANDOM_EVENTS ++ BAD_EVENTS ++
  match find (fun '(lo, hi, _) => (lo <=? wave g) && (wave g <? hi)) WAVE_RANGE_EVENTS with
  | Some (_, _, wave_events) => wave_events
  | None => []
  end.

Definition event_scale : M t float :=
  let* g := gets id in
  if negb (endless_mode g) then ret 1%float
  else
    let extra := Z.max 0 (wave g - STORY_END_WAVE) in
    let* x := lift (Py.int_mul_float extra 0.03) in
    ret (Py.fmin 2 (1 + x)).

Definition scaled_percent (base : float) : M t float :=
  let* scale := event_scale in
  ret (Py.fmin 0.45 (base * scale)).

Definition draw {A} (m : M R A) : M t A := zoom rng set_rng m.

Definition gain_coins (coins : Z) : M t unit :=
  update_player (fun p => PlayerFarm.set_coins (PlayerFarm.coins p + coins) p).

(** [self.player.damage_percent(self._scaled_percent(base))] *)
Definition damage_scaled (base : float) : M t Z :=
  let* percent := scaled_percent base in
  on_player (PlayerFarm.on_farm (Farm.damage_percent percent)).

Definition player_name : M t string :=
  let* p := the_player in ret (PlayerFarm.name p).

Definition event_mysterious_merchant : M t unit :=
  let* p := the_player in
  if negb (PlayerFarm.merchant_skill_given p) then
    write "A mysterious merchant offers you a new skill." ;;;
    on_player_io PlayerFarm.add_new_skill ;;;
    update_player (PlayerFarm.set_merchant_skill_given true)
  else
    let* coins := draw (Random.randint 3 6) in
    gain_coins coins ;;;
    write ("The merchant slips you " ++ Py.str coins ++ " coins in thanks.").

Definition event_lightning_storm : M t unit :=
  write "A sudden lightning storm strikes your fields! You are hit." ;;;
  let* amount := damage_scaled 0.18 in
  let* name := player_name in
  write (name ++ " takes " ++ Py.str amount ++ " damage from the storm.").

Definition event_lost_cow : M t unit :=
  write "A lost cow returns with a kind moo and licks your wounds." ;;;
  let* base_percent := scaled_percent 0.12 in
  let shield_percent := Py.fmin 0.45 (base_percent * 3) in
  let* p := the_player in
  let* n := lift (Py.round_product (PlayerFarm.max_hp p) shield_percent) in
  let shield := Z.max 1 n in
  update_player (fun p =>
    PlayerFarm.set_irrigation_shield (Z.max (PlayerFarm.irrigation_shield p) shield) p) ;;;
  let* coins := draw (Random.randint 1 3) in
  gain_coins coins ;;;
  write ("The cow's milk forms a gentle shield (" ++ Py.str shield ++ " damage absorbed, ~"
         ++ Py.format_1f (shield_percent * 100) ++ "% of max) and you find "
         ++ Py.str coins ++ " coins in the pasture.").

Definition event_strange_seed : M t unit :=
  write "A strange seed sprouts, making your farm heartier." ;;;
  let inc := 15 in
  update_player (fun p => PlayerFarm.set_max_hp (PlayerFarm.max_hp p + inc) p) ;;;
  update_player (fun p => PlayerFarm.set_health (PlayerFarm.health p + inc) p) ;;;
  let* p := the_player in
  write ("Strange Seed: +" ++ Py.str inc ++ " max HP (now " ++ Py.str (PlayerFarm.max_hp p)
         ++ ") and your health grows along with it.").

Definition event_trap : M t unit :=
  write "A hidden trap snaps at your heels!" ;;;
  let* amount := damage_scaled 0.2 in
  let* name := player_name in
  write (name ++ " takes " ++ Py.str amount ++ " damage and stumbles.").

Definition event_wandering_bard : M t unit :=
  let* coins := draw (Random.randint 3 8) in
  gain_coins coins ;;;
  write ("A wandering bard sings of glory. You gain " ++ Py.str coins
         ++ " coins from compensation.").

Definition event_locust_swarm : M t unit :=
  write "A locust swarm devours your crops farm." ;;;
  let* amount := damage_scaled 0.12 in
  let* name := player_name in
  write (name ++ " loses " ++ Py.str amount ++ " HP to exhaustion.").

Definition event_irrigation_boom : M t unit :=
  write "Fresh irrigation surges through your fields in a rushing tide." ;;;
  let* p := the_player in
  let* percent := scaled_percent 0.1 in
  let* n := lift (Py.round_product (PlayerFarm.max_hp p) percent) in
  let shield := Z.max 1 n in
  update_player (fun p =>
    PlayerFarm.set_irrigation_attack_turns (Z.max (PlayerFarm.irrigation_attack_turns p) 2) p) ;;;
  update_player (fun p =>
    PlayerFarm.set_irrigation_attack_bonus
      (Py.fmax (PlayerFarm.irrigation_attack_bonus p) 0.30) p) ;;;
  update_player (fun p =>
    PlayerFarm.set_irrigation_shield (Z.max (PlayerFarm.irrigation_shield p) shield) p) ;;;
  write "Overflow Surge: next 2 attacks deal +30% damage." ;;;
  write ("A water shield forms for " ++ Py.str shield ++ " damage.").

Definition event_moonlit_harvest : M t unit :=
  let* coins := draw (Random.randint 2 5) in
  gain_coins coins ;;;
  let* scale := event_scale in
  let gold_chance := Py.fmin 0.6 (0.35 * scale) in
  let* x := draw Random.random in
  when (x <? gold_chance)%float
    (update_player (fun p => PlayerFarm.set_gold (PlayerFarm.gold p + 1) p) ;;;
     write "The Moonlight reveals a hidden gold nugget!") ;;;
  write ("You harvest " ++ Py.str coins ++ " coins under the moon.").

Definition event_butterfly_bloom : M t unit :=
  write "Butterflies swirl around your farm, stirring a fierce resolve." ;;;
  let* coins := draw (Random.randint 2 5) in
  gain_coins coins ;;;
  let bonus := 3 in
  update_player (fun p => PlayerFarm.set_attack_power (PlayerFarm.attack_power p + bonus) p) ;;;
  update_player (fun p =>
    PlayerFarm.set_temp_attack_bonus (PlayerFarm.temp_attack_bonus p + bonus) p) ;;;
  write ("You find " ++ Py.str coins ++ " coins and gain +" ++ Py.str bonus
         ++ " attack for this wave.").

Definition event_soggy_furrows : M t unit :=
  write "Soggy furrows slow you down." ;;;
  let* amount := damage_scaled 0.1 in
  write ("You slog through and lose " ++ Py.str amount ++ " HP.").

Definition event_cinder_drift : M t unit :=
  write "Cinder drift coats the crops in ash." ;;;
  let* amount := damage_scaled 0.14 in
  write ("Heat drains " ++ Py.str amount ++ " HP.").

Definition event_charred_fence : M t unit :=
  write "A charred fence collapsesâ€”repair costs mount." ;;;
  let* coins := draw (Random.randint 2 4) in
  update_player (fun p => PlayerFarm.set_coins (Z.max 0 (PlayerFarm.coins p - coins)) p) ;;;
  write ("You spend " ++ Py.str coins ++ " coins on repairs.").

Definition event_gravel_gust : M t unit :=
  write "A gravel gust whips across the ridge." ;;;
  let* amount := damage_scaled 0.1 in
  write ("You take " ++ Py.str amount ++ " damage.").

Definition event_rusted_plow : M t unit :=
  write "You salvage a rusted plow for scrap." ;;;
  let* coins := draw (Random.randint 3 6) in
  gain_coins coins ;;;
  write ("You gain " ++ Py.str coins ++ " coins.").

Definition event_bad_event (event : string) : M t unit :=
  let cleaned := Py.strip event in
  write ("âš ï¸ " ++ cleaned ++ "!") ;;;
  if (cleaned =? "Sudden Hail")%string then
    let* amount := damage_scaled 0.12 in
    write ("Hail pummels your roof. You take " ++ Py.str amount ++ " damage.")
  else if (cleaned =? "Rusty Pitchfork")%string then
    let* amount := damage_scaled 0.1 in
    write ("You nick yourself on a rusty pitchfork. -" ++ Py.str amount ++ " HP.")
  else if (cleaned =? "Thorny Brambles")%string then
    let* amount := damage_scaled 0.08 in
    write ("Brambles scratch you up. -" ++ Py.str amount ++ " HP.")
  else
    let* amount := damage_scaled 0.1 in
    write (cleaned ++ " leaves you battered. -" ++ Py.str amount ++ " HP.").

Definition event_map : list (string * (string -> M t unit)) :=
  [ ("Mysterious Merchant", fun _ => event_mysterious_merchant);
    ("Lightning Storm", fun _ => event_lightning_storm);
    ("Lost Cow Returns", fun _ => event_lost_cow);
    ("Strange Seed Sprouts", fun _ => event_strange_seed);
    ("A Trap", fun _ => event_trap);
    ("Wandering Bard", fun _ => event_wandering_bard);
    ("Locust Swarm", fun _ => event_locust_swarm);
    ("Irrigation Boom", fun _ => event_irrigation_boom);
    ("Moonlit Harvest", fun _ => event_moonlit_harvest);
    ("Butterfly Bloom", fun _ => event_butterfly_bloom);
    ("Soggy Furrows", fun _ => event_soggy_furrows);
    ("Cinder Drift", fun _ => event_cinder_drift);
    ("Charred Fence", fun _ => event_charred_fence);
    ("Gravel Gust", fun _ => event_gravel_gust);
    ("Rusted Plow", fun _ => event_rusted_plow);
    ("Sudden Hail", event_bad_event);
    ("Rusty Pitchfork", event_bad_event);
    ("Thorny Brambles", event_bad_event) ]%string.

Definition apply_event (event : string) : M t unit :=
  match find (fun entry => (fst entry =? event)%string) event_map with
  | Some (_, handler) => handler event
  | None => ret tt
  end.

Definition trigger_random_event : M t unit :=
  assert_player ;;;
  let* g := gets id in
  let events := event_pool g in
  when (bool_decide (size (used_events g) = length events))
    (modify (set_used_events ∅)) ;;;
  let* g := gets id in
  let remaining := filter (fun event => event ∉ used_events g) events in
  let* chosen := draw (Random.choice remaining) in
  modify (fun g => set_used_events ({[chosen]} ∪ used_events g) g) ;;;
  write ("
âœ¨ Random Event: " ++ chosen ++ "!") ;;;
  apply_event chosen ;;;
  let* x := draw Random.random in
  when (x <? 0.18)%float
    (write "
âœ¨ Huh? Another Random Event?!" ;;;
     let* g := gets id in
     let extra_events := filter (fun event => event ≠ chosen) (event_pool g) in
     let extra_events :=
       match extra_events with
       | [] => event_pool g
       | _ => extra_events
       end in
     let* extra := draw (Random.choice extra_events) in
     modify (fun g => set_used_events ({[extra]} ∪ used_events g) g) ;;;
     write ("âœ¨ Random Event: " ++ extra ++ "!") ;;;
     apply_event extra).

(** *** Waves *)

Definition story_arc (wave : Z) : M t unit :=
  assert_player ;;;
  when (wave mod 5 =? 0)
    (write ("
ðŸ“œ STORY ARC [" ++ Py.str wave ++ "]") ;;;
     if wave =? 5 then
       write "A shadow farmer raids your field. Something darker looms..."
     else if wave =? 10 then
       write "A cult called Scorch appears â€” burning farms across the land."
     else if wave =? 15 then
       write "A rogue survivor teaches you a mysterious skill, before the boss came." ;;;
       on_player_io PlayerFarm.add_new_skill
     else if wave =? 20 then
       write "The Emberlord arrives, flames rise around your barn."
     else if wave =? 25 then
       write "You uncover the truth. Will you DEFEND [1] or STRIKE BACK [2]?" ;;;
       let* line := prompt "> " in
       let decision := Py.strip line in
       if (decision =? "1")%string then
         update_player (PlayerFarm.set_defensive_path true) ;;;
         write "You fortify your land. Defense increased!" ;;;
         on_player PlayerFarm.defense_boost
       else
         write "You prepare to counterattack! Attack increased!" ;;;
         on_player PlayerFarm.attack_boost
     else ret tt) ;;;
  (* Trigger random events on every 3rd wave, except at specific story marks *)
  when ((1 <? wave) && (wave mod 3 =? 0))
    (if (wave =? 5) || (wave =? 10) || (wave =? 15) then ret tt
     else trigger_random_event).

Definition AREA_RANGES : list (Z * Z * string * string) :=
  [ (1, 10, "Meadowfront", "Soft grass, warm wind, and a distant scarecrow.");
    (11, 20, "Ashen Fields", "The soil is warm to the touch, embers float in the air.");
    (21, 30, "Ironridge", "Rocky furrows and clanging windmills grind the horizon.");
    (31, 9999, "Endless Verge", "The land stretches forever, hungry for another wave.") ]%string.

Definition enter_area_if_needed : M t unit :=
  let* g := gets id in
  match find (fun '(start, stop, _, _) => (start <=? wave g) && (wave g <=? stop))
             AREA_RANGES with
  | Some (_, _, name, detail) =>
      when (negb (bool_decide (current_area g = Some name)))
        (modify (set_current_area (Some name)) ;;;
         write ("
ðŸ—ºï¸ Area: " ++ name) ;;;
         write detail ;;;
         let* _ := prompt "Press Enter to continue..." in ret tt)
  | None => ret tt
  end.

Definition prompt_endless_mode : M t bool :=
  write "
ðŸ“£ Story complete. Endless Mode is available!" ;;;
  write "Changes ahead:" ;;;
  write "- Enemies scale harder every wave." ;;;
  write "- Shop items upgrade to end-game versions." ;;;
  write "- Random events expand and can chain." ;;;
  write "- Endless foes now siphon a sliver of your max HP each turn." ;;;
  write "Choose to continue or completely stop." ;;;
  let* line := prompt "Enter Endless Mode? (y/n): " in
  let answer := Py.lower (Py.strip (if Py.nonempty line then line else "n")) in
  ret ((answer =? "y") || (answer =? "yes"))%string.

Definition BOSS_ASCII (wave : Z) : option string :=
  if wave =? 5 then Some "  .-^-.
 (o o)
  |=|  Scarecrow
 /___\"%string
  else if wave =? 10 then Some "  /\\
 (ðŸ”¥ )  Scorch
  \//"%string
  else if wave =? 15 then Some "  /\_/\
 ( o.o )  Rusthorn
  > ^ <"%string
  else if wave =? 20 then Some "  .-^^-.
 (ðŸ”¥ðŸ”¥)  Emberlord
  ||||"%string
  else if wave =? 25 then Some "  /\__/\
 ( o_o )  Gravelox
 /  _  \"%string
  else None.

(** [Boss(self.wave) if self.wave % 5 == 0 else Monster(self.wave)], with
    the endless-mode bonus. *)
Definition spawn (g : t) : Enemy.t :=
  let enemy := if wave g mod 5 =? 0 then Enemy.boss (wave g) else Enemy.monster (wave g) in
  if endless_mode g then
    let extra := Z.max 0 (wave g - STORY_END_WAVE) in
    let '(hp, atk) := if Enemy.is_boss enemy then (extra * 30, extra * 6)
                      else (extra * 20, extra * 4) in
    let f := Enemy.farm enemy in
    Enemy.set_farm
      (Farm.mk (Farm.name f) (Farm.max_hp f + hp) (Farm.health f + hp)
               (Farm.attack_power f + atk)) enemy
  else enemy.

(** Konami fragments corrode after 5 rounds *)
Definition corrode_fragments : M t unit :=
  let* p := the_player in
  when (0 <? PlayerFarm.konami_fragments p)
    (update_player (fun p =>
       PlayerFarm.set_konami_fragment_rounds_left
         (PlayerFarm.konami_fragment_rounds_left p - 1) p) ;;;
     let* p := the_player in
     when (PlayerFarm.konami_fragment_rounds_left p <=? 0)
       (update_player (PlayerFarm.set_konami_fragments 0) ;;;
        update_player (PlayerFarm.set_konami_fragment_rounds_left 0) ;;;
        write "Your fragment disappeared.")).

(** ensure temporary buffs from shop only last for this wave *)
Definition strip_temp_bonus : M t unit :=
  let* p := the_player in
  when (0 <? PlayerFarm.temp_attack_bonus p)
    (update_player (fun p =>
       PlayerFarm.set_attack_power
         (Z.max 0 (PlayerFarm.attack_power p - PlayerFarm.temp_attack_bonus p)) p) ;;;
     update_player (PlayerFarm.set_temp_attack_bonus 0)).

Definition play_wave : M t unit :=
  assert_player ;;;
  let* g := gets id in
  let* go_on :=
    if negb (endless_mode g) && (STORY_END_WAVE <? wave g) then
      let* yes := prompt_endless_mode in
      if negb yes then modify (set_stop_requested true) ;;; ret false
      else
        modify (set_endless_mode true) ;;;
        write "
ðŸŒŒ Endless mode begins! Hope that you don't get bored." ;;;
        ret true
    else ret true in
  if negb go_on then ret tt
  else
    enter_area_if_needed ;;;
    let* g := gets id in
    let enemy := spawn g in
    write ("
=== Wave " ++ Py.str (wave g) ++ " ===") ;;;
    story_arc (wave g) ;;;
    when (Enemy.is_boss enemy)
      (match BOSS_ASCII (wave g) with
       | Some art => write_all (Py.splitlines art)
       | None => ret tt
       end) ;;;
    (* shop every 2 waves *)
    when (wave g mod 2 =? 0) open_shop ;;;
    corrode_fragments ;;;
    battle enemy ;;;
    strip_temp_bonus.

(** *** The session *)

(** [input(...)] in [start] reads the console directly, not through
    [self.io], and drops what it reads: it leaves the game as it is. *)
Definition console_input (text : string) : M t unit := ret tt.

Definition intro : M t unit :=
  write "Oh hey, welcome to this Game thing that I made. " ;;;
  console_input "[Press Enter to continue the yapping]" ;;;
  write "This game was actually going to be Dart-based(yes crazy I know)." ;;;
  write "But it ends up being like this, a Python-based text CLI game." ;;;
  console_input "[Press Enter to continue the yapping]" ;;;
  write "But hey, at least you played this version!" ;;;
  console_input "[Press Enter to continue the yapping]" ;;;
  write "Feel free to play this game in your own will, or not." ;;;
  write "If you're an Anti-AI, then just hop off." ;;;
  console_input "[Press Enter to continue the yapping]" ;;;
  write "Or if you don't really care all that shit, it's up to you." ;;;
  console_input "[Press Enter to finish yapping]" ;;;
  write "Have fun. | Creator's Note 1" ;;;
  console_input "[Press Enter to finally finished yapping]".

Definition update_notes : list string :=
  [ "
Update Notes: V0.10 | Alpha";
    "- Added a main menu with Start, Creator's Notes, and Update Notes.";
    "- Preserved the full intro/yapping section cuz y not?";
    "- Expanded random events and made 'another random event'";
    "- Added area transitions and story flavor between waves";
    "- Added Endless Mode, more info when passing Wave 30";
    "- Shop now includes more upgrades with clearer pricing/limits.";
    "- Konami fragments last 5 rounds if unused; activations are unlimited.";
    "- Boss haves names and ASCII art when they appeared!!";
    "- Fixed damage reduction and Temporary Buff";
    "- Rebalance Endless mode scaling on further waves";
    "- Endless enemies now gets rid of ur HP based on your max HP.";
    "- Lost Cow now shows the shield amount scaled by 3Ã— max HP, y not?";
    "- Strange Seed and Konami activations now spit out the buff numbers." ]%string.

(** [choice in {...}] *)
Definition one_of (choice : string) (options : list string) : bool :=
  existsb (String.eqb choice) options.

(** One pass through the main menu; [false] is the [break]. *)
Definition menu_visit : M t bool :=
  write "
=== Main Menu ===" ;;;
  write "1) Start" ;;;
  write "2) Creator's notes" ;;;
  write "3) Update notes" ;;;
  let* line := prompt "Choose an option: " in
  let choice := Py.lower (Py.strip line) in
  if one_of choice ["1"; "start"; "s"]%string then ret false
  else if one_of choice ["2"; "creator"; "creator's notes"; "notes"; "c"]%string then
    write "
Creator's Notes:" ;;;
    intro ;;; ret true
  else if one_of choice ["3"; "update"; "updates"; "u"]%string then
    write_all update_notes ;;;
    console_input "[Press Enter to go back.]" ;;; ret true
  else
    console_input "Just pick anything bro dont mess this one upðŸ¥€" ;;; ret true.

Fixpoint menu_loop (fuel : nat) : M t unit :=
  match fuel with
  | O => raise OutOfFuel
  | S fuel' =>
      let* again := menu_visit in
      if again then menu_loop fuel' else ret tt
  end.

(** The [while] loop of [start]: waves until death or retirement. *)
Fixpoint wave_loop (fuel : nat) : M t unit :=
  let* g := gets id in
  let* p := the_player in
  if PlayerFarm.is_alive p && negb (stop_requested g) then
    match fuel with
    | O => raise OutOfFuel
    | S fuel' =>
        play_wave ;;;
        let* g := gets id in
        let* p := the_player in
        if stop_requested g then ret tt
        else if negb (PlayerFarm.is_alive p) then ret tt
        else
          on_player PlayerFarm.wave_clear_upgrade ;;;
          modify (fun g => set_wave (wave g + 1) g) ;;;
          wave_loop fuel'
    end
  else ret tt.

(** [start()].  [entropy] is the state in which the player's own
    generator comes into being.  Every visit of the menu reads a line of
    the script, and so does every wave that the session goes on after, so
    the loops have fuel for the whole script
    ([FuelFacts.start_never_out_of_fuel]). *)
Definition start (entropy : R) : M t unit :=
  intro ;;;
  let* g := gets id in
  let fuel := S (length (IO.script (io g))) in
  menu_loop fuel ;;;
  write "You might want to extend your terminal a bit if you're playing with one." ;;;
  let* line := prompt "Enter your Farm name: " in
  let name := if Py.nonempty line then line else "Farm"%string in
  modify (set_player (Some (PlayerFarm.init name entropy))) ;;;
  (* give the player a starting coin so shop is useful *)
  update_player (PlayerFarm.set_coins 2) ;;;
  let* finished :=
    except_interrupt
      (wave_loop fuel ;;; ret true)
      (write "
ðŸ‘‹ Thanks for playing! Try again if you want." ;;; ret false) in
  if negb finished then ret tt
  else
    let* g := gets id in
    let* p := the_player in
    if stop_requested g && PlayerFarm.is_alive p then
      write ("
ðŸŒ¾ " ++ PlayerFarm.name p ++ " retires after wave " ++ Py.str (wave g)
             ++ ". Thanks for playing!")
    else
      write ("
ðŸ’€ " ++ PlayerFarm.name p ++ " has fallen at wave " ++ Py.str (wave g) ++ ".") ;;;
      write "ðŸŒ¾ Thanks for playing!".
End WithGenerator.
Arguments t R : clear implicits.
End Game.

(** * Vocabulary of the properties *)

Module Props.

(** A double that is not below zero: a zero of either sign, a positive
    number, plus infinity, or not a number. *)
Definition not_negative (x : spec_float) : Prop :=
  match x with
  | S754_zero _ | S754_nan => True
  | S754_infinity s | S754_finite s _ _ => s = false
  end.

(** The invariant of a combatant: [0 <= health <= max_hp]. *)
Definition hp_in_range (f : Farm.t) : Prop :=
  0 <= Farm.health f <= Farm.max_hp f.

Definition sample_farm : Farm.t := Farm.mk "Farm" 150 140 25.

Definition sample_player : PlayerFarm.t Tape.t :=
  PlayerFarm.set_irrigation_shield 20 (PlayerFarm.init "Farm" []).

(** Push the tokens one after the other, as a caller that catches
    [KonamiHint] and goes on does; the outcomes in order. *)
Fixpoint push_all {R : Type} `{RandomGen R} (tokens : list string) (s : KonamiManager.t * R)
  : list (result bool) * (KonamiManager.t * R) :=
  match tokens with
  | [] => ([], s)
  | value :: rest =>
      let (outcome, s') := KonamiManager.push value s in
      let (outcomes, s'') := push_all rest s' in
      (outcome :: outcomes, s'')
  end.


(** The tracker and its generator after [n] more submissions of the whole
    sequence. *)
Definition resubmitted {R : Type} `{RandomGen R} (n : nat) (s : KonamiManager.t * R)
  : KonamiManager.t * R :=
  Nat.iter n (fun s => snd (push_all KONAMI_SEQUENCE s)) s.


(** [m] keeps [I]: from a state in [I], whether it returns or raises, [m]
    leaves a state in [I]. *)
Definition keeps {S A : Type} (I : S -> Prop) (m : M S A) : Prop :=
  forall s, I s -> I (snd (m s)).

(** The stacks the player holds of the passive [name]. *)
Definition stacks_of {R : Type} (name : string) (p : PlayerFarm.t R) : Z :=
  match PlayerFarm.passives p !! name with
  | Some (stacks, _) => stacks
  | None => 0
  end.

(** No passive of the player is stacked more than three times. *)
Definition stacks_capped {R : Type} (g : Game.t R) : Prop :=
  forall p name stacks stackable,
    Game.player g = Some p ->
    PlayerFarm.passives p !! name = Some (stacks, stackable) ->
    stacks <= 3.

(** Readings of the player of a game, 0 when there is none yet. *)
Definition player_attack {R : Type} (g : Game.t R) : Z :=
  match Game.player g with Some p => PlayerFarm.attack_power p | None => 0 end.

Definition fury_stacks {R : Type} (g : Game.t R) : Z :=
  match Game.player g with Some p => stacks_of "Ember's Fury" p | None => 0 end.

(** The game after the passive offers of the bosses killed, in order. *)
Definition after_boss_kills {R : Type} `{RandomGen R} (bosses : list Enemy.t) (g : Game.t R)
  : Game.t R :=
  fold_left (fun g boss => snd (Game.offer_boss_passive boss g)) bosses g.

(** The fragments held and the rounds they have left. *)
Definition fragments {R : Type} (g : Game.t R) : option (Z * Z) :=
  match Game.player g with
  | Some p => Some (PlayerFarm.konami_fragments p, PlayerFarm.konami_fragment_rounds_left p)
  | None => None
  end.


(** A game in which the player [p] has been created. *)
Definition game_with {R : Type} `{RandomGen R} (p : PlayerFarm.t R) (script : list string)
    (rng : R) : Game.t R :=
  Game.set_player (Some p) (Game.init (IO.mk [] script) rng).

(** "The attack power is [v]", of a farm, of an enemy, and of the enemy in
    the states that an attack, a skill and a battle run on. *)
Definition farm_attack_is (v : Z) (f : Farm.t) : Prop := Farm.attack_power f = v.
Definition foe_attack_is (v : Z) (e : Enemy.t) : Prop := farm_attack_is v (Enemy.farm e).
Definition pair_attack_is {P : Type} (v : Z) (s : P * Enemy.t) : Prop :=
  foe_attack_is v (snd s).
Definition target_attack_is {P : Type} (v : Z) (s : P * Enemy.t * IO.t) : Prop :=
  foe_attack_is v (snd (fst s)).
Definition other_attack_is {P G : Type} (v : Z) (s : P * Farm.t * G) : Prop :=
  farm_attack_is v (snd (fst s)).

(** The attack power of the enemy of a battle. *)
Definition enemy_attack {R : Type} (s : Game.t R * Enemy.t) : Z :=
  Farm.attack_power (Enemy.farm (snd s)).

(** The game and the enemy after [n] passes through the loop of [_battle]. *)
Definition after_turns {R : Type} `{RandomGen R} (n : nat) (s : Game.t R * Enemy.t)
  : Game.t R * Enemy.t :=
  Nat.iter n (fun s => snd (Game.battle_turn s)) s.

(** A scripted session: start, name the farm, win waves 1 and 2 by
    attacking (leaving the shop at once), meet the random event of wave 3,
    then stand idle until the monster of wave 3 wins. *)
Definition session_script : list string :=
  (["1"; "Farm"; ""] ++ repeat "1" 5 ++ ["6"] ++ repeat "1" 5 ++ repeat "x" 10)%list%string.

(** The seed of the session: what the generator of the [Game] draws. *)
Definition session_seed : Tape.t := (repeat (2 ^ 52) 18 ++ [0; 2 ^ 52])%list.

(** The session run to its end; [entropy] is what [random.Random()] in
    [PlayerFarm.__init__] happens to start from. *)
Definition session (entropy : Tape.t) : result unit * Game.t Tape.t :=
  Game.start entropy (Game.init (IO.mk [] session_script) session_seed).

(** The lines the session wrote. *)
Definition session_output (entropy : Tape.t) : list string :=
  IO.written (Game.io (snd (session entropy))).

(** What the loops of the model count down, for the states that hold the
    IO layer: the lines left in the script.  [wave_of] is the wave counter
    where the state has one, 0 elsewhere. *)
Class Gauge (S : Type) : Type := {
  script_left : S -> nat;
  wave_of : S -> Z
}.

#[global] Instance io_gauge : Gauge IO.t := {
  script_left io := length (IO.script io);
  wave_of _ := 0
}.

#[global] Instance game_gauge {R : Type} : Gauge (Game.t R) := {
  script_left g := length (IO.script (Game.io g));
  wave_of g := Game.wave g
}.

(** The game with the enemy of a battle. *)
#[global] Instance battle_gauge {R : Type} : Gauge (Game.t R * Enemy.t) := {
  script_left s := script_left (fst s);
  wave_of s := wave_of (fst s)
}.

(** The player, alone or with a target, with the IO layer. *)
#[global] Instance with_io_gauge {P : Type} : Gauge (P * IO.t) := {
  script_left s := script_left (snd s);
  wave_of _ := 0
}.

(** [s'] comes no later than [s] in the session: the same wave, and no
    more of the script left; less of it when [strict]. *)
Definition no_later {S : Type} `{Gauge S} (strict : bool) (s' s : S) : Prop :=
  wave_of s' = wave_of s /\
  if strict then (script_left s' < script_left s)%nat
  else (script_left s' <= script_left s)%nat.

(** A result that is not the model running out of fuel. *)
Definition sober {A : Type} (r : result A) : Prop :=
  match r with
  | Ok _ => True
  | Raise e => e <> OutOfFuel
  end.

(** [m] never runs out of fuel. *)
Definition calm {S A : Type} (m : M S A) : Prop :=
  forall s, sober (fst (m s)).

(** [m] never runs out of fuel, and when it returns it has stayed in its
    wave and put no line back into the script; it has read one when
    [strict]. *)
Definition settled {S A : Type} `{Gauge S} (strict : bool) (m : M S A) : Prop :=
  forall s,
    match m s with
    | (Ok _, s') => no_later strict s' s
    | (Raise e, _) => e <> OutOfFuel
    end.

(** The player of the game cannot go on: fallen, or not there. *)
Definition player_down {R : Type} (g : Game.t R) : Prop :=
  match Game.player g with
  | Some p => PlayerFarm.is_alive p = false
  | None => True
  end.

(** From a wave that is at least the first, [m] never runs out of fuel,
    and when it returns the game is no later than before and one of three
    things has happened: a line was read, the player asked to stop, or the
    player is down. *)
Definition advances {R A : Type} (m : M (Game.t R) A) : Prop :=
  forall g, 1 <= Game.wave g ->
    match m g with
    | (Ok _, g') =>
        no_later false g' g /\
        ((script_left g' < script_left g)%nat \/
         Game.stop_requested g' = true \/ player_down g')
    | (Raise e, _) => e <> OutOfFuel
    end.

(** When [m] returns [False] it has asked the session to stop. *)
Definition stops_when_false {R : Type} (m : M (Game.t R) bool) : Prop :=
  forall g,
    match m g with
    | (Ok false, g') => Game.stop_requested g' = true
    | _ => True
    end.

(** The cooldown the player of the game has on the skill [name], if any. *)
Definition cooldown_of {R : Type} (name : string) (g : Game.t R) : option Z :=
  match Game.player g with
  | Some p => PlayerFarm.skill_cooldowns p !! name
  | None => None
  end.

(** The game after the cooldown ticks of [k] turns. *)
Definition ticked {R : Type} `{RandomGen R} (k : nat) (g : Game.t R) : Game.t R :=
  Nat.iter k (fun g => snd (Game.tick_cooldowns g)) g.

(** The skill "Fortify Fence", as [_all_skills] builds it. *)
Definition fortify_fence : Skill.t :=
  Skill.mk "Fortify Fence" "Permanently increase max HP by 25." (Skill.increase_max_hp 25) 9999.

(** The status line at the head of a battle turn. *)
Definition status_line {R : Type} (p : PlayerFarm.t R) (enemy : Enemy.t) : string :=
  ("
" ++ PlayerFarm.name p ++ ": " ++ Farm.display_hp (PlayerFarm.farm p) ++ " | "
   ++ Game.enemy_name enemy ++ ": " ++ Farm.display_hp (Enemy.farm enemy)
   ++ " | Coins: " ++ Py.str (PlayerFarm.coins p))%string.

End Props.

(** * Vocabulary of the player's books *)

Module Ledger.

(** What is asked of the coins, the gold, the fragments, the temporary
    attack bonus and the count of activations of a player, in this
    order. *)
Definition reading : Type := Z -> Z -> Z -> Z -> Z -> Prop.

(** The player meets [P], and the shield and the tonic turns are not
    negative. *)
Definition ledger {R : Type} (P : reading) (p : PlayerFarm.t R) : Prop :=
  P (PlayerFarm.coins p) (PlayerFarm.gold p) (PlayerFarm.konami_fragments p)
    (PlayerFarm.temp_attack_bonus p) (PlayerFarm.konami_purchase_count p) /\
  0 <= PlayerFarm.irrigation_shield p /\
  0 <= PlayerFarm.tonic_turns p.

(** The same of the player of a game; [absent] stands for a game that
    has no player. *)
Definition ledger_ok {R : Type} (P : reading) (absent : Prop) (g : Game.t R) : Prop :=
  match Game.player g with
  | Some p => ledger P p
  | None => absent
  end.

(** The same in the states that a battle, a skill, an attack and
    [add_new_skill] run on; the enemy is of the kind [k]. *)
Definition in_battle {R : Type} (P : reading) (absent : Prop) (k : Enemy.kind)
    (s : Game.t R * Enemy.t) : Prop :=
  ledger_ok P absent (fst s) /\ Enemy.kind_of (snd s) = k.
Definition in_skill {R : Type} (P : reading) (k : Enemy.kind)
    (s : PlayerFarm.t R * Enemy.t * IO.t) : Prop :=
  ledger P (fst (fst s)) /\ Enemy.kind_of (snd (fst s)) = k.
Definition in_attack {R : Type} (P : reading) (s : PlayerFarm.t R * Farm.t * R) : Prop :=
  ledger P (fst (fst s)).
Definition in_lesson {R : Type} (P : reading) (s : PlayerFarm.t R * IO.t) : Prop :=
  ledger P (fst s).

(** Sound counts: nothing is owed in coins or gold, the fragments held
    are between none and three, and the temporary attack bonus and the
    count of activations are not negative. *)
Definition sound_counts : reading :=
  fun coins gold fragments bonus count =>
    0 <= coins /\ 0 <= gold /\ 0 <= fragments <= 3 /\ 0 <= bonus /\ 0 <= count.

(** The books of a player are sound: the counts are, and the shield and
    the tonic turns are not negative. *)
Definition books_sound {R : Type} : PlayerFarm.t R -> Prop := ledger sound_counts.

(** The same of the player of a game, when there is one. *)
Definition books_ok {R : Type} : Game.t R -> Prop := ledger_ok sound_counts True.

(** The purse is as in [p], but for [extra] coins more; the temporary
    attack bonus and the count of activations are as in [p]. *)
Definition purse_of {R : Type} (p : PlayerFarm.t R) (extra : Z) : reading :=
  fun coins gold fragments bonus count =>
    coins = PlayerFarm.coins p + extra /\ gold = PlayerFarm.gold p /\
    bonus = PlayerFarm.temp_attack_bonus p /\ count = PlayerFarm.konami_purchase_count p.

(** The coins that [_battle] awards for an enemy of the kind [k]. *)
Definition reward (k : Enemy.kind) : Z :=
  match k with
  | Enemy.Monster => 6
  | Enemy.Boss => 15
  end.

(** From a state in [I], [m] ends in an outcome, result and state, that
    meets [Post]. *)
Definition yields {S A : Type} (I : S -> Prop) (Post : result A * S -> Prop) (m : M S A)
  : Prop :=
  forall s, I s -> Post (m s).

(** How a turn of a battle against an enemy of the kind [k] leaves the
    purse of [p]: as it was, with the enemy alive when the turn has
    returned; or with the reward paid and the enemy down. *)
Definition turn_paid {R : Type} (p : PlayerFarm.t R) (k : Enemy.kind)
    (out : result unit * (Game.t R * Enemy.t)) : Prop :=
  (in_battle (purse_of p 0) False k (snd out) /\
   (fst out = Ok tt -> Enemy.is_alive (snd (snd out)) = true)) \/
  (in_battle (purse_of p (reward k)) False k (snd out) /\
   Enemy.is_alive (snd (snd out)) = false).

(** How a battle leaves it: the reward is paid or it is not, and it is
    paid when the battle has returned with the player alive. *)
Definition battle_paid {R : Type} (p : PlayerFarm.t R) (k : Enemy.kind)
    (out : result unit * (Game.t R * Enemy.t)) : Prop :=
  (in_battle (purse_of p 0) False k (snd out) \/
   in_battle (purse_of p (reward k)) False k (snd out)) /\
  (fst out = Ok tt ->
   (exists p', Game.player (fst (snd out)) = Some p' /\ PlayerFarm.is_alive p' = true) ->
   in_battle (purse_of p (reward k)) False k (snd out)).

(** The names of the skills a player owns. *)
Definition skill_names {R : Type} (p : PlayerFarm.t R) : list string :=
  map Skill.name (PlayerFarm.skills p).

(** The player as [add_new_skill] leaves everything but the skills and
    the generator. *)
Definition same_but_skills {R : Type} (p p' : PlayerFarm.t R) : Prop :=
  PlayerFarm.set_rng (PlayerFarm.rng p) (PlayerFarm.set_skills (PlayerFarm.skills p) p') = p.


(** The wave has a random event in [_story_arc]: a third wave past the
    first that is not wave 15. *)
Definition event_wave (wave : Z) : bool :=
  (1 <? wave) && (wave mod 3 =? 0) && negb (wave =? 15).

(** The game has drawn no event: the events used and the generator are
    [used] and [rng]. *)
Definition undrawn {R : Type} (used : gset string) (rng : R) (g : Game.t R) : Prop :=
  Game.used_events g = used /\ Game.rng g = rng.

End Ledger.

(** * Properties *)

(** ** Signs of the float operations *)

Module FloatFacts.

Import Props.

Lemma round_aux_sign (m e : Z) (l : location) :
  not_negative (binary_round_aux prec emax false m e l).
Proof.
  unfold binary_round_aux.
  destruct (shr_fexp prec emax m e l) as [mrs' e'].
  destruct (shr_fexp prec emax _ e' loc_Exact) as [mrs'' e''].
  destruct (shr_m mrs''); cbn; trivial.
  destruct (e'' <=? emax - prec); cbn; trivial.
Qed.

Lemma binary_round_sign (m : positive) (e : Z) :
  not_negative (binary_round prec emax false m e).
Proof.
  unfold binary_round.
  destruct (shl_align m e _) as [mz ez].
  apply round_aux_sign.
Qed.

Lemma normalize_sign (n e : Z) :
  0 <= n -> not_negative (binary_normalize prec emax n e false).
Proof.
  intros Hn. destruct n as [|p|p]; cbn; trivial.
  - apply binary_round_sign.
  - lia.
Qed.

Lemma ldexp_sign (x : spec_float) (e : Z) :
  not_negative x -> not_negative (SFldexp prec emax x e).
Proof.
  destruct x as [s|s| |s m e0]; cbn; trivial.
  intros ->. apply binary_round_sign.
Qed.

Lemma SF2Prim_sign (x : spec_float) :
  not_negative x -> not_negative (Prim2SF (SF2Prim x)).
Proof.
  destruct x as [s|s| |s m e]; cbn -[Prim2SF Z.ldexp of_uint63].
  - destruct s; intros _; vm_compute; trivial.
  - intros ->. vm_compute. trivial.
  - intros _. vm_compute. trivial.
  - intros ->.
    rewrite Z_ldexp_spec, of_uint63_spec.
    apply ldexp_sign, normalize_sign.
    apply Uint63.to_Z_bounded.
Qed.

Lemma mul_sign (x y : spec_float) :
  not_negative x -> not_negative y -> not_negative (SF64mul x y).
Proof.
  unfold SF64mul, SFmul.
  destruct x as [sx|sx| |sx mx ex], y as [sy|sy| |sy my ey]; cbn; trivial;
    try (intros -> ->; reflexivity); try (intros _ ->; reflexivity);
    try (intros -> _; reflexivity).
  intros -> ->. apply round_aux_sign.
Qed.

Lemma leb_zero_sign (x : float) :
  (0 <=? x)%float = true -> not_negative (Prim2SF x).
Proof.
  rewrite leb_spec.
  change (Prim2SF 0) with (S754_zero false).
  unfold SFleb, SFcompare.
  destruct (Prim2SF x) as [s|s| |s m e]; cbn; trivial; destruct s; cbn; congruence.
Qed.

Lemma nearest_even_nonneg (m : positive) (e : Z) : 0 <= Py.nearest_even m e.
Proof.
  unfold Py.nearest_even.
  destruct (0 <=? e) eqn:He.
  - apply Z.leb_le in He.
    apply Z.mul_nonneg_nonneg; [lia | apply Z.pow_nonneg; lia].
  - apply Z.leb_gt in He.
    assert (Hd : 0 < 2 ^ (- e)) by (apply Z.pow_pos_nonneg; lia).
    assert (Hq : 0 <= Z.pos m / 2 ^ (- e)) by (apply Z.div_pos; lia).
    cbv zeta.
    destruct (2 * (Z.pos m mod 2 ^ (- e)) ?= 2 ^ (- e)); try lia.
    destruct (Z.even _); lia.
Qed.

Lemma round_sign (x : float) (a : Z) :
  not_negative (Prim2SF x) -> Py.round x = Ok a -> 0 <= a.
Proof.
  unfold Py.round.
  destruct (Prim2SF x) as [s|s| |s m e]; cbn; try congruence.
  - intros _ [= <-]. lia.
  - intros -> [= <-]. apply nearest_even_nonneg.
Qed.

Lemma float_of_int_sign (n : Z) (f : float) :
  0 <= n -> Py.float_of_int n = Ok f -> not_negative (Prim2SF f).
Proof.
  unfold Py.float_of_int. intros Hn.
  pose proof (normalize_sign n 0 Hn) as Hs.
  destruct (binary_normalize prec emax n 0 false) eqn:E; intros Hf;
    try discriminate Hf; injection Hf as <-; exact (SF2Prim_sign _ Hs).
Qed.

(** [round(n * x)] is not negative when neither [n] nor [x] is. *)
Lemma round_product_nonneg (n : Z) (x : float) (a : Z) :
  0 <= n -> (0 <=? x)%float = true -> Py.round_product n x = Ok a -> 0 <= a.
Proof.
  intros Hn Hx. unfold Py.round_product, Py.int_mul_float.
  destruct (Py.float_of_int n) as [f|] eqn:Ef; [|congruence].
  apply round_sign. rewrite mul_spec.
  apply mul_sign; [eapply float_of_int_sign; eassumption | apply leb_zero_sign, Hx].
Qed.

End FloatFacts.

(** ** Hit points *)

Module FarmFacts.

Import Props.

Lemma take_damage_returns (n : Z) (f : Farm.t) :
  Farm.take_damage n f = (Ok n, Farm.set_health (Z.max 0 (Farm.health f - n)) f).
Proof. reflexivity. Qed.

Lemma heal_flat_returns (n : Z) (f : Farm.t) :
  Farm.heal_flat n f =
  (Ok n, Farm.set_health (Z.min (Farm.max_hp f) (Farm.health f + n)) f).
Proof. reflexivity. Qed.

(** What [heal_percent] and [damage_percent] do once [round(max_hp *
    percent)] is known; when that raises, the farm is left alone. *)
Lemma heal_percent_cases (x : float) (f : Farm.t) :
  match Py.round_product (Farm.max_hp f) x with
  | Ok a =>
      Farm.heal_percent x f =
      (Ok a, Farm.set_health (Z.min (Farm.max_hp f) (Farm.health f + a)) f)
  | Raise e => Farm.heal_percent x f = (Raise e, f)
  end.
Proof.
  unfold Farm.heal_percent, Farm.percent_amount, bind, gets, lift, modify, ret.
  destruct (Py.round_product (Farm.max_hp f) x); reflexivity.
Qed.

Lemma damage_percent_cases (x : float) (f : Farm.t) :
  match Py.round_product (Farm.max_hp f) x with
  | Ok a =>
      Farm.damage_percent x f =
      (Ok a, Farm.set_health (Z.max 0 (Farm.health f - a)) f)
  | Raise e => Farm.damage_percent x f = (Raise e, f)
  end.
Proof.
  unfold Farm.damage_percent, Farm.percent_amount, bind, gets, lift, modify, ret.
  destruct (Py.round_product (Farm.max_hp f) x); reflexivity.
Qed.

(** The player's [take_damage], with the shield written out. *)
Lemma player_take_damage_cases {R : Type} (d : Z) (p : PlayerFarm.t R) :
  let absorbed :=
    if (0 <? PlayerFarm.irrigation_shield p) && (0 <? d)
    then Z.min d (PlayerFarm.irrigation_shield p) else 0 in
  PlayerFarm.take_damage d p =
  (Ok (d - absorbed),
   PlayerFarm.set_health (Z.max 0 (PlayerFarm.health p - (d - absorbed)))
     (if (0 <? PlayerFarm.irrigation_shield p) && (0 <? d)
      then PlayerFarm.set_irrigation_shield (PlayerFarm.irrigation_shield p - absorbed) p
      else p)).
Proof.
  unfold PlayerFarm.take_damage, bind, gets, id.
  destruct ((0 <? PlayerFarm.irrigation_shield p) && (0 <? d)); cbn.
  - reflexivity.
  - rewrite Z.sub_0_r. reflexivity.
Qed.

(** C3.  A combatant whose hit points are within [0, max_hp] keeps them
    there through [take_damage], [heal_flat], [heal_percent] and
    [damage_percent] called with an argument that is not negative; so does
    the player through its own [take_damage], shield or not. *)
Theorem hp_stays_in_range {R : Type}
    (f : Farm.t) (p : PlayerFarm.t R) (n : Z) (percent : float) :
  hp_in_range f ->
  hp_in_range (PlayerFarm.farm p) ->
  0 <= n ->
  (0 <=? percent)%float = true ->
  hp_in_range (snd (Farm.take_damage n f)) /\
  hp_in_range (snd (Farm.heal_flat n f)) /\
  hp_in_range (snd (Farm.heal_percent percent f)) /\
  hp_in_range (snd (Farm.damage_percent percent f)) /\
  hp_in_range (PlayerFarm.farm (snd (PlayerFarm.take_damage n p))).
Proof.
  unfold hp_in_range. intros Hf Hp Hn Hx.
  rewrite take_damage_returns, heal_flat_returns, player_take_damage_cases.
  pose proof (heal_percent_cases percent f) as Hh.
  pose proof (damage_percent_cases percent f) as Hd.
  destruct (Py.round_product (Farm.max_hp f) percent) as [a|e] eqn:Ea.
  - assert (0 <= a)
      by (eapply FloatFacts.round_product_nonneg; [| exact Hx | exact Ea]; lia).
    rewrite Hh, Hd. unfold PlayerFarm.health, PlayerFarm.set_health.
    destruct ((0 <? PlayerFarm.irrigation_shield p) && (0 <? n)); cbn; lia.
  - rewrite Hh, Hd. unfold PlayerFarm.health, PlayerFarm.set_health.
    destruct ((0 <? PlayerFarm.irrigation_shield p) && (0 <? n)); cbn; lia.
Qed.

Lemma hp_stays_in_range_witness :
  hp_in_range (snd (Farm.take_damage 30 sample_farm)) /\
  hp_in_range (snd (Farm.heal_flat 30 sample_farm)) /\
  hp_in_range (snd (Farm.heal_percent 0.12 sample_farm)) /\
  hp_in_range (snd (Farm.damage_percent 0.12 sample_farm)) /\
  hp_in_range (PlayerFarm.farm (snd (PlayerFarm.take_damage 30 sample_player))).
Proof.
  apply (hp_stays_in_range sample_farm sample_player 30 0.12).
  - unfold hp_in_range; cbn; lia.
  - unfold hp_in_range; cbn; lia.
  - lia.
  - reflexivity.
Defined.

(** C4.  With a shield [S > 0] and damage [D >= 0], [take_damage(D)]
    leaves the shield at [max(0, S - D)] and takes [min(health, max(0, D -
    S))] from the hit points: the shield is spent first. *)
Theorem shield_absorbs_first {R : Type} (p : PlayerFarm.t R) (D : Z) :
  0 < PlayerFarm.irrigation_shield p ->
  0 <= D ->
  let S := PlayerFarm.irrigation_shield p in
  let p' := snd (PlayerFarm.take_damage D p) in
  PlayerFarm.irrigation_shield p' = Z.max 0 (S - D) /\
  PlayerFarm.health p - PlayerFarm.health p' =
    Z.min (PlayerFarm.health p) (Z.max 0 (D - S)).
Proof.
  intros HS HD. cbv zeta.
  rewrite player_take_damage_cases.
  unfold PlayerFarm.health, PlayerFarm.set_health.
  destruct (0 <? PlayerFarm.irrigation_shield p) eqn:E1; [|apply Z.ltb_ge in E1; lia].
  destruct (0 <? D) eqn:E2; cbn.
  - apply Z.ltb_lt in E2. lia.
  - apply Z.ltb_ge in E2. lia.
Qed.

Lemma shield_absorbs_first_witness :
  PlayerFarm.irrigation_shield (snd (PlayerFarm.take_damage 30 sample_player)) = 0 /\
  PlayerFarm.health sample_player -
    PlayerFarm.health (snd (PlayerFarm.take_damage 30 sample_player)) = 10.
Proof.
  apply (shield_absorbs_first sample_player 30); cbn; lia.
Defined.

End FarmFacts.

(** ** The streaming tracker *)

(** Unfold the monad's operations where they are applied to a state. *)
Ltac unfold_monad :=
  unfold when, on_fst, on_snd, zoom, bind, ret, gets, modify, lift, raise, id in *;
  cbn [fst snd] in *.

(** Case analysis on a scrutinee that has no [match] inside it. *)
Ltac case_inner :=
  match goal with
  | |- context [match ?x with _ => _ end] =>
      lazymatch x with
      | context [match _ with _ => _ end] => fail
      | _ => destruct x eqn:?
      end
  end.

Module KonamiFacts.
Import Props.

Section WithGenerator.
Context {R : Type} `{RandomGen R}.

Lemma remember_returns (v : string) (k : KonamiManager.t) :
  KonamiManager.remember v k = (Ok tt, snd (KonamiManager.remember v k)).
Proof. reflexivity. Qed.













End WithGenerator.



End KonamiFacts.

(** ** The game *)

(** Run the monad, the IO layer and the record updates of a computation
    applied to a state, and nothing else: arithmetic, strings and maps stay
    as they are written. *)
Ltac run_game :=
  cbv beta iota zeta delta
    [ when on_fst on_snd zoom bind ret gets modify lift raise id fst snd
      IO.write IO.prompt IO.written IO.script
      Game.write Game.prompt Game.assert_player Game.the_player Game.on_player
      Game.on_player_io Game.on_game Game.on_enemy Game.update_player Game.draw
      Game.write_purse Game.gold_tip Game.gain_coins Game.player_name
      Game.io Game.rng Game.wave Game.konami_manager Game.used_events Game.player
      Game.turn_count Game.endless_mode Game.current_area Game.stop_requested
      Game.set_io Game.set_rng Game.set_wave Game.set_konami_manager Game.set_used_events
      Game.set_player Game.set_turn_count Game.set_endless_mode Game.set_current_area
      Game.set_stop_requested
      PlayerFarm.farm PlayerFarm.skills PlayerFarm.coins PlayerFarm.gold PlayerFarm.rng
      PlayerFarm.tonic_turns PlayerFarm.tonic_reduction PlayerFarm.skill_cooldowns
      PlayerFarm.passives PlayerFarm.konami_fragments PlayerFarm.konami_fragment_rounds_left
      PlayerFarm.konami_purchase_count PlayerFarm.gold_tip_shown
      PlayerFarm.merchant_skill_given PlayerFarm.temp_attack_bonus
      PlayerFarm.irrigation_attack_turns PlayerFarm.irrigation_attack_bonus
      PlayerFarm.irrigation_shield PlayerFarm.defensive_path
      PlayerFarm.set_farm PlayerFarm.set_skills PlayerFarm.set_coins PlayerFarm.set_gold
      PlayerFarm.set_rng PlayerFarm.set_tonic_turns PlayerFarm.set_tonic_reduction
      PlayerFarm.set_skill_cooldowns PlayerFarm.set_passives PlayerFarm.set_konami_fragments
      PlayerFarm.set_konami_fragment_rounds_left PlayerFarm.set_konami_purchase_count
      PlayerFarm.set_gold_tip_shown PlayerFarm.set_merchant_skill_given
      PlayerFarm.set_temp_attack_bonus PlayerFarm.set_irrigation_attack_turns
      PlayerFarm.set_irrigation_attack_bonus PlayerFarm.set_irrigation_shield
      PlayerFarm.set_defensive_path
      PlayerFarm.on_farm PlayerFarm.name PlayerFarm.max_hp PlayerFarm.health
      PlayerFarm.attack_power PlayerFarm.is_alive PlayerFarm.set_max_hp
      PlayerFarm.set_health PlayerFarm.set_attack_power PlayerFarm.take_damage
      Farm.name Farm.max_hp Farm.health Farm.attack_power
      Farm.set_name Farm.set_max_hp Farm.set_health Farm.set_attack_power
      Farm.take_damage Farm.heal_flat Farm.is_alive
      Enemy.farm Enemy.kind_of Enemy.passive_reward Enemy.stunned Enemy.attack_debuff
      Enemy.last_gimmick_turn Enemy.set_farm Enemy.set_stunned Enemy.set_attack_debuff
      Enemy.set_last_gimmick_turn Enemy.on_farm Enemy.is_boss Enemy.is_alive
      Game.enemy_name ] in *.

(** Decide the tests of the goal that are closed terms. *)
Ltac decide_tests :=
  repeat match goal with
         | |- context [if ?b then _ else _] =>
             let v := eval vm_compute in b in
             lazymatch v with
             | true => change b with true
             | false => change b with false
             end;
             cbv beta iota
         end.

Module GameFacts.
Import Props.

Section WithGenerator.
Context {R : Type} `{RandomGen R}.

(** What a passive offer does to a player who holds [s0] stacks: nothing
    at three stacks; below, one or two stacks more, never past three, and
    five attack for each stack of Ember's Fury. *)
Lemma offer_summary (boss : Enemy.t) (g : Game.t R) (p : PlayerFarm.t R)
    (name desc : string) (stackable : bool) :
  Game.player g = Some p ->
  Enemy.passive_reward boss = Some (name, desc, stackable) ->
  let s0 := fst (default (0, stackable) (PlayerFarm.passives p !! name)) in
  if 3 <=? s0 then Game.offer_boss_passive boss g = (Ok tt, g)
  else
    exists (s : Z) (p' : PlayerFarm.t R),
      Game.player (snd (Game.offer_boss_passive boss g)) = Some p' /\
      (s = s0 + 1 \/ s = s0 + 2) /\ s <= 3 /\
      PlayerFarm.passives p' = <[name := (s, stackable)]> (PlayerFarm.passives p) /\
      PlayerFarm.attack_power p' =
        PlayerFarm.attack_power p + (if (name =? "Ember's Fury")%string then 5 * (s - s0) else 0) /\
      PlayerFarm.konami_fragments p' = PlayerFarm.konami_fragments p /\
      PlayerFarm.konami_fragment_rounds_left p' = PlayerFarm.konami_fragment_rounds_left p.
Proof.
  intros Hp Hr. cbv zeta.
  destruct g as [io rng wave km used pl tc em ca sr]. cbn in Hp. subst pl.
  destruct boss as [bf bk br bs bd bl]. cbn in Hr. subst br.
  destruct p as [[pn pmh ph pa] sk co gd prng tt' tr cds pas kf kr kp gts msg tab iat iab ish dp].
  unfold Game.offer_boss_passive.
  run_game.
  match goal with |- context [3 <=? ?x] => set (s0 := x) end.
  destruct (3 <=? s0) eqn:E3; [reflexivity|].
  apply Z.leb_gt in E3.
  replace (Z.min 3 (s0 + 1)) with (s0 + 1) by lia.
  unfold Random.random.
  assert (Hsurge : forall b, b && (0 <? s0) && (s0 + 1 <? 3) = true -> s0 + 1 < 3).
  { intros b Hb. apply andb_true_iff in Hb as [_ Hb]. apply Z.ltb_lt in Hb. exact Hb. }
  destruct (name =? "Ember's Fury")%string; run_game;
    repeat (case_inner; run_game).
  all: try match goal with
           | Hb : _ && _ && _ = true |- _ => apply Hsurge in Hb
           end.
  all: try rewrite insert_insert_eq.
  all: try replace (Z.min 3 (s0 + 1 + 1)) with (s0 + 2) by lia.
  all: first
    [ solve [ exists (s0 + 1); eexists; split; [reflexivity|]; run_game;
              repeat split; try (left; reflexivity); try lia; reflexivity ]
    | solve [ exists (s0 + 2); eexists; split; [reflexivity|]; run_game;
              repeat split; try (right; reflexivity); try lia; reflexivity ] ].
Qed.

Lemma offer_without_player (boss : Enemy.t) (g : Game.t R) :
  Game.player g = None -> Game.offer_boss_passive boss g = (Raise AssertionError, g).
Proof.
  intros Hp. destruct g as [io rng wave km used pl tc em ca sr]. cbn in Hp. subst pl.
  reflexivity.
Qed.

Lemma offer_without_reward (boss : Enemy.t) (g : Game.t R) (p : PlayerFarm.t R) :
  Game.player g = Some p ->
  Enemy.passive_reward boss = None ->
  Game.offer_boss_passive boss g = (Ok tt, g).
Proof.
  intros Hp Hr. destruct g as [io rng wave km used pl tc em ca sr]. cbn in Hp. subst pl.
  unfold Game.offer_boss_passive. rewrite Hr. reflexivity.
Qed.

Lemma stacks_of_default (name : string) (p : PlayerFarm.t R) (b : bool) :
  fst (default (0, b) (PlayerFarm.passives p !! name)) = stacks_of name p.
Proof.
  unfold stacks_of. destruct (PlayerFarm.passives p !! name) as [[s b']|]; reflexivity.
Qed.

(** One passive offer keeps the cap and pays five attack per stack of
    Ember's Fury; it leaves the fragments alone. *)
Lemma offer_step (boss : Enemy.t) (g : Game.t R) :
  let g' := snd (Game.offer_boss_passive boss g) in
  (stacks_capped g -> stacks_capped g') /\
  player_attack g' - player_attack g = 5 * (fury_stacks g' - fury_stacks g) /\
  fragments g' = fragments g.
Proof.
  cbv zeta.
  destruct (Game.player g) as [p|] eqn:Hp;
    [|rewrite offer_without_player by exact Hp; cbn [snd]; repeat split; [tauto | lia]].
  destruct (Enemy.passive_reward boss) as [[[name desc] stackable]|] eqn:Hr;
    [|rewrite (offer_without_reward boss g p Hp Hr); cbn [snd]; repeat split; [tauto | lia]].
  pose proof (offer_summary boss g p name desc stackable Hp Hr) as Hs. cbv zeta in Hs.
  rewrite stacks_of_default in Hs.
  destruct (3 <=? stacks_of name p) eqn:E3;
    [rewrite Hs; cbn [snd]; repeat split; [tauto | lia]|].
  destruct Hs as (s & p' & Hp' & Hs & Hcap & Hpas & Hatk & Hkf & Hkr).
  unfold stacks_capped, player_attack, fury_stacks, fragments. rewrite Hp', Hp.
  repeat split.
  - intros Hc q n st sb [= <-] Hl. rewrite Hpas in Hl.
    destruct (decide (name = n)) as [->|Hne].
    + rewrite lookup_insert_eq in Hl. injection Hl as <- <-. exact Hcap.
    + rewrite lookup_insert_ne in Hl by exact Hne. exact (Hc p n st sb eq_refl Hl).
  - rewrite Hatk. unfold stacks_of in *. rewrite Hpas.
    destruct (String.eqb_spec name "Ember's Fury") as [->|Hne].
    + rewrite lookup_insert_eq. lia.
    + rewrite lookup_insert_ne by exact Hne. lia.
  - rewrite Hkf, Hkr. reflexivity.
Qed.

(** C7.  Through any sequence of boss kills, whatever passives the bosses
    carry and whatever the generator draws (the 20% bonus stack included),
    no passive of the player is stacked more than three times, and the
    attack gained is exactly five for each stack of Ember's Fury gained. *)
Theorem passive_stacks_capped (bosses : list Enemy.t) (g : Game.t R) :
  stacks_capped g ->
  let g' := after_boss_kills bosses g in
  stacks_capped g' /\
  player_attack g' - player_attack g = 5 * (fury_stacks g' - fury_stacks g).
Proof.
  cbv zeta. revert g. induction bosses as [|boss rest IH]; intros g Hc.
  - cbn. split; [exact Hc | lia].
  - unfold after_boss_kills in *. cbn [fold_left].
    destruct (offer_step boss g) as (Hc' & Ha & _).
    destruct (IH _ (Hc' Hc)) as [Hc'' Ha'']. split; [exact Hc''|lia].
Qed.




Lemma write_all_returns (lines : list string) (g : Game.t R) :
  Game.write_all lines g =
  (Ok tt,
   Game.set_io (IO.mk (IO.written (Game.io g) ++ lines) (IO.script (Game.io g))) g).
Proof.
  revert g. induction lines as [|line rest IH]; intros g;
    destruct g as [[w sc] rng wave km used pl tc em ca sr].
  - cbn. rewrite app_nil_r. reflexivity.
  - cbn [Game.write_all]. unfold bind at 1. run_game. rewrite IH. run_game.
    rewrite <- app_assoc. reflexivity.
Qed.

(** C8.  In story mode the Gold Pouch costs 10 coins.  Whatever else the
    player holds, choosing [3] with exactly 10 coins succeeds: the coins
    are at 0, the gold is one more, and the purchase and the purse are
    written.  With 9 coins the shop writes "Not enough coins." and the
    game differs from before in nothing but the lines written and read. *)
Theorem gold_pouch_boundary (g : Game.t R) (p : PlayerFarm.t R) (line : string)
    (rest : list string) :
  Game.endless_mode g = false ->
  IO.script (Game.io g) = line :: rest ->
  Py.strip line = "3"%string ->
  let at_cost := Game.set_player (Some (PlayerFarm.set_coins 10 p)) g in
  let below := Game.set_player (Some (PlayerFarm.set_coins 9 p)) g in
  let '(coins_cost, gold_cost) := PlayerFarm.konami_activation_cost p 0 in
  let menu := Game.shop_menu false coins_cost gold_cost in
  Game.shop_visit at_cost =
    (Ok true,
     Game.set_io
       (IO.mk (IO.written (Game.io g) ++ menu ++
                 [ "You purchase a Gold Pouch and gain 1 gold.";
                   "Coins: 0 | Gold: " ++ Py.str (PlayerFarm.gold p + 1) ]%string)
              rest)
       (Game.set_player
          (Some (PlayerFarm.set_gold (PlayerFarm.gold p + 1) (PlayerFarm.set_coins 0 p))) g)) /\
  Game.shop_visit below =
    (Ok true,
     Game.set_io (IO.mk (IO.written (Game.io g) ++ menu ++ ["Not enough coins."%string]) rest)
       below).
Proof.
  intros He Hs Hl.
  destruct g as [[w sc] rng wave km used pl tc em ca sr]. cbn in He, Hs. subst em sc.
  destruct p as [[pn pmh ph pa] sk co gd prng tt' tr cds pas kf kr kp gts msg tab iat iab ish dp].
  cbv zeta.
  unfold Game.shop_visit, Game.buy_gold, PlayerFarm.konami_activation_cost, Game.shop_menu.
  run_game. rewrite !write_all_returns. run_game. rewrite Hl.
  decide_tests. run_game. decide_tests. run_game.
  rewrite <- !app_assoc. split; reflexivity.
Qed.

(** C10.  [heal_flat(n)] returns [n] itself, while the hit points gained
    are [min(n, max_hp - health)]; so the heal action of a battle, taken at
    full health, writes that 50 HP were recovered and leaves the player as
    it was. *)
Theorem heal_reports_the_request (f : Farm.t) (n : Z) (g : Game.t R) (p : PlayerFarm.t R)
    (e : Enemy.t) (line : string) (rest : list string) :
  0 <= n ->
  Farm.health f <= Farm.max_hp f ->
  Game.player g = Some p ->
  IO.script (Game.io g) = line :: rest ->
  Py.strip line = "2"%string ->
  PlayerFarm.health p = PlayerFarm.max_hp p ->
  fst (Farm.heal_flat n f) = Ok n /\
  Farm.health (snd (Farm.heal_flat n f)) - Farm.health f
    = Z.min n (Farm.max_hp f - Farm.health f) /\
  Game.show_options (g, e) =
    (Ok tt,
     (Game.set_io
        (IO.mk (IO.written (Game.io g) ++
                  [ "Choose action: [1] Attack  [2] Heal  [3] Skill";
                    PlayerFarm.name p ++ " uses a heal and recovers 50 HP." ]%string)
               rest) g,
      e)).
Proof.
  intros Hn Hf Hp Hs Hl Hfull. split; [reflexivity|]. split; [cbn; lia|].
  destruct g as [[w sc] rng wave km used pl tc em ca sr]. cbn in Hp, Hs. subst pl sc.
  destruct p as [[pn pmh ph pa] sk co gd prng tt' tr cds pas kf kr kp gts msg tab iat iab ish dp].
  cbn in Hfull. subst ph.
  unfold Game.show_options. run_game. rewrite Hl. decide_tests. run_game.
  rewrite Z.min_l by lia. rewrite <- !app_assoc. reflexivity.
Qed.

End WithGenerator.

Lemma gold_pouch_boundary_witness :
  let p := PlayerFarm.init "Farm" ([] : Tape.t) in
  let g := game_with p ["3"; "6"]%string ([] : Tape.t) in
  let at_cost := Game.set_player (Some (PlayerFarm.set_coins 10 p)) g in
  let below := Game.set_player (Some (PlayerFarm.set_coins 9 p)) g in
  let '(coins_cost, gold_cost) := PlayerFarm.konami_activation_cost p 0 in
  let menu := Game.shop_menu false coins_cost gold_cost in
  Game.shop_visit at_cost =
    (Ok true,
     Game.set_io
       (IO.mk (IO.written (Game.io g) ++ menu ++
                 [ "You purchase a Gold Pouch and gain 1 gold.";
                   "Coins: 0 | Gold: " ++ Py.str (PlayerFarm.gold p + 1) ]%string)
              ["6"%string])
       (Game.set_player
          (Some (PlayerFarm.set_gold (PlayerFarm.gold p + 1) (PlayerFarm.set_coins 0 p))) g)) /\
  Game.shop_visit below =
    (Ok true,
     Game.set_io
       (IO.mk (IO.written (Game.io g) ++ menu ++ ["Not enough coins."%string]) ["6"%string])
       below).
Proof.
  apply (gold_pouch_boundary (R := Tape.t) _ _ "3" ["6"%string]); reflexivity.
Defined.

Lemma heal_reports_the_request_witness :
  let p := PlayerFarm.init "Farm" ([] : Tape.t) in
  let g := game_with p ["2"]%string ([] : Tape.t) in
  fst (Farm.heal_flat 50 (PlayerFarm.farm p)) = Ok 50 /\
  Farm.health (snd (Farm.heal_flat 50 (PlayerFarm.farm p))) - Farm.health (PlayerFarm.farm p)
    = Z.min 50 (Farm.max_hp (PlayerFarm.farm p) - Farm.health (PlayerFarm.farm p)) /\
  Game.show_options (g, Enemy.monster 1) =
    (Ok tt,
     (Game.set_io
        (IO.mk (IO.written (Game.io g) ++
                  [ "Choose action: [1] Attack  [2] Heal  [3] Skill";
                    PlayerFarm.name p ++ " uses a heal and recovers 50 HP." ]%string)
               []) g,
      Enemy.monster 1)).
Proof.
  apply (heal_reports_the_request (R := Tape.t) _ 50 _ (PlayerFarm.init "Farm" ([] : Tape.t))
           _ "2" []); try reflexivity; cbn; lia.
Defined.


Lemma passive_stacks_capped_witness :
  let g := game_with (PlayerFarm.init "Farm" ([] : Tape.t)) [] ([0; 2 ^ 52; 0; 0; 0; 0] : Tape.t) in
  let g' := after_boss_kills [Enemy.boss 5; Enemy.boss 10; Enemy.boss 15; Enemy.boss 20] g in
  stacks_capped g' /\
  player_attack g' - player_attack g = 5 * (fury_stacks g' - fury_stacks g).
Proof.
  apply (passive_stacks_capped (R := Tape.t)).
  intros p name stacks stackable [= <-] Hl. cbn in Hl. rewrite lookup_empty in Hl. discriminate.
Defined.

End GameFacts.

(** ** Invariants of computations *)

Module BattleFacts.
Import Props.

Section Keeps.
Context {S : Type} (I : S -> Prop).

Lemma keeps_ret {A : Type} (a : A) : keeps I (ret a).
Proof. intros s Hs. exact Hs. Qed.

Lemma keeps_raise {A : Type} (e : exn) : keeps I (raise (A := A) e).
Proof. intros s Hs. exact Hs. Qed.

Lemma keeps_gets {A : Type} (f : S -> A) : keeps I (gets f).
Proof. intros s Hs. exact Hs. Qed.

Lemma keeps_lift {A : Type} (r : result A) : keeps I (lift r).
Proof. intros s Hs. exact Hs. Qed.

Lemma keeps_modify (f : S -> S) : (forall s, I s -> I (f s)) -> keeps I (modify f).
Proof. intros Hf s Hs. exact (Hf s Hs). Qed.

Lemma keeps_bind {A B : Type} (m : M S A) (k : A -> M S B) :
  keeps I m -> (forall a, keeps I (k a)) -> keeps I (bind m k).
Proof.
  intros Hm Hk s Hs. unfold bind. specialize (Hm s Hs).
  destruct (m s) as [[a|e] s']; cbn [snd] in *; [apply Hk, Hm | exact Hm].
Qed.

Lemma keeps_when (b : bool) (m : M S unit) : keeps I m -> keeps I (when b m).
Proof. intros Hm. destruct b; [exact Hm | apply keeps_ret]. Qed.

(** A method of a component that [I] does not look at. *)
Lemma keeps_zoom_apart {T A : Type} (proj : S -> T) (inj : T -> S -> S) (m : M T A) :
  (forall s t, I s -> I (inj t s)) -> keeps I (zoom proj inj m).
Proof.
  intros Hi s Hs. unfold zoom. destruct (m (proj s)) as [r t]. apply Hi, Hs.
Qed.

(** A method of a component that keeps what [I] asks of it. *)
Lemma keeps_zoom_on {T A : Type} (J : T -> Prop) (proj : S -> T) (inj : T -> S -> S)
    (m : M T A) :
  keeps J m ->
  (forall s, I s -> J (proj s)) ->
  (forall s t, I s -> J t -> I (inj t s)) ->
  keeps I (zoom proj inj m).
Proof.
  intros Hm Hp Hi s Hs. unfold zoom. specialize (Hm (proj s) (Hp s Hs)).
  destruct (m (proj s)) as [r t]. apply Hi; assumption.
Qed.

(** [I] after [m] and kept by what follows is [I] at the end. *)
Lemma after_bind {A B : Type} (m : M S A) (k : A -> M S B) (s : S) :
  I (snd (m s)) -> (forall a, keeps I (k a)) -> I (snd (bind m k s)).
Proof.
  intros Hm Hk. unfold bind.
  destruct (m s) as [[a|e] s']; cbn [snd] in *; [apply Hk, Hm | exact Hm].
Qed.

End Keeps.

Lemma bind_assoc {S A B C : Type} (m : M S A) (f : A -> M S B) (k : B -> M S C) (s : S) :
  bind (bind m f) k s = bind m (fun a => bind (f a) k) s.
Proof.
  unfold bind. destruct (m s) as [[a|e] s']; reflexivity.
Qed.

(** One step of a proof that a computation keeps an invariant. *)
Ltac keeps_step :=
  cbv beta;
  lazymatch goal with
  | |- keeps _ (bind _ _) => apply keeps_bind; [|intros ?]
  | |- keeps _ (ret _) => apply keeps_ret
  | |- keeps _ (raise _) => apply keeps_raise
  | |- keeps _ (gets _) => apply keeps_gets
  | |- keeps _ (lift _) => apply keeps_lift
  | |- keeps _ (when _ _) => apply keeps_when
  | |- keeps _ (if ?b then _ else _) => destruct b
  | |- keeps _ (match ?x with _ => _ end) => destruct x
  end.

Section WithGenerator.
Context {R : Type} `{RandomGen R}.

Lemma take_damage_keeps_attack (v d : Z) : keeps (farm_attack_is v) (Farm.take_damage d).
Proof. intros f Hf. exact Hf. Qed.

Lemma on_farm_keeps_attack {A : Type} (v : Z) (m : M Farm.t A) :
  keeps (farm_attack_is v) m -> keeps (foe_attack_is v) (Enemy.on_farm m).
Proof.
  intros Hm. unfold Enemy.on_farm.
  apply (keeps_zoom_on _ (farm_attack_is v)); [exact Hm | auto |].
  intros e f _ Hf. destruct e. exact Hf.
Qed.

Lemma on_game_keeps_attack {A : Type} (v : Z) (m : M (Game.t R) A) :
  keeps (pair_attack_is v) (Game.on_game m).
Proof.
  unfold Game.on_game, on_fst. apply keeps_zoom_apart. intros s t Hs. exact Hs.
Qed.

Lemma on_enemy_keeps_attack {A : Type} (v : Z) (m : M Enemy.t A) :
  keeps (foe_attack_is v) m -> keeps (pair_attack_is (P := Game.t R) v) (Game.on_enemy m).
Proof.
  intros Hm. unfold Game.on_enemy, on_snd.
  apply (keeps_zoom_on _ (foe_attack_is v)); [exact Hm | auto |].
  intros s e _ He. exact He.
Qed.

Lemma tagging_keeps_attack (v : Z) (f : Enemy.t -> Enemy.t) :
  (forall e, Enemy.farm (f e) = Enemy.farm e) -> keeps (foe_attack_is v) (modify f).
Proof.
  intros Hf. apply keeps_modify. intros e Hv. unfold foe_attack_is. rewrite Hf. exact Hv.
Qed.

(** No skill touches the attack power of its target. *)
Lemma skill_keeps_attack (v : Z) (skill : Skill.t) :
  keeps (target_attack_is (P := PlayerFarm.t R) v) (PlayerFarm.use skill).
Proof.
  assert (Hpair : forall A (m : M (PlayerFarm.t R * Enemy.t) A),
             keeps (pair_attack_is v) m -> keeps (target_attack_is v) (on_fst (T := IO.t) m)).
  { intros A m Hm. unfold on_fst.
    apply (keeps_zoom_on _ (pair_attack_is v)); [exact Hm | auto |].
    intros s t _ Ht. exact Ht. }
  assert (Hp : forall A (m : M (PlayerFarm.t R) A),
             keeps (target_attack_is v) (PlayerFarm.on_player m)).
  { intros A m. apply Hpair. unfold on_fst.
    apply keeps_zoom_apart. intros s t Hs. exact Hs. }
  assert (Hio : forall A (m : M IO.t A),
             keeps (target_attack_is (P := PlayerFarm.t R) v) (PlayerFarm.on_io m)).
  { intros A m. unfold PlayerFarm.on_io, on_snd.
    apply keeps_zoom_apart. intros s t Hs. exact Hs. }
  assert (He : forall A (m : M Enemy.t A),
             keeps (foe_attack_is v) m ->
             keeps (target_attack_is (P := PlayerFarm.t R) v) (PlayerFarm.on_enemy m)).
  { intros A m Hm. apply Hpair. unfold on_snd.
    apply (keeps_zoom_on _ (foe_attack_is v)); [exact Hm | auto |].
    intros s t _ Ht. exact Ht. }
  assert (Hhit : forall d, keeps (target_attack_is (P := PlayerFarm.t R) v)
                   (PlayerFarm.on_enemy (Enemy.on_farm (Farm.take_damage d)))).
  { intros d. apply He, on_farm_keeps_attack, take_damage_keeps_attack. }
  assert (Hmod : forall f : Enemy.t -> Enemy.t,
             (forall e, Enemy.farm (f e) = Enemy.farm e) ->
             keeps (target_attack_is (P := PlayerFarm.t R) v) (PlayerFarm.on_enemy (modify f))).
  { intros f Hf. apply He, tagging_keeps_attack, Hf. }
  unfold PlayerFarm.use.
  destruct (Skill.effect_of skill);
    unfold PlayerFarm.skill_blazing_corn, PlayerFarm.skill_rain_dance_buffed,
      PlayerFarm.skill_stampede_buffed, PlayerFarm.skill_stampede,
      PlayerFarm.skill_increase_max_hp, PlayerFarm.skill_sap_burst,
      PlayerFarm.skill_concussive_seed.
  all: repeat first
         [ apply Hp | apply Hio | apply Hhit
         | apply Hmod; intros e; destruct e; try destruct attack_debuff; reflexivity
         | keeps_step ].
Qed.

(** Nor does the player's attack. *)
Lemma attack_keeps_attack (v : Z) :
  keeps (other_attack_is (P := PlayerFarm.t R) (G := R) v) PlayerFarm.attack.
Proof.
  assert (Hpair : forall A (m : M (PlayerFarm.t R * Farm.t) A),
             keeps (fun s => farm_attack_is v (snd s)) m ->
             keeps (other_attack_is v) (on_fst (T := R) m)).
  { intros A m Hm. unfold on_fst.
    apply (keeps_zoom_on _ (fun s => farm_attack_is v (snd s))); [exact Hm | auto |].
    intros s t _ Ht. exact Ht. }
  unfold PlayerFarm.attack.
  repeat first
    [ apply Hpair; unfold on_fst; apply keeps_zoom_apart; intros s t Hs; exact Hs
    | apply Hpair; unfold on_snd;
      apply (keeps_zoom_on _ (farm_attack_is v)); [| auto | intros s t _ Ht; exact Ht];
      unfold Farm.apply_attack_damage;
      apply keeps_bind; [apply take_damage_keeps_attack | intros ?; apply keeps_ret]
    | unfold on_snd; apply keeps_zoom_apart; intros s t Hs; exact Hs
    | keeps_step ].
Qed.

Lemma player_attacks_keeps_attack (v : Z) :
  keeps (pair_attack_is v) (Game.player_attacks (R := R)).
Proof.
  intros [g e] Hs. unfold Game.player_attacks.
  destruct (Game.player g) as [p|]; [|exact Hs].
  pose proof (attack_keeps_attack v (p, Enemy.farm e, Game.rng g) Hs) as Ha.
  destruct (PlayerFarm.attack (p, Enemy.farm e, Game.rng g)) as [r [[p' f'] rng']].
  cbn [snd fst] in *. destruct e. exact Ha.
Qed.

Lemma use_skill_keeps_attack (v : Z) (skill : Skill.t) :
  keeps (pair_attack_is v) (Game.use_skill (R := R) skill).
Proof.
  intros [g e] Hs. unfold Game.use_skill.
  destruct (Game.player g) as [p|]; [|exact Hs].
  pose proof (skill_keeps_attack v skill (p, e, Game.io g) Hs) as Ha.
  destruct (PlayerFarm.use skill (p, e, Game.io g)) as [r [[p' e'] io']].
  exact Ha.
Qed.

(** One step for the computations of a battle. *)
Ltac battle_step :=
  first
    [ apply on_game_keeps_attack
    | apply player_attacks_keeps_attack
    | apply use_skill_keeps_attack
    | apply on_enemy_keeps_attack, tagging_keeps_attack; intros e; destruct e; reflexivity
    | keeps_step ].

Lemma handle_skill_keeps_attack (v : Z) :
  keeps (pair_attack_is v) (Game.handle_skill (R := R)).
Proof. unfold Game.handle_skill. repeat battle_step. Qed.

Lemma show_options_keeps_attack (v : Z) :
  keeps (pair_attack_is v) (Game.show_options (R := R)).
Proof.
  unfold Game.show_options.
  repeat first [apply handle_skill_keeps_attack | battle_step].
Qed.

Lemma gimmick_keeps_attack (v : Z) :
  keeps (pair_attack_is v) (Game.maybe_trigger_endless_gimmick (R := R)).
Proof. unfold Game.maybe_trigger_endless_gimmick. repeat battle_step. Qed.

Lemma enemy_action_keeps_attack (v : Z) :
  keeps (pair_attack_is v) (Game.enemy_action (R := R)).
Proof. unfold Game.enemy_action. repeat battle_step. Qed.

(** The turn counter and the escalation at the head of a turn: at the
    threshold or past it the attack power becomes [int(attack_power * 1.5)],
    and it does so on every such turn, for no flag is kept. *)
Lemma escalate_sets_attack (g : Game.t R) (e : Enemy.t) (a' : Z) :
  Py.int_product (Farm.attack_power (Enemy.farm e)) 1.5 = Ok a' ->
  let turn := Game.turn_count g + 1 in
  let threshold := if Enemy.is_boss e then Game.boss_threshold else Game.long_battle_threshold in
  let head :=
    bind (Game.on_game (modify (fun g => Game.set_turn_count (Game.turn_count g + 1) g)))
         (fun _ => Game.escalate) in
  enemy_attack (snd (head (g, e))) =
    if threshold <=? turn then a' else Farm.attack_power (Enemy.farm e).
Proof.
  intros Hint. cbv zeta.
  destruct g as [io rng wave km used pl tc em ca sr].
  destruct e as [[fn fmh fh fa] bk br bs bd bl].
  unfold enemy_attack, Game.escalate, Game.scale_attack_power,
    Game.boss_threshold, Game.long_battle_threshold.
  cbn in Hint. run_game.
  destruct bk; cbn [negb andb]; rewrite ?andb_true_r, ?andb_false_r; run_game.
  - destruct (10 <=? tc + 1); run_game; [rewrite Hint|]; run_game; reflexivity.
  - destruct (15 <=? tc + 1); run_game; [rewrite Hint|]; run_game; reflexivity.
Qed.

(** C2, amended.  On every turn of a battle whose number has reached the
    threshold (10 for a regular enemy, 15 for a boss) the enemy's attack
    power is multiplied by 1.5 and truncated, so the escalation compounds
    from turn to turn; on the turns before, the attack power is left as
    it is.  Nothing else in a turn changes it. *)
Theorem escalation_every_turn (g : Game.t R) (e : Enemy.t) (a' : Z) :
  Py.int_product (Farm.attack_power (Enemy.farm e)) 1.5 = Ok a' ->
  let turn := Game.turn_count g + 1 in
  let threshold := if Enemy.is_boss e then Game.boss_threshold else Game.long_battle_threshold in
  enemy_attack (snd (Game.battle_turn (g, e))) =
    if threshold <=? turn then a' else Farm.attack_power (Enemy.farm e).
Proof.
  intros Hint. cbv zeta.
  pose proof (escalate_sets_attack g e a' Hint) as Hhead. cbv zeta in Hhead.
  set (v := if _ <=? _ then a' else _) in *.
  unfold Game.battle_turn.
  match goal with
  | |- context [bind ?m (fun _ => bind ?esc ?k) ?s] =>
      rewrite <- (bind_assoc m (fun _ => esc) k s)
  end.
  apply (after_bind (pair_attack_is v)); [exact Hhead|].
  intros _.
  repeat first
    [ apply show_options_keeps_attack
    | apply gimmick_keeps_attack
    | apply enemy_action_keeps_attack
    | battle_step ].
Qed.

End WithGenerator.

(** [int(a * 1.5)] is [3a // 2] for every attack power from 0 to 4000:
    the product is exact in binary64 and [int] drops the half. *)
Lemma escalation_factor :
  forallb (fun a => match Py.int_product a 1.5 with
                    | Ok a' => a' =? 3 * a / 2
                    | Raise _ => false
                    end)
          (map Z.of_nat (seq 0 4001)) = true.
Proof. vm_compute. reflexivity. Qed.

(** C2 as it is stated fails.  A wave-1 monster (attack 15) against a
    player who heals every turn: after turn 10 its attack power is 22,
    after turn 11 it is 33, after turn 12 it is 49. *)
Lemma escalation_compounds :
  let s := (game_with (PlayerFarm.init "Farm" ([] : Tape.t))
              (repeat "2"%string 12) ([] : Tape.t),
            Enemy.monster 1) in
  map (fun n => enemy_attack (after_turns n s)) [9; 10; 11; 12]%nat = [15; 22; 33; 49].
Proof. vm_compute. reflexivity. Qed.

Lemma escalation_every_turn_witness :
  let g := Game.set_turn_count 10
             (game_with (PlayerFarm.init "Farm" ([] : Tape.t)) ["2"%string] ([] : Tape.t)) in
  let e := Enemy.set_farm (Farm.mk "Enemy Monster" 112 112 22) (Enemy.monster 1) in
  enemy_attack (snd (Game.battle_turn (g, e))) = 33.
Proof.
  exact (escalation_every_turn (R := Tape.t)
           (Game.set_turn_count 10
              (game_with (PlayerFarm.init "Farm" ([] : Tape.t)) ["2"%string] ([] : Tape.t)))
           (Enemy.set_farm (Farm.mk "Enemy Monster" 112 112 22) (Enemy.monster 1))
           33 eq_refl).
Defined.

End BattleFacts.

(** ** Sessions *)

Module SessionFacts.
Import Props.

(** C1 fails on the code.  Two runs of one session, with the same seed for
    the generator of the [Game] and the same script of answers, both played
    to the end: the merchant of wave 3 hands out Rain Dance in one and
    Blazing Corn in the other, because [add_new_skill] shuffles with the
    player's own generator, which [PlayerFarm.__init__] creates unseeded. *)
Theorem same_seed_different_output :
  fst (session []) = Ok tt /\
  fst (session [1; 2; 3; 4; 5]) = Ok tt /\
  session_output [] !! 68%nat = Some "âœ¨ New skill acquired: Rain Dance!"%string /\
  session_output [1; 2; 3; 4; 5] !! 68%nat
    = Some "âœ¨ New skill acquired: Blazing Corn!"%string /\
  session_output [] <> session_output [1; 2; 3; 4; 5].
Proof.
  assert (H1 : session_output [] !! 68%nat
               = Some "âœ¨ New skill acquired: Rain Dance!"%string)
    by (vm_compute; reflexivity).
  assert (H2 : session_output [1; 2; 3; 4; 5] !! 68%nat
               = Some "âœ¨ New skill acquired: Blazing Corn!"%string)
    by (vm_compute; reflexivity).
  split; [vm_compute; reflexivity|].
  split; [vm_compute; reflexivity|].
  split; [exact H1|]. split; [exact H2|].
  intros Heq. rewrite Heq, H2 in H1. discriminate H1.
Qed.

End SessionFacts.

(** ** Fuel *)

(** The loops of the model ([battle_loop], [shop_loop], [menu_loop],
    [wave_loop]) are given one more pass than the script has lines.  That
    is enough: none of them ever raises [OutOfFuel], so what the model
    returns or raises is what the loops of the program do. *)
Module FuelFacts.
Import Props.

(** *** The arithmetic raises Python's exceptions only *)

Lemma float_of_int_sober (n : Z) : sober (Py.float_of_int n).
Proof.
  unfold Py.float_of_int.
  destruct (binary_normalize prec emax n 0 false); cbn; solve [exact I | discriminate].
Qed.

Lemma int_mul_float_sober (n : Z) (x : float) : sober (Py.int_mul_float n x).
Proof.
  unfold Py.int_mul_float. pose proof (float_of_int_sober n) as Hn.
  destruct (Py.float_of_int n); [exact I | exact Hn].
Qed.

Lemma round_sober (x : float) : sober (Py.round x).
Proof. unfold Py.round. destruct (Prim2SF x); cbn; solve [exact I | discriminate]. Qed.

Lemma int_of_float_sober (x : float) : sober (Py.int_of_float x).
Proof. unfold Py.int_of_float. destruct (Prim2SF x); cbn; solve [exact I | discriminate]. Qed.

Lemma round_product_sober (n : Z) (x : float) : sober (Py.round_product n x).
Proof.
  unfold Py.round_product. pose proof (int_mul_float_sober n x) as Hn.
  destruct (Py.int_mul_float n x); [apply round_sober | exact Hn].
Qed.

Lemma int_product_sober (n : Z) (x : float) : sober (Py.int_product n x).
Proof.
  unfold Py.int_product. pose proof (int_mul_float_sober n x) as Hn.
  destruct (Py.int_mul_float n x); [apply int_of_float_sober | exact Hn].
Qed.

(** What is sober did not run out of fuel. *)
Lemma sober_not_out_of_fuel {A : Type} (r : result A) : sober r -> r <> Raise OutOfFuel.
Proof. intros Hr ->. apply Hr. reflexivity. Qed.

(** *** Computations that hold no script *)

Section Calm.
Context {S : Type}.

Lemma calm_ret {A : Type} (a : A) : calm (ret (S := S) a).
Proof. intros s. exact I. Qed.

Lemma calm_raise {A : Type} (e : exn) : e <> OutOfFuel -> calm (raise (S := S) (A := A) e).
Proof. intros He s. exact He. Qed.

Lemma calm_gets {A : Type} (f : S -> A) : calm (gets f).
Proof. intros s. exact I. Qed.

Lemma calm_modify (f : S -> S) : calm (modify f).
Proof. intros s. exact I. Qed.

Lemma calm_lift {A : Type} (r : result A) : sober r -> calm (lift (S := S) r).
Proof. intros Hr s. exact Hr. Qed.

Lemma calm_bind {A B : Type} (m : M S A) (k : A -> M S B) :
  calm m -> (forall a, calm (k a)) -> calm (bind m k).
Proof.
  intros Hm Hk s. unfold bind. specialize (Hm s).
  destruct (m s) as [[a|e] s']; [apply Hk | exact Hm].
Qed.

Lemma calm_when (b : bool) (m : M S unit) : calm m -> calm (when b m).
Proof. intros Hm. destruct b; [exact Hm | apply calm_ret]. Qed.

Lemma calm_zoom {T A : Type} (proj : S -> T) (inj : T -> S -> S) (m : M T A) :
  calm m -> calm (zoom proj inj m).
Proof.
  intros Hm s. unfold zoom. specialize (Hm (proj s)).
  destruct (m (proj s)) as [r t]. exact Hm.
Qed.

End Calm.

(** *** Computations on a state that holds the script *)

Section Settled.
Context {S : Type} `{Gauge S}.

Lemma no_later_refl (s : S) : no_later false s s.
Proof. split; [reflexivity | apply Nat.le_refl]. Qed.

Lemma no_later_weaken (strict : bool) (s' s : S) : no_later strict s' s -> no_later false s' s.
Proof. intros [Hw Hl]. split; [exact Hw|]. destruct strict; lia. Qed.

Lemma no_later_trans (b1 b2 : bool) (s'' s' s : S) :
  no_later b2 s'' s' -> no_later b1 s' s -> no_later (b1 || b2) s'' s.
Proof.
  intros [Hw2 Hl2] [Hw1 Hl1]. split; [congruence|].
  destruct b1, b2; cbn; lia.
Qed.

Lemma settled_weaken {A : Type} (strict : bool) (m : M S A) :
  settled strict m -> settled false m.
Proof.
  intros Hm s. specialize (Hm s).
  destruct (m s) as [[a|e] s']; [eapply no_later_weaken | ]; exact Hm.
Qed.

Lemma settled_ret {A : Type} (a : A) : settled false (ret (S := S) a).
Proof. intros s. apply no_later_refl. Qed.

Lemma settled_raise {A : Type} (strict : bool) (e : exn) :
  e <> OutOfFuel -> settled strict (raise (S := S) (A := A) e).
Proof. intros He s. exact He. Qed.

Lemma settled_gets {A : Type} (f : S -> A) : settled false (gets f).
Proof. intros s. apply no_later_refl. Qed.

Lemma settled_lift {A : Type} (r : result A) : sober r -> settled false (lift (S := S) r).
Proof.
  intros Hr s. unfold lift. destruct r as [a|e]; [apply no_later_refl | exact Hr].
Qed.

Lemma settled_modify (f : S -> S) :
  (forall s, no_later false (f s) s) -> settled false (modify f).
Proof. intros Hf s. apply Hf. Qed.

Lemma settled_bind {A B : Type} (b1 b2 : bool) (m : M S A) (k : A -> M S B) :
  settled b1 m -> (forall a, settled b2 (k a)) -> settled (b1 || b2) (bind m k).
Proof.
  intros Hm Hk s. unfold bind. specialize (Hm s).
  destruct (m s) as [[a|e] s']; [|exact Hm].
  specialize (Hk a s'). destruct (k a s') as [[b|e] s'']; [|exact Hk].
  eapply no_later_trans; eassumption.
Qed.

Lemma quiet_bind {A B : Type} (m : M S A) (k : A -> M S B) :
  settled false m -> (forall a, settled false (k a)) -> settled false (bind m k).
Proof. apply (settled_bind false false). Qed.

(** The line is read by [m], or by what follows. *)
Lemma reads_bind_first {A B : Type} (m : M S A) (k : A -> M S B) :
  settled true m -> (forall a, settled false (k a)) -> settled true (bind m k).
Proof. apply (settled_bind true false). Qed.

Lemma reads_bind_then {A B : Type} (m : M S A) (k : A -> M S B) :
  settled false m -> (forall a, settled true (k a)) -> settled true (bind m k).
Proof. apply (settled_bind false true). Qed.

Lemma settled_when (b : bool) (m : M S unit) : settled false m -> settled false (when b m).
Proof. intros Hm. destruct b; [exact Hm | apply settled_ret]. Qed.

(** A method of a component that holds neither the script nor the wave. *)
Lemma settled_zoom_apart {T A : Type} (proj : S -> T) (inj : T -> S -> S) (m : M T A) :
  calm m -> (forall s t, no_later false (inj t s) s) -> settled false (zoom proj inj m).
Proof.
  intros Hm Hi s. unfold zoom. specialize (Hm (proj s)).
  destruct (m (proj s)) as [[a|e] t]; [apply Hi | exact Hm].
Qed.

(** A method of the component that holds the script. *)
Lemma settled_zoom_on {T A : Type} `{Gauge T} (strict : bool) (proj : S -> T)
    (inj : T -> S -> S) (m : M T A) :
  settled strict m ->
  (forall s t, no_later strict t (proj s) -> no_later strict (inj t s) s) ->
  settled strict (zoom proj inj m).
Proof.
  intros Hm Hi s. unfold zoom. specialize (Hm (proj s)).
  destruct (m (proj s)) as [[a|e] t]; [apply Hi, Hm | exact Hm].
Qed.

Lemma settled_sober {A : Type} (strict : bool) (m : M S A) (s : S) :
  settled strict m -> sober (fst (m s)).
Proof.
  intros Hm. specialize (Hm s). destruct (m s) as [[a|e] s']; [exact I | exact Hm].
Qed.

(** After a settled [m], what follows runs no later. *)
Lemma sober_after {A B : Type} (m : M S A) (k : A -> M S B) (s : S) :
  settled false m ->
  (forall a s', no_later false s' s -> sober (fst (k a s'))) ->
  sober (fst (bind m k s)).
Proof.
  intros Hm Hk. unfold bind. specialize (Hm s).
  destruct (m s) as [[a|e] s']; [apply Hk, Hm | exact Hm].
Qed.

End Settled.

(** One step of a proof that a computation is calm. *)
Ltac calm_step :=
  cbv beta;
  lazymatch goal with
  | |- calm (bind _ _) => apply calm_bind; [|intros ?]
  | |- calm (ret _) => apply calm_ret
  | |- calm (raise _) => apply calm_raise; discriminate
  | |- calm (gets _) => apply calm_gets
  | |- calm (modify _) => apply calm_modify
  | |- calm (lift (Py.float_of_int _)) => apply calm_lift, float_of_int_sober
  | |- calm (lift (Py.int_mul_float _ _)) => apply calm_lift, int_mul_float_sober
  | |- calm (lift (Py.round _)) => apply calm_lift, round_sober
  | |- calm (lift (Py.round_product _ _)) => apply calm_lift, round_product_sober
  | |- calm (lift (Py.int_product _ _)) => apply calm_lift, int_product_sober
  | |- calm (when _ _) => apply calm_when
  | |- calm (zoom _ _ _) => apply calm_zoom
  | |- calm (on_fst _) => apply calm_zoom
  | |- calm (on_snd _) => apply calm_zoom
  | |- calm (if ?b then _ else _) => destruct b
  | |- calm (match ?x with _ => _ end) => destruct x
  end.

Create HintDb fuel.

#[local] Hint Unfold
  Random.uniform Random.randint
  Farm.take_damage Farm.heal_flat Farm.heal_percent Farm.damage_percent Farm.percent_amount
  Farm.roll_attack_damage Farm.apply_attack_damage Farm.attack Enemy.on_farm
  PlayerFarm.on_farm PlayerFarm.take_damage PlayerFarm.attack PlayerFarm.wave_clear_upgrade
  PlayerFarm.attack_boost PlayerFarm.defense_boost
  KonamiManager.consume KonamiManager.check_sequence : fuel.

Section WithGenerator.
Context {R : Type} `{RandomGen R}.

(** *** The generator *)

Lemma random_calm : calm (Random.random (R := R)).
Proof. intros r. unfold Random.random. destruct (rng_random r). exact I. Qed.

Lemma randbelow_calm (n : Z) : calm (Random.randbelow (R := R) n).
Proof. intros r. unfold Random.randbelow. destruct (rng_randbelow n r). exact I. Qed.

Lemma choice_calm {A : Type} (seq : list A) : calm (Random.choice (R := R) seq).
Proof.
  unfold Random.choice. destruct seq as [|x seq]; [apply calm_raise; discriminate|].
  apply calm_bind; [apply randbelow_calm|]. intros i.
  destruct (_ !! _); [apply calm_ret | apply calm_raise; discriminate].
Qed.

Lemma shuffle_calm {A : Type} (x : list A) : calm (Random.shuffle (R := R) x).
Proof.
  unfold Random.shuffle. generalize (length x - 1)%nat as i. intros i. revert x.
  induction i as [|i IH]; intros x; [apply calm_ret|].
  cbn [Random.shuffle_from]. apply calm_bind; [apply randbelow_calm|]. intros j. apply IH.
Qed.

(** Calm computations, by their shape. *)
Ltac calm_auto :=
  repeat first
    [ lazymatch goal with
      | |- calm Random.random => apply random_calm
      | |- calm (Random.randbelow _) => apply randbelow_calm
      | |- calm (Random.choice _) => apply choice_calm
      | |- calm (Random.shuffle _) => apply shuffle_calm
      end
    | calm_step
    | progress autounfold with fuel ].

(** *** The game and its IO layer *)

Lemma io_write_quiet (text : string) : settled false (IO.write text).
Proof. intros io. split; [reflexivity | apply Nat.le_refl]. Qed.

Lemma io_prompt_reads (text : string) : settled true (IO.prompt text).
Proof.
  intros io. unfold IO.prompt, no_later. cbn.
  destruct (IO.script io) as [|line rest]; [discriminate|].
  split; [reflexivity | cbn; lia].
Qed.

Lemma write_quiet (text : string) : settled false (Game.write (R := R) text).
Proof.
  unfold Game.write. apply (settled_zoom_on false); [apply io_write_quiet|].
  intros g io [Hw Hl]. split; [reflexivity | exact Hl].
Qed.

Lemma prompt_reads (text : string) : settled true (Game.prompt (R := R) text).
Proof.
  unfold Game.prompt. apply (settled_zoom_on true); [apply io_prompt_reads|].
  intros g io [Hw Hl]. split; [reflexivity | exact Hl].
Qed.

Lemma prompt_quiet (text : string) : settled false (Game.prompt (R := R) text).
Proof. apply (settled_weaken true), prompt_reads. Qed.

Lemma write_all_quiet (lines : list string) : settled false (Game.write_all (R := R) lines).
Proof.
  induction lines as [|line rest IH]; cbn [Game.write_all]; [apply settled_ret|].
  apply quiet_bind; [apply write_quiet | intros _; exact IH].
Qed.

Lemma assert_player_quiet : settled false (Game.assert_player (R := R)).
Proof.
  intros g. unfold Game.assert_player.
  destruct (Game.player g); [apply no_later_refl | discriminate].
Qed.

Lemma the_player_quiet : settled false (Game.the_player (R := R)).
Proof.
  intros g. unfold Game.the_player.
  destruct (Game.player g); [apply no_later_refl | discriminate].
Qed.

Lemma on_player_quiet {A : Type} (m : M (PlayerFarm.t R) A) :
  calm m -> settled false (Game.on_player m).
Proof.
  intros Hm g. unfold Game.on_player. destruct (Game.player g) as [p|]; [|discriminate].
  specialize (Hm p). destruct (m p) as [[a|e] p']; [|exact Hm].
  split; [reflexivity | apply Nat.le_refl].
Qed.

Lemma on_player_io_quiet {A : Type} (m : M (PlayerFarm.t R * IO.t) A) :
  settled false m -> settled false (Game.on_player_io m).
Proof.
  intros Hm g. unfold Game.on_player_io. destruct (Game.player g) as [p|]; [|discriminate].
  specialize (Hm (p, Game.io g)).
  destruct (m (p, Game.io g)) as [[a|e] [p' io']]; [|exact Hm].
  destruct Hm as [_ Hl]. split; [reflexivity | exact Hl].
Qed.

Lemma rng_quiet {A : Type} (m : M R A) :
  calm m -> settled false (zoom (Game.rng (R := R)) Game.set_rng m).
Proof.
  intros Hm. apply settled_zoom_apart; [exact Hm|].
  intros g r. split; [reflexivity | apply Nat.le_refl].
Qed.

Lemma check_sequence_quiet (tokens : list string) :
  settled false (Game.check_sequence (R := R) tokens).
Proof.
  unfold Game.check_sequence. apply settled_zoom_apart; [calm_auto|].
  intros g s. split; [reflexivity | apply Nat.le_refl].
Qed.

(** *** The game with the enemy of a battle *)

Lemma on_game_settled {A : Type} (strict : bool) (m : M (Game.t R) A) :
  settled strict m -> settled strict (Game.on_game (R := R) m).
Proof.
  intros Hm. unfold Game.on_game, on_fst. apply (settled_zoom_on strict); [exact Hm|].
  intros s g Hg. exact Hg.
Qed.

Lemma on_enemy_quiet {A : Type} (m : M Enemy.t A) :
  calm m -> settled false (Game.on_enemy (R := R) m).
Proof.
  intros Hm. unfold Game.on_enemy, on_snd. apply settled_zoom_apart; [exact Hm|].
  intros s e. split; [reflexivity | apply Nat.le_refl].
Qed.

Lemma player_attacks_quiet : settled false (Game.player_attacks (R := R)).
Proof.
  intros [g e]. unfold Game.player_attacks.
  destruct (Game.player g) as [p|]; [|discriminate].
  assert (Ha : calm (PlayerFarm.attack (R := R))) by calm_auto.
  specialize (Ha (p, Enemy.farm e, Game.rng g)).
  destruct (PlayerFarm.attack (p, Enemy.farm e, Game.rng g)) as [[a|x] [[p' f'] rng']];
    [|exact Ha].
  split; [reflexivity | apply Nat.le_refl].
Qed.

Lemma use_skill_quiet (skill : Skill.t) :
  settled false (PlayerFarm.use (R := R) skill) ->
  settled false (Game.use_skill (R := R) skill).
Proof.
  intros Hm [g e]. unfold Game.use_skill.
  destruct (Game.player g) as [p|]; [|discriminate].
  specialize (Hm (p, e, Game.io g)).
  destruct (PlayerFarm.use skill (p, e, Game.io g)) as [[a|x] [[p' e'] io']]; [|exact Hm].
  destruct Hm as [_ Hl]. split; [reflexivity | exact Hl].
Qed.

(** *** The player with the IO layer *)

Lemma beside_io_quiet {P A : Type} (m : M P A) :
  calm m -> settled false (on_fst (T := IO.t) m).
Proof.
  intros Hm. unfold on_fst. apply settled_zoom_apart; [exact Hm|].
  intros s t. split; [reflexivity | apply Nat.le_refl].
Qed.

Lemma on_io_settled {P A : Type} (strict : bool) (m : M IO.t A) :
  settled strict m -> settled strict (on_snd (S := P) m).
Proof.
  intros Hm. unfold on_snd. apply (settled_zoom_on strict); [exact Hm|].
  intros s io [Hw Hl]. split; [reflexivity | exact Hl].
Qed.

Ltac sober_auto :=
  first [ apply float_of_int_sober | apply int_mul_float_sober | apply round_sober
        | apply round_product_sober | apply int_product_sober ].

(** One step of a proof that a computation is settled. *)
Ltac settled_step :=
  cbv beta zeta;
  lazymatch goal with
  | |- settled false (bind _ _) => apply quiet_bind; [|intros ?]
  | |- settled false (ret _) => apply settled_ret
  | |- settled _ (raise _) => apply settled_raise; discriminate
  | |- settled false (gets _) => apply settled_gets
  | |- settled false (lift _) => apply settled_lift; sober_auto
  | |- settled false (modify _) =>
      apply settled_modify; intros ?; split; [reflexivity | apply Nat.le_refl]
  | |- settled false (when _ _) => apply settled_when
  | |- settled _ (if ?b then _ else _) => destruct b
  | |- settled _ (match ?x with _ => _ end) => destruct x
  end.

(** The function at the head of an application. *)
Ltac head_of t :=
  lazymatch t with
  | ?f _ => head_of f
  | _ => t
  end.

(** [lem] for the computations that call [c]. *)
Ltac known_at c lem :=
  idtac;
  lazymatch goal with
  | |- settled _ ?m => let h := head_of m in constr_eq h c; apply lem
  end.

(** Settled computations, by their shape; [known] brings the lemmas for
    the parts that have one. *)
Ltac settled_with known :=
  repeat first
    [ known
    | lazymatch goal with
      | |- settled _ (Game.write _) => apply write_quiet
      | |- settled _ (Game.prompt _) => apply prompt_quiet
      | |- settled _ (Game.write_all _) => apply write_all_quiet
      | |- settled _ Game.assert_player => apply assert_player_quiet
      | |- settled _ Game.the_player => apply the_player_quiet
      | |- settled _ (Game.on_player _) => apply on_player_quiet; solve [calm_auto]
      | |- settled _ (Game.on_player_io _) => apply on_player_io_quiet
      | |- settled _ (zoom Game.rng Game.set_rng _) => apply rng_quiet; solve [calm_auto]
      | |- settled _ (Game.check_sequence _) => apply check_sequence_quiet
      | |- settled _ (Game.on_game _) => apply on_game_settled
      | |- settled _ (Game.on_enemy _) => apply on_enemy_quiet; solve [calm_auto]
      | |- settled _ Game.player_attacks => apply player_attacks_quiet
      | |- settled _ (Game.use_skill _) => apply use_skill_quiet
      | |- settled _ (IO.write _) => apply io_write_quiet
      | |- settled _ (on_snd _) => apply on_io_settled
      | |- settled _ (on_fst _) => apply beside_io_quiet; solve [calm_auto]
      end
    | settled_step
    | progress autounfold with fuel ].

#[local] Hint Unfold
  PlayerFarm.on_player PlayerFarm.on_enemy PlayerFarm.on_io
  PlayerFarm.skill_increase_max_hp PlayerFarm.skill_blazing_corn
  PlayerFarm.skill_rain_dance_buffed PlayerFarm.skill_stampede
  PlayerFarm.skill_stampede_buffed PlayerFarm.skill_concussive_seed
  PlayerFarm.skill_sap_burst PlayerFarm.use
  Game.scale_attack_power Game.tick_cooldowns Game.drop_fragment Game.update_player
  Game.write_purse Game.gold_tip Game.buy_tonic Game.buy_attack Game.buy_gold
  Game.plant_seed Game.buy_seed Game.event_scale Game.scaled_percent Game.draw
  Game.gain_coins Game.damage_scaled Game.player_name Game.console_input : fuel.

Lemma add_new_skill_quiet : settled false (PlayerFarm.add_new_skill (R := R)).
Proof. unfold PlayerFarm.add_new_skill. settled_with fail. Qed.

Lemma use_quiet (skill : Skill.t) : settled false (PlayerFarm.use (R := R) skill).
Proof. settled_with fail. Qed.

(** *** A turn of a battle reads a line *)

Lemma offer_boss_passive_quiet (boss : Enemy.t) :
  settled false (Game.offer_boss_passive (R := R) boss).
Proof. unfold Game.offer_boss_passive. settled_with fail. Qed.

Lemma handle_skill_quiet : settled false (Game.handle_skill (R := R)).
Proof. unfold Game.handle_skill. settled_with ltac:(known_at @PlayerFarm.use use_quiet). Qed.

Lemma show_options_reads : settled true (Game.show_options (R := R)).
Proof.
  unfold Game.show_options.
  apply reads_bind_then; [settled_with fail | intros _].
  apply reads_bind_then; [settled_with fail | intros _].
  apply reads_bind_first; [apply on_game_settled, prompt_reads | intros line].
  settled_with ltac:(known_at @Game.handle_skill handle_skill_quiet).
Qed.

Lemma gimmick_quiet : settled false (Game.maybe_trigger_endless_gimmick (R := R)).
Proof. unfold Game.maybe_trigger_endless_gimmick. settled_with fail. Qed.

Lemma escalate_quiet : settled false (Game.escalate (R := R)).
Proof. unfold Game.escalate. settled_with fail. Qed.

Lemma enemy_action_quiet : settled false (Game.enemy_action (R := R)).
Proof. unfold Game.enemy_action. settled_with fail. Qed.

Lemma award_quiet (enemy : Enemy.t) : settled false (Game.award (R := R) enemy).
Proof. unfold Game.award. settled_with ltac:(known_at @Game.offer_boss_passive offer_boss_passive_quiet). Qed.

Lemma battle_turn_reads : settled true (Game.battle_turn (R := R)).
Proof.
  unfold Game.battle_turn.
  apply reads_bind_then; [settled_with fail | intros _].
  apply reads_bind_then; [apply escalate_quiet | intros _].
  apply reads_bind_then; [settled_with fail | intros [g enemy]].
  apply reads_bind_then; [settled_with fail | intros p].
  apply reads_bind_then; [settled_with fail | intros _].
  apply reads_bind_then; [settled_with fail | intros _].
  apply reads_bind_first; [apply show_options_reads | intros _].
  settled_with ltac:(first [ known_at @Game.maybe_trigger_endless_gimmick gimmick_quiet
                           | known_at @Game.enemy_action enemy_action_quiet
                           | known_at @Game.award award_quiet ]).
Qed.

(** The loop of [_battle], one pass unfolded. *)
Lemma battle_loop_unfold (fuel : nat) (s : Game.t R * Enemy.t) :
  Game.battle_loop fuel s =
  match Game.player (fst s) with
  | None => (Raise AttributeError, s)
  | Some p =>
      if PlayerFarm.is_alive p && Enemy.is_alive (snd s) then
        match fuel with
        | O => (Raise OutOfFuel, s)
        | S fuel' => bind Game.battle_turn (fun _ => Game.battle_loop fuel') s
        end
      else (Ok tt, s)
  end.
Proof.
  destruct s as [g e]. cbn [fst snd].
  destruct fuel; cbn [Game.battle_loop];
    unfold bind at 1, gets at 1, id; unfold bind at 1, Game.on_game, on_fst, zoom,
      Game.the_player; cbn [fst snd];
    destruct (Game.player g) as [p|]; [|reflexivity| |reflexivity];
    destruct (PlayerFarm.is_alive p && Enemy.is_alive e); reflexivity.
Qed.

(** With more fuel than the script has lines the loop does not run out:
    every pass reads a line, or raises [EOFError]. *)
Lemma battle_loop_fuelled (fuel : nat) (s : Game.t R * Enemy.t) :
  (script_left s < fuel)%nat ->
  match Game.battle_loop fuel s with
  | (Ok _, s') => no_later false s' s
  | (Raise e, _) => e <> OutOfFuel
  end.
Proof.
  revert s. induction fuel as [|fuel IH]; intros s Hs; [lia|].
  rewrite battle_loop_unfold.
  destruct (Game.player (fst s)) as [p|]; [|discriminate].
  destruct (PlayerFarm.is_alive p && Enemy.is_alive (snd s)); [|apply no_later_refl].
  unfold bind. pose proof (battle_turn_reads s) as Ht.
  destruct (Game.battle_turn s) as [[[]|e] s1]; [|exact Ht].
  destruct Ht as [Hw Hl]. specialize (IH s1 ltac:(lia)).
  destruct (Game.battle_loop fuel s1) as [[[]|e] s2]; [|exact IH].
  destruct IH as [Hw' Hl']. split; [congruence | lia].
Qed.

(** [_battle] as a whole. *)
Lemma battle_unfold (enemy : Enemy.t) (g : Game.t R) :
  Game.battle enemy g =
  match Game.player g with
  | None => (Raise AssertionError, g)
  | Some _ =>
      let g0 := Game.set_turn_count 0 g in
      let '(r, (g', _)) := Game.battle_loop (S (script_left g0)) (g0, enemy) in (r, g')
  end.
Proof.
  unfold Game.battle, bind, Game.assert_player, modify.
  destruct (Game.player g); reflexivity.
Qed.

Lemma battle_quiet (enemy : Enemy.t) : settled false (Game.battle (R := R) enemy).
Proof.
  intros g. rewrite battle_unfold. destruct (Game.player g) as [p|]; [|discriminate].
  cbv zeta.
  pose proof (battle_loop_fuelled (S (script_left (Game.set_turn_count 0 g)))
                (Game.set_turn_count 0 g, enemy) (Nat.lt_succ_diag_r _)) as Hl.
  destruct (Game.battle_loop _ _) as [[[]|e] [g' e']]; [|exact Hl].
  destruct Hl as [Hw Hl]. split; [exact Hw | exact Hl].
Qed.

(** *** The shop and the menu read a line at every visit *)

(** A loop that visits until the visit says to stop, on fuel: with more
    fuel than the script has lines it does not run out, when every visit
    reads a line. *)
Lemma visits_fuelled {S : Type} `{Gauge S} (visit : M S bool) (loop : nat -> M S unit) :
  loop O = raise OutOfFuel ->
  (forall fuel, loop (Datatypes.S fuel) =
                bind visit (fun again => if again then loop fuel else ret tt)) ->
  settled true visit ->
  forall (fuel : nat) (s : S),
    (script_left s < fuel)%nat ->
    match loop fuel s with
    | (Ok _, s') => no_later false s' s
    | (Raise e, _) => e <> OutOfFuel
    end.
Proof.
  intros _ Hstep Hvisit fuel. induction fuel as [|fuel IH]; intros s Hs; [lia|].
  rewrite Hstep. unfold bind. specialize (Hvisit s).
  destruct (visit s) as [[again|e] s1]; [|exact Hvisit].
  destruct Hvisit as [Hw Hl]. destruct again.
  - specialize (IH s1 ltac:(lia)).
    destruct (loop fuel s1) as [[[]|e] s2]; [|exact IH].
    destruct IH as [Hw' Hl']. split; [congruence | lia].
  - split; [exact Hw | lia].
Qed.

Lemma activate_fragment_quiet (coins_cost gold_cost : Z) :
  settled false (Game.activate_fragment (R := R) coins_cost gold_cost).
Proof. unfold Game.activate_fragment. settled_with ltac:(known_at @PlayerFarm.add_new_skill add_new_skill_quiet). Qed.

Lemma shop_visit_reads : settled true (Game.shop_visit (R := R)).
Proof.
  unfold Game.shop_visit.
  apply reads_bind_then; [settled_with fail | intros g].
  apply reads_bind_then; [settled_with fail | intros p].
  cbv zeta. destruct (PlayerFarm.konami_activation_cost _ _) as [coins_cost gold_cost].
  apply reads_bind_then; [settled_with fail | intros _].
  apply reads_bind_first; [apply prompt_reads | intros line].
  settled_with ltac:(known_at @Game.activate_fragment activate_fragment_quiet).
Qed.

Lemma open_shop_quiet : settled false (Game.open_shop (R := R)).
Proof.
  intros g. unfold Game.open_shop, bind, Game.assert_player, gets, id.
  destruct (Game.player g) as [p|]; [|discriminate].
  apply (visits_fuelled Game.shop_visit Game.shop_loop);
    [reflexivity | reflexivity | apply shop_visit_reads | apply Nat.lt_succ_diag_r].
Qed.

#[local] Hint Unfold
  Game.event_mysterious_merchant Game.event_lightning_storm Game.event_lost_cow
  Game.event_strange_seed Game.event_trap Game.event_wandering_bard
  Game.event_locust_swarm Game.event_irrigation_boom Game.event_moonlit_harvest
  Game.event_butterfly_bloom Game.event_soggy_furrows Game.event_cinder_drift
  Game.event_charred_fence Game.event_gravel_gust Game.event_rusted_plow
  Game.event_bad_event Game.intro Game.corrode_fragments Game.strip_temp_bonus
  Game.prompt_endless_mode Game.enter_area_if_needed : fuel.

(** *** Events and the story *)

Lemma apply_event_quiet (event : string) : settled false (Game.apply_event (R := R) event).
Proof.
  unfold Game.apply_event.
  destruct (find _ _) as [[name handler]|] eqn:Hfind; [|apply settled_ret].
  apply find_some in Hfind as [Hin _]. unfold Game.event_map in Hin.
  repeat (destruct Hin as [[= <- <-]|Hin];
          [settled_with ltac:(known_at @PlayerFarm.add_new_skill add_new_skill_quiet)|]).
  destruct Hin.
Qed.

Lemma trigger_random_event_quiet : settled false (Game.trigger_random_event (R := R)).
Proof. unfold Game.trigger_random_event. settled_with ltac:(known_at @Game.apply_event apply_event_quiet). Qed.

Lemma story_arc_quiet (wave : Z) : settled false (Game.story_arc (R := R) wave).
Proof.
  unfold Game.story_arc.
  settled_with ltac:(first [ known_at @PlayerFarm.add_new_skill add_new_skill_quiet
                           | known_at @Game.trigger_random_event trigger_random_event_quiet ]).
Qed.

Lemma play_wave_quiet : settled false (Game.play_wave (R := R)).
Proof.
  unfold Game.play_wave.
  settled_with ltac:(first [ known_at @Game.story_arc story_arc_quiet
                           | known_at @Game.open_shop open_shop_quiet
                           | known_at @Game.battle battle_quiet ]).
Qed.

Lemma menu_visit_reads : settled true (Game.menu_visit (R := R)).
Proof.
  unfold Game.menu_visit.
  do 4 (apply reads_bind_then; [settled_with fail | intros _]).
  apply reads_bind_first; [apply prompt_reads | intros line].
  settled_with fail.
Qed.

Lemma menu_loop_fuelled (fuel : nat) (g : Game.t R) :
  (script_left g < fuel)%nat ->
  match Game.menu_loop fuel g with
  | (Ok _, g') => no_later false g' g
  | (Raise e, _) => e <> OutOfFuel
  end.
Proof.
  apply (visits_fuelled Game.menu_visit Game.menu_loop);
    [reflexivity | reflexivity | apply menu_visit_reads].
Qed.

(** *** A wave reads a line, stops the session, or leaves the player down *)

Ltac gauge_facts :=
  unfold no_later in *;
  cbn [script_left wave_of game_gauge battle_gauge io_gauge with_io_gauge fst snd] in *.

Lemma advances_after {A B : Type} (m : M (Game.t R) A) (k : A -> M (Game.t R) B) :
  settled false m -> (forall a, advances (k a)) -> advances (bind m k).
Proof.
  intros Hm Hk g Hw. unfold bind. specialize (Hm g).
  destruct (m g) as [[a|e] g1]; [|exact Hm].
  assert (Hw1 : 1 <= Game.wave g1) by (gauge_facts; lia).
  specialize (Hk a g1 Hw1).
  destruct (k a g1) as [[b|e] g2]; [|exact Hk].
  destruct Hk as [Hk Hor]. gauge_facts. split; [split; lia|].
  destruct Hor as [Hlt|Hor]; [left; lia | right; exact Hor].
Qed.

Lemma advances_gets {B : Type} (k : Game.t R -> M (Game.t R) B) :
  (forall g, 1 <= Game.wave g -> advances (k g)) -> advances (bind (gets id) k).
Proof. intros Hk g Hw. exact (Hk g Hw g Hw). Qed.

Lemma advances_or_stops (m : M (Game.t R) bool) (rest : M (Game.t R) unit) :
  settled false m -> stops_when_false m -> advances rest ->
  advances (bind m (fun go_on => if negb go_on then ret tt else rest)).
Proof.
  intros Hm Hs Hr g Hw. unfold bind. specialize (Hm g). specialize (Hs g).
  destruct (m g) as [[[|]|e] g1]; cbn [negb]; [| |exact Hm].
  - assert (Hw1 : 1 <= Game.wave g1) by (gauge_facts; lia).
    specialize (Hr g1 Hw1). destruct (rest g1) as [[[]|e] g2]; [|exact Hr].
    destruct Hr as [Hr Hor]. gauge_facts. split; [split; lia|].
    destruct Hor as [Hlt|Hor]; [left; lia | right; exact Hor].
  - split; [exact Hm | right; left; exact Hs].
Qed.

(** From the first wave on, what a wave spawns is alive. *)
Lemma spawn_alive (g : Game.t R) : 1 <= Game.wave g -> Enemy.is_alive (Game.spawn g) = true.
Proof.
  intros Hw. unfold Game.spawn, STORY_END_WAVE.
  assert (Hm : Enemy.is_alive (Enemy.monster (Game.wave g)) = true)
    by (apply Z.ltb_lt; cbn; lia).
  assert (Hb : Enemy.is_alive (Enemy.boss (Game.wave g)) = true).
  { unfold Enemy.boss. destruct (Game.wave g <=? 10); [|destruct (Game.wave g <=? 30)];
      apply Z.ltb_lt; cbn; lia. }
  assert (Hup : forall e hp atk, Enemy.is_alive e = true -> 0 <= hp ->
            Enemy.is_alive
              (Enemy.set_farm
                 (Farm.mk (Farm.name (Enemy.farm e)) (Farm.max_hp (Enemy.farm e) + hp)
                    (Farm.health (Enemy.farm e) + hp) (Farm.attack_power (Enemy.farm e) + atk))
                 e) = true).
  { intros e hp atk He Hhp. apply Z.ltb_lt in He. apply Z.ltb_lt. cbn. lia. }
  destruct (Game.wave g mod 5 =? 0), (Game.endless_mode g); try assumption.
  - destruct (Enemy.is_boss _); apply Hup; try assumption; lia.
  - destruct (Enemy.is_boss _); apply Hup; try assumption; lia.
Qed.

Lemma strip_quiet : settled false (Game.strip_temp_bonus (R := R)).
Proof. settled_with fail. Qed.

(** A player who is down stays down when the wave's bonus is taken back. *)
Lemma strip_keeps_down (g : Game.t R) :
  player_down g ->
  match Game.strip_temp_bonus g with
  | (Ok _, g') => player_down g'
  | (Raise _, _) => True
  end.
Proof.
  unfold player_down, Game.strip_temp_bonus.
  destruct g as [io rng wave km used pl tc em ca sr]. destruct pl as [p|]; [|intros _; exact I].
  destruct p as [[pn pmh ph pa] sk co gd prng tt' tr cds pas kf kr kp gts msg tab iat iab ish dp].
  run_game. intros Hdown. destruct (0 <? tab); run_game; exact Hdown.
Qed.

(** A battle against an enemy that is alive reads a line, unless the
    player is down already. *)
Lemma battle_advances (enemy : Enemy.t) (g : Game.t R) :
  Enemy.is_alive enemy = true ->
  match Game.battle enemy g with
  | (Ok _, g') =>
      no_later false g' g /\ ((script_left g' < script_left g)%nat \/ player_down g')
  | (Raise e, _) => e <> OutOfFuel
  end.
Proof.
  intros He. rewrite battle_unfold.
  destruct (Game.player g) as [p|] eqn:Hp; [|discriminate].
  cbv zeta. rewrite battle_loop_unfold. cbn [fst snd].
  replace (Game.player (Game.set_turn_count 0 g)) with (Some p)
    by (destruct g; symmetry; exact Hp).
  rewrite He, andb_true_r.
  destruct (PlayerFarm.is_alive p) eqn:Ha.
  - unfold bind.
    pose proof (battle_turn_reads (Game.set_turn_count 0 g, enemy)) as Ht.
    destruct (Game.battle_turn _) as [[[]|e] s1]; [|destruct s1; exact Ht].
    pose proof (battle_loop_fuelled (script_left (Game.set_turn_count 0 g)) s1
                  (proj2 Ht)) as Hl.
    destruct (Game.battle_loop _ s1) as [[[]|e] [g2 e2]]; [|exact Hl].
    gauge_facts. destruct g. cbn in *. split; [split; lia | left; lia].
  - split.
    + split; [destruct g; reflexivity | destruct g; apply Nat.le_refl].
    + right. unfold player_down.
      replace (Game.player (Game.set_turn_count 0 g)) with (Some p)
        by (destruct g; symmetry; exact Hp).
      exact Ha.
Qed.

Lemma fight_advances (enemy : Enemy.t) :
  Enemy.is_alive enemy = true ->
  advances (bind (Game.battle (R := R) enemy) (fun _ => Game.strip_temp_bonus)).
Proof.
  intros He g _. unfold bind.
  pose proof (battle_advances enemy g He) as Hb.
  destruct (Game.battle enemy g) as [[[]|e] g1]; [|exact Hb].
  destruct Hb as [Hb Hor].
  pose proof (strip_quiet g1) as Hs. pose proof (strip_keeps_down g1) as Hd.
  destruct (Game.strip_temp_bonus g1) as [[[]|e] g2]; [|exact Hs].
  gauge_facts. split; [split; lia|].
  destruct Hor as [Hlt|Hdown]; [left; lia | right; right; exact (Hd Hdown)].
Qed.

(** The choice at the end of the story stops the session or goes on. *)
Lemma play_wave_advances : advances (Game.play_wave (R := R)).
Proof.
  unfold Game.play_wave.
  apply advances_after; [apply assert_player_quiet | intros _].
  apply advances_gets. intros g0 _.
  apply advances_or_stops.
  - settled_with fail.
  - intros g. destruct (negb (Game.endless_mode g0) && (STORY_END_WAVE <? Game.wave g0));
      [|exact I].
    unfold bind at 1.
    destruct (Game.prompt_endless_mode g) as [[[|]|e] g1]; cbn [negb]; [exact I| |exact I].
    destruct g1. reflexivity.
  - apply advances_after; [settled_with fail | intros _].
    apply advances_gets. intros g1 Hw1. cbv zeta.
    pose proof (spawn_alive g1 Hw1) as He.
    apply advances_after; [settled_with fail | intros _].
    apply advances_after; [apply story_arc_quiet | intros _].
    apply advances_after; [settled_with fail | intros _].
    apply advances_after;
      [settled_with ltac:(known_at @Game.open_shop open_shop_quiet) | intros _].
    apply advances_after; [settled_with fail | intros _].
    apply fight_advances, He.
Qed.

(** *** The session *)

(** The loop of [start], one pass unfolded. *)
Lemma wave_loop_unfold (fuel : nat) (g : Game.t R) :
  Game.wave_loop fuel g =
  match Game.player g with
  | None => (Raise AttributeError, g)
  | Some p =>
      if PlayerFarm.is_alive p && negb (Game.stop_requested g) then
        match fuel with
        | O => (Raise OutOfFuel, g)
        | S fuel' =>
            bind Game.play_wave (fun _ =>
              let* g := gets id in
              let* p := Game.the_player in
              if Game.stop_requested g then ret tt
              else if negb (PlayerFarm.is_alive p) then ret tt
              else
                Game.on_player PlayerFarm.wave_clear_upgrade ;;;
                modify (fun g => Game.set_wave (Game.wave g + 1) g) ;;;
                Game.wave_loop fuel') g
        end
      else (Ok tt, g)
  end.
Proof.
  destruct fuel; cbn [Game.wave_loop];
    unfold bind at 1, gets at 1, id; unfold bind at 1, Game.the_player;
    destruct (Game.player g) as [p|]; [|reflexivity| |reflexivity];
    destruct (PlayerFarm.is_alive p && negb (Game.stop_requested g)); reflexivity.
Qed.

(** From the first wave on and with more fuel than the script has lines,
    the loop of waves does not run out. *)
Lemma wave_loop_fuelled (fuel : nat) (g : Game.t R) :
  1 <= Game.wave g -> (script_left g < fuel)%nat -> sober (fst (Game.wave_loop fuel g)).
Proof.
  revert g. induction fuel as [|fuel IH]; intros g Hw Hs; [lia|].
  rewrite wave_loop_unfold.
  destruct (Game.player g) as [p|]; [|cbn; discriminate].
  destruct (PlayerFarm.is_alive p && negb (Game.stop_requested g)); [|exact I].
  unfold bind at 1. pose proof (play_wave_advances g Hw) as Hp.
  destruct (Game.play_wave g) as [[[]|e] g1]; [|exact Hp].
  destruct Hp as [Hp Hor].
  unfold bind at 1, gets at 1, id. unfold bind at 1, Game.the_player.
  destruct (Game.player g1) as [p1|] eqn:Hp1; [|cbn; discriminate].
  destruct (Game.stop_requested g1) eqn:Hstop; [exact I|].
  destruct (PlayerFarm.is_alive p1) eqn:Ha1; cbn [negb]; [|exact I].
  assert (Hlt : (script_left g1 < script_left g)%nat).
  { destruct Hor as [Hlt|[Hstop'|Hdown]]; [exact Hlt | congruence |].
    unfold player_down in Hdown. rewrite Hp1 in Hdown. congruence. }
  unfold bind at 1.
  pose proof (on_player_quiet PlayerFarm.wave_clear_upgrade ltac:(calm_auto) g1)
    as Hup.
  destruct (Game.on_player PlayerFarm.wave_clear_upgrade g1) as [[[]|e] g2]; [|exact Hup].
  unfold bind at 1, modify at 1.
  gauge_facts. apply IH; destruct g2; cbn in *; lia.
Qed.

(** [_battle] and [_open_shop] never run out of fuel. *)
Lemma battle_never_out_of_fuel (enemy : Enemy.t) (g : Game.t R) :
  fst (Game.battle enemy g) <> Raise OutOfFuel.
Proof. apply sober_not_out_of_fuel, (settled_sober false), battle_quiet. Qed.

Lemma open_shop_never_out_of_fuel (g : Game.t R) :
  fst (Game.open_shop g) <> Raise OutOfFuel.
Proof. apply sober_not_out_of_fuel, (settled_sober false), open_shop_quiet. Qed.

(** Neither does a session that starts at a wave that is at least the
    first, whatever the script and the draws. *)
Lemma start_never_out_of_fuel (entropy : R) (g : Game.t R) :
  1 <= Game.wave g -> fst (Game.start entropy g) <> Raise OutOfFuel.
Proof.
  intros Hw. apply sober_not_out_of_fuel. unfold Game.start.
  apply sober_after; [settled_with fail | intros _ g1 H1].
  unfold bind at 1, gets at 1, id. cbv zeta.
  unfold bind at 1.
  pose proof (menu_loop_fuelled (S (script_left g1)) g1 (Nat.lt_succ_diag_r _)) as Hm.
  cbn [script_left game_gauge] in Hm.
  destruct (Game.menu_loop _ g1) as [[[]|e] g2]; [|exact Hm].
  apply sober_after; [settled_with fail | intros _ g3 H3].
  apply sober_after; [settled_with fail | intros line g4 H4].
  apply sober_after; [settled_with fail | intros _ g5 H5].
  apply sober_after; [settled_with fail | intros _ g6 H6].
  unfold bind at 1, except_interrupt. unfold bind at 1.
  pose proof (wave_loop_fuelled (S (length (IO.script (Game.io g1)))) g6) as Hl.
  gauge_facts. specialize (Hl ltac:(lia) ltac:(lia)).
  destruct (Game.wave_loop _ g6) as [[[]|e] g7]; cbn [fst] in Hl.
  - apply (settled_sober false). settled_with fail.
  - destruct e; try exact Hl.
    cbv beta iota delta [bind Game.write zoom IO.write modify ret negb fst sober].
    exact I.
Qed.

Lemma session_never_out_of_fuel (io : IO.t) (rng entropy : R) :
  fst (Game.start entropy (Game.init io rng)) <> Raise OutOfFuel.
Proof. apply start_never_out_of_fuel. cbn. lia. Qed.

End WithGenerator.

End FuelFacts.

(** ** More on the tracker *)

Module TrackerFacts.
Import Props.

Section WithGenerator.
Context {R : Type} `{RandomGen R}.

(** One submission of the whole sequence to a tracker without a cap, from
    an empty buffer. *)
Lemma unlimited_submission (m u : Z) (r : R) :
  m <= 0 ->
  push_all KONAMI_SEQUENCE
    (KonamiManager.mk KONAMI_SEQUENCE [] m u false KonamiManager.HINTS, r) =
  (repeat (Ok false) 9 ++ [Ok true],
   (KonamiManager.mk KONAMI_SEQUENCE [] m (u + 1) false KonamiManager.HINTS, r)).
Proof.
  intros Hm. destruct m as [|p|p]; [| lia |]; vm_compute; reflexivity.
Qed.

Lemma unlimited_resubmitted (m : Z) (n : nat) (r : R) :
  m <= 0 ->
  resubmitted n (KonamiManager.init KONAMI_SEQUENCE m, r) =
  (KonamiManager.mk KONAMI_SEQUENCE [] m (Z.of_nat n) false KonamiManager.HINTS, r).
Proof.
  intros Hm. induction n as [|n IH]; [reflexivity|].
  unfold resubmitted in *. rewrite Nat.iter_succ, IH, unlimited_submission by exact Hm.
  cbn [snd]. do 3 f_equal. lia.
Qed.

(** X1.  A tracker built with [max_uses <= 0], as the one of a [Game] is,
    has no cap: however many times the whole sequence was submitted
    before, the next submission answers [False] nine times and then
    [True], leaves the tracker unlocked with one use more and an empty
    buffer, draws nothing from the generator, and [unlocks_remaining]
    stays at 999999. *)
Theorem unlimited_tracker_always_unlocks (m : Z) (n : nat) (r : R) :
  m <= 0 ->
  let s := resubmitted n (KonamiManager.init KONAMI_SEQUENCE m, r) in
  push_all KONAMI_SEQUENCE s =
    (repeat (Ok false) 9 ++ [Ok true],
     (KonamiManager.mk KONAMI_SEQUENCE [] m (Z.of_nat n + 1) false KonamiManager.HINTS, r)) /\
  KonamiManager.unlocks_remaining (fst (snd (push_all KONAMI_SEQUENCE s))) = 999999.
Proof.
  intros Hm. cbv zeta. rewrite unlimited_resubmitted, unlimited_submission by exact Hm.
  split; [reflexivity|]. cbn [fst snd]. unfold KonamiManager.unlocks_remaining.
  cbn [KonamiManager.max_uses]. destruct (m <=? 0) eqn:E; [reflexivity|].
  apply Z.leb_gt in E. lia.
Qed.

(** X2.  The rolling buffer never outgrows the sequence: a tracker whose
    buffer is no longer than its sequence keeps it so through [push],
    whatever the token and whether [push] returns or raises; the sequence
    itself is never changed, and after a [True] the buffer is empty. *)
Theorem push_keeps_buffer_short (value : string) (k : KonamiManager.t) (r : R) :
  (length (KonamiManager.buffer k) <= length (KonamiManager.sequence k))%nat ->
  let outcome := fst (KonamiManager.push value (k, r)) in
  let k' := fst (snd (KonamiManager.push value (k, r))) in
  KonamiManager.sequence k' = KonamiManager.sequence k /\
  (length (KonamiManager.buffer k') <= length (KonamiManager.sequence k'))%nat /\
  (outcome = Ok true -> KonamiManager.buffer k' = []).
Proof.
  intros Hb. cbv zeta. unfold KonamiManager.push.
  destruct (Py.nonempty (Py.strip (Py.lower value))); cbn [negb];
    [|cbn; repeat split; [exact Hb | discriminate]].
  set (v := Py.strip (Py.lower value)).
  assert (Hrem : let k1 := snd (KonamiManager.remember v k) in
            KonamiManager.sequence k1 = KonamiManager.sequence k /\
            (length (KonamiManager.buffer k1) <= length (KonamiManager.sequence k1))%nat).
  { destruct k as [seq buf mu u l hs]. cbn -[Nat.ltb] in *.
    destruct (length seq <? length (buf ++ [v]))%nat eqn:E; cbn -[Nat.ltb].
    - split; [reflexivity|]. destruct buf as [|b buf]; cbn in *; rewrite ?length_app; cbn; lia.
    - split; [reflexivity|]. apply Nat.ltb_ge in E. exact E. }
  cbv zeta in Hrem. destruct Hrem as [Hseq Hlen].
  unfold_monad. rewrite KonamiFacts.remember_returns. cbn [fst snd].
  destruct (snd (KonamiManager.remember v k)) as [seq buf mu u l hs].
  cbn [KonamiManager.sequence KonamiManager.buffer] in Hseq, Hlen.
  destruct (bool_decide _ && KonamiManager.usable _); cbn [negb andb].
  - unfold KonamiManager.consume. unfold_monad.
    repeat (case_inner; cbn [fst snd]); cbn; repeat split; (assumption || lia || auto).
  - unfold Random.random, Random.choice, Random.randbelow. unfold_monad.
    repeat (case_inner; cbn [fst snd]); cbn; repeat split;
      (assumption || discriminate || auto).
Qed.


End WithGenerator.

Lemma unlimited_tracker_always_unlocks_witness :
  push_all KONAMI_SEQUENCE
    (resubmitted 2 (KonamiManager.init KONAMI_SEQUENCE 0, ([] : Tape.t))) =
    (repeat (Ok false) 9 ++ [Ok true],
     (KonamiManager.mk KONAMI_SEQUENCE [] 0 (Z.of_nat 2 + 1) false KonamiManager.HINTS,
      ([] : Tape.t))) /\
  KonamiManager.unlocks_remaining
    (fst (snd (push_all KONAMI_SEQUENCE
                 (resubmitted 2 (KonamiManager.init KONAMI_SEQUENCE 0, ([] : Tape.t))))))
    = 999999.
Proof.
  apply (unlimited_tracker_always_unlocks (R := Tape.t) 0 2 []). lia.
Defined.

Lemma push_keeps_buffer_short_witness :
  KonamiManager.sequence
    (fst (snd (KonamiManager.push "up" (KonamiManager.init KONAMI_SEQUENCE 0, ([] : Tape.t)))))
    = KONAMI_SEQUENCE /\
  (length (KonamiManager.buffer
     (fst (snd (KonamiManager.push "up"
                  (KonamiManager.init KONAMI_SEQUENCE 0, ([] : Tape.t))))))
   <= length (KonamiManager.sequence
     (fst (snd (KonamiManager.push "up"
                  (KonamiManager.init KONAMI_SEQUENCE 0, ([] : Tape.t)))))))%nat /\
  (fst (KonamiManager.push "up" (KonamiManager.init KONAMI_SEQUENCE 0, ([] : Tape.t)))
     = Ok true ->
   KonamiManager.buffer
     (fst (snd (KonamiManager.push "up"
                  (KonamiManager.init KONAMI_SEQUENCE 0, ([] : Tape.t))))) = []).
Proof.
  apply (push_keeps_buffer_short (R := Tape.t) "up"
           (KonamiManager.init KONAMI_SEQUENCE 0) []).
  cbn. lia.
Defined.

End TrackerFacts.

(** ** Damage, skills and cooldowns *)

Module CombatFacts.
Import Props.

Section WithGenerator.
Context {R : Type} `{RandomGen R}.

(** The player's [take_damage] in closed form, for a shield and a damage
    that are not negative. *)
Lemma player_take_damage_closed (p : PlayerFarm.t R) (D : Z) :
  0 <= PlayerFarm.irrigation_shield p -> 0 <= D ->
  let absorbed := Z.min D (PlayerFarm.irrigation_shield p) in
  PlayerFarm.take_damage D p =
  (Ok (D - absorbed),
   PlayerFarm.set_health (Z.max 0 (PlayerFarm.health p - (D - absorbed)))
     (PlayerFarm.set_irrigation_shield (PlayerFarm.irrigation_shield p - absorbed) p)).
Proof.
  intros HS HD. cbv zeta. rewrite FarmFacts.player_take_damage_cases.
  destruct p as [[pn pmh ph pa] sk co gd prng tt' tr cds pas kf kr kp gts msg tab iat iab ish dp].
  cbn in HS. run_game.
  destruct (Z.ltb_spec 0 ish), (Z.ltb_spec 0 D); cbn [andb].
  all: repeat lazymatch goal with
              | |- @eq Z _ _ => lia
              | |- _ => progress f_equal
              end.
Qed.

(** X4.  Hits add up.  For a player whose shield is not negative, taking
    [D1] and then [D2] leaves exactly the player that one hit of [D1 + D2]
    leaves, and the two returned values (the damage that got past the
    shield) sum to the value the single hit returns. *)
Theorem hits_add_up (p : PlayerFarm.t R) (D1 D2 : Z) :
  0 <= PlayerFarm.irrigation_shield p -> 0 <= D1 -> 0 <= D2 ->
  let first := PlayerFarm.take_damage D1 p in
  let second := PlayerFarm.take_damage D2 (snd first) in
  let both := PlayerFarm.take_damage (D1 + D2) p in
  snd second = snd both /\
  exists a1 a2, fst first = Ok a1 /\ fst second = Ok a2 /\ fst both = Ok (a1 + a2).
Proof.
  intros HS H1 H2. cbv zeta.
  rewrite (player_take_damage_closed p D1), (player_take_damage_closed p (D1 + D2))
    by lia.
  cbn [fst snd]. rewrite player_take_damage_closed; [|destruct p; cbn in *; lia|lia].
  cbn [fst snd].
  destruct p as [[pn pmh ph pa] sk co gd prng tt' tr cds pas kf kr kp gts msg tab iat iab ish dp].
  cbn in HS. run_game. split.
  - repeat lazymatch goal with
           | |- @eq Z _ _ => lia
           | |- _ => progress f_equal
           end.
  - eexists _, _. split; [reflexivity|]. split; [reflexivity|]. f_equal. lia.
Qed.

(** What [round(n * x)] gives when it returns, for the factors the skills
    use. *)
Ltac rounded :=
  match goal with
  | |- context [match Py.round_product ?n ?x with _ => _ end] =>
      let a := fresh "a" in
      let E := fresh "E" in
      destruct (Py.round_product n x) as [a|] eqn:E;
      [apply FloatFacts.round_product_nonneg in E; [|lia|reflexivity]|]
  end.

(** X5.  No skill of the game takes hit points out of their range: with
    the player's and the target's hit points within [0, max_hp] and the
    player's attack power not negative, they are so again after any of the
    six skills, whether the skill returns or raises. *)
Theorem skills_keep_hp_in_range (skill : Skill.t) (p : PlayerFarm.t R) (e : Enemy.t)
    (io : IO.t) :
  In skill PlayerFarm.all_skills ->
  hp_in_range (PlayerFarm.farm p) ->
  hp_in_range (Enemy.farm e) ->
  0 <= PlayerFarm.attack_power p ->
  let s' := snd (PlayerFarm.use skill (p, e, io)) in
  hp_in_range (PlayerFarm.farm (fst (fst s'))) /\ hp_in_range (Enemy.farm (snd (fst s'))).
Proof.
  intros Hin Hp He Ha. cbv zeta. unfold hp_in_range in *.
  destruct p as [[pn pmh ph pa] sk co gd prng tt' tr cds pas kf kr kp gts msg tab iat iab ish dp].
  destruct e as [[fn fmh fh fa] bk br bs [bd|] bl]; destruct io as [w sc];
    cbn in Hp, He, Ha.
  all: unfold PlayerFarm.all_skills in Hin; cbn [In] in Hin.
  all: repeat (destruct Hin as [<-|Hin]); [..|destruct Hin];
    unfold PlayerFarm.use; cbn [Skill.effect_of];
    unfold PlayerFarm.skill_blazing_corn, PlayerFarm.skill_rain_dance_buffed,
      PlayerFarm.skill_stampede_buffed, PlayerFarm.skill_stampede,
      PlayerFarm.skill_increase_max_hp, PlayerFarm.skill_sap_burst,
      PlayerFarm.skill_concussive_seed, PlayerFarm.on_player, PlayerFarm.on_enemy,
      PlayerFarm.on_io, Farm.heal_percent, Farm.percent_amount;
    run_game; repeat (rounded; run_game); try lia.
  all: repeat match goal with
         | |- context [if ?b then _ else _] => destruct b; run_game
         end; lia.
Qed.

(** One tick of the cooldowns. *)
Lemma tick_cooldowns_returns (g : Game.t R) (p : PlayerFarm.t R) :
  Game.player g = Some p ->
  Game.tick_cooldowns g =
  (Ok tt,
   Game.set_player
     (Some (PlayerFarm.set_skill_cooldowns (omap Game.tick (PlayerFarm.skill_cooldowns p)) p))
     g).
Proof.
  intros Hp. unfold Game.tick_cooldowns, Game.on_player, modify. rewrite Hp. reflexivity.
Qed.

Lemma ticked_cooldown (name : string) (g : Game.t R) (p : PlayerFarm.t R) :
  Game.player g = Some p ->
  cooldown_of name (snd (Game.tick_cooldowns g)) = cooldown_of name g ≫= Game.tick /\
  exists p', Game.player (snd (Game.tick_cooldowns g)) = Some p'.
Proof.
  intros Hp. rewrite (tick_cooldowns_returns g p Hp). unfold cooldown_of. rewrite Hp.
  destruct g, p. cbn. split; [apply lookup_omap | eexists; reflexivity].
Qed.

(** X6.  A cooldown of [c] turns runs out after exactly [c] ticks: after
    [k] ticks of the battle loop the skill still has [c - k] turns to wait
    when [k < c], and from the [c]-th tick on it has no entry left, so it
    can be used again. *)
Theorem cooldown_runs_out (name : string) (c : Z) (k : nat) (g : Game.t R)
    (p : PlayerFarm.t R) :
  Game.player g = Some p ->
  PlayerFarm.skill_cooldowns p !! name = Some c ->
  0 < c ->
  cooldown_of name (ticked k g) = if Z.of_nat k <? c then Some (c - Z.of_nat k) else None.
Proof.
  intros Hp Hc Hpos.
  assert (Hk : cooldown_of name (ticked k g)
               = (if Z.of_nat k <? c then Some (c - Z.of_nat k) else None) /\
               exists p', Game.player (ticked k g) = Some p').
  { induction k as [|k [IH [p' Hp']]].
    - change (ticked 0 g) with g. split; [|exists p; exact Hp]. unfold cooldown_of.
      rewrite Hp, Hc. destruct (Z.ltb_spec (Z.of_nat 0) c); [f_equal; lia | lia].
    - unfold ticked in *. rewrite Nat.iter_succ.
      destruct (ticked_cooldown name _ p' Hp') as [Hstep Hex]. split; [|exact Hex].
      rewrite Hstep, IH.
      destruct (Z.ltb_spec (Z.of_nat k) c), (Z.ltb_spec (Z.of_nat (S k)) c);
        cbn; unfold Game.tick; try lia.
      + destruct (Z.ltb_spec 0 (c - Z.of_nat k)); [|lia].
        destruct (Z.eqb_spec (c - Z.of_nat k - 1) 0); [lia | f_equal; lia].
      + destruct (Z.ltb_spec 0 (c - Z.of_nat k)); [|lia].
        destruct (Z.eqb_spec (c - Z.of_nat k - 1) 0); [reflexivity | lia].
      + reflexivity. }
  exact (proj1 Hk).
Qed.

(** X7.  "Fortify Fence" never goes on cooldown.  Its cooldown is 9999,
    and [_handle_skill] records a cooldown only when it is below 9999: a
    player who picks the skill gains 25 max HP and 25 HP, and the
    cooldowns are as before, so the same answer works again on the next
    turn. *)
Theorem fortify_fence_never_cools_down (g : Game.t R) (e : Enemy.t) (p : PlayerFarm.t R)
    (line : string) (rest : list string) (n : Z) :
  Game.player g = Some p ->
  IO.script (Game.io g) = line :: rest ->
  Py.parse_int (Py.strip line) = Some n ->
  1 <= n ->
  PlayerFarm.skills p !! Z.to_nat (n - 1) = Some fortify_fence ->
  PlayerFarm.skill_cooldowns p !! "Fortify Fence"%string = None ->
  In fortify_fence PlayerFarm.all_skills /\
  Game.handle_skill (g, e) =
    (Ok tt,
     (Game.set_io
        (IO.mk (IO.written (Game.io g) ++
                  ["Available Skills:"%string] ++
                  Game.skill_menu (PlayerFarm.skill_cooldowns p) 1 (PlayerFarm.skills p) ++
                  ["ðŸ›¡ï¸ Fortify Fence raises Farm's max HP by 25."%string])
               rest)
        (Game.set_player
           (Some (PlayerFarm.set_health (PlayerFarm.health p + 25)
                    (PlayerFarm.set_max_hp (PlayerFarm.max_hp p + 25) p))) g),
      e)).
Proof.
  intros Hp Hs Hparse Hn Hskill Hcd.
  split; [cbn; auto 10|].
  destruct g as [[w sc] rng wave km used pl tc em ca sr]. cbn in Hp, Hs. subst pl sc.
  destruct p as [[pn pmh ph pa] sk co gd prng tt' tr cds pas kf kr kp gts msg tab iat iab ish dp].
  cbn in Hskill, Hcd.
  unfold Game.handle_skill. run_game.
  destruct sk as [|s0 sk']; [rewrite lookup_nil in Hskill; discriminate|].
  run_game. rewrite GameFacts.write_all_returns. run_game. rewrite Hparse.
  destruct (Z.leb_spec 0 (n - 1)); [|lia]. rewrite Hskill.
  unfold fortify_fence at 1 2. cbn [Skill.name Skill.cooldown]. rewrite Hcd.
  cbn [default from_option]. decide_tests.
  unfold Game.use_skill, PlayerFarm.use, fortify_fence.
  cbn [Skill.effect_of Skill.name Skill.cooldown].
  unfold PlayerFarm.skill_increase_max_hp, PlayerFarm.on_player, PlayerFarm.on_io.
  run_game. decide_tests. run_game.
  rewrite <- !app_assoc. reflexivity.
Qed.

(** X8.  A battle cannot go on without an answer: with the player and the
    enemy alive and no line left in the script, [_battle] starts its first
    turn, writes the status line and the choice of actions, and raises
    [EOFError] at the prompt, before anyone is hit. *)
Theorem battle_needs_an_answer (enemy : Enemy.t) (g : Game.t R) (p : PlayerFarm.t R) :
  Game.player g = Some p ->
  PlayerFarm.is_alive p = true ->
  Enemy.is_alive enemy = true ->
  IO.script (Game.io g) = [] ->
  let out := Game.battle enemy g in
  fst out = Raise EOFError /\
  IO.written (Game.io (snd out)) =
    IO.written (Game.io g) ++
    [status_line p enemy; "Choose action: [1] Attack  [2] Heal  [3] Skill"%string] /\
  Game.turn_count (snd out) = 1 /\
  (exists p', Game.player (snd out) = Some p' /\ PlayerFarm.farm p' = PlayerFarm.farm p).
Proof.
  intros Hp Ha He Hs. cbv zeta. rewrite FuelFacts.battle_unfold, Hp. cbv zeta.
  rewrite FuelFacts.battle_loop_unfold. cbn [fst snd].
  destruct g as [[w sc] rng wave km used pl tc em ca sr]. cbn in Hp, Hs. subst pl sc.
  destruct p as [[pn pmh ph pa] sk co gd prng tt' tr cds pas kf kr kp gts msg tab iat iab ish dp].
  destruct enemy as [[fn fmh fh fa] bk br bs bd bl].
  cbn in Ha, He. cbn [Game.player Game.set_turn_count]. run_game.
  rewrite Ha, He. cbn [andb length].
  unfold Game.battle_turn, Game.escalate, Game.tick_cooldowns, Game.show_options,
    Game.long_battle_threshold, Game.boss_threshold, status_line, Farm.display_hp.
  run_game. destruct bk; cbn [negb andb]; decide_tests; run_game.
  all: rewrite <- ?app_assoc; repeat split; eexists; split; reflexivity.
Qed.

End WithGenerator.

Lemma hits_add_up_witness :
  let first := PlayerFarm.take_damage 15 sample_player in
  let second := PlayerFarm.take_damage 30 (snd first) in
  let both := PlayerFarm.take_damage (15 + 30) sample_player in
  snd second = snd both /\
  exists a1 a2, fst first = Ok a1 /\ fst second = Ok a2 /\ fst both = Ok (a1 + a2).
Proof.
  apply (hits_add_up (R := Tape.t) sample_player 15 30); cbn; lia.
Defined.

Lemma skills_keep_hp_in_range_witness :
  let s' := snd (PlayerFarm.use (R := Tape.t) fortify_fence
                   (sample_player, Enemy.monster 1, IO.mk [] [])) in
  hp_in_range (PlayerFarm.farm (fst (fst s'))) /\ hp_in_range (Enemy.farm (snd (fst s'))).
Proof.
  apply (skills_keep_hp_in_range (R := Tape.t) fortify_fence sample_player
           (Enemy.monster 1) (IO.mk [] [])).
  - cbn. auto 10.
  - unfold hp_in_range. cbn. lia.
  - unfold hp_in_range. cbn. lia.
  - cbn. lia.
Defined.

Lemma cooldown_runs_out_witness :
  let p := PlayerFarm.set_skill_cooldowns {["Rain Dance"%string := 5]}
             (PlayerFarm.init "Farm" ([] : Tape.t)) in
  cooldown_of "Rain Dance" (ticked 3 (game_with p [] ([] : Tape.t)))
  = if Z.of_nat 3 <? 5 then Some (5 - Z.of_nat 3) else None.
Proof.
  apply (cooldown_runs_out (R := Tape.t) "Rain Dance" 5 3 _
           (PlayerFarm.set_skill_cooldowns {["Rain Dance"%string := 5]}
              (PlayerFarm.init "Farm" ([] : Tape.t)))).
  - reflexivity.
  - cbn. apply lookup_singleton_eq.
  - lia.
Defined.

Lemma fortify_fence_never_cools_down_witness :
  let p := PlayerFarm.set_skills [fortify_fence] (PlayerFarm.init "Farm" ([] : Tape.t)) in
  let g := game_with p ["1"; "1"]%string ([] : Tape.t) in
  let e := Enemy.monster 1 in
  In fortify_fence PlayerFarm.all_skills /\
  Game.handle_skill (g, e) =
    (Ok tt,
     (Game.set_io
        (IO.mk (IO.written (Game.io g) ++
                  ["Available Skills:"%string] ++
                  Game.skill_menu (PlayerFarm.skill_cooldowns p) 1 (PlayerFarm.skills p) ++
                  ["ðŸ›¡ï¸ Fortify Fence raises Farm's max HP by 25."%string])
               ["1"%string])
        (Game.set_player
           (Some (PlayerFarm.set_health (PlayerFarm.health p + 25)
                    (PlayerFarm.set_max_hp (PlayerFarm.max_hp p + 25) p))) g),
      e)).
Proof.
  apply (fortify_fence_never_cools_down (R := Tape.t) _ _
           (PlayerFarm.set_skills [fortify_fence] (PlayerFarm.init "Farm" ([] : Tape.t)))
           "1" ["1"%string] 1).
  - reflexivity.
  - reflexivity.
  - reflexivity.
  - lia.
  - reflexivity.
  - cbn. apply lookup_empty.
Defined.

Lemma battle_needs_an_answer_witness :
  let p := PlayerFarm.init "Farm" ([] : Tape.t) in
  let g := game_with p [] ([] : Tape.t) in
  let out := Game.battle (Enemy.monster 1) g in
  fst out = Raise EOFError /\
  IO.written (Game.io (snd out)) =
    IO.written (Game.io g) ++
    [status_line p (Enemy.monster 1);
     "Choose action: [1] Attack  [2] Heal  [3] Skill"%string] /\
  Game.turn_count (snd out) = 1 /\
  (exists p', Game.player (snd out) = Some p' /\ PlayerFarm.farm p' = PlayerFarm.farm p).
Proof.
  apply (battle_needs_an_answer (R := Tape.t) (Enemy.monster 1) _
           (PlayerFarm.init "Farm" ([] : Tape.t))); reflexivity.
Defined.

End CombatFacts.

(** ** Waves, areas and events *)

Module WaveFacts.
Import Props.

Section WithGenerator.
Context {R : Type} `{RandomGen R}.

(** X9.  What a wave spawns, from the first wave on: an enemy that is
    alive and at full health, with at least 112 hit points and a positive
    attack power, neither stunned nor weakened; a boss exactly on the waves
    that are multiples of five, and then one that carries a passive
    reward. *)
Theorem spawn_is_fit (g : Game.t R) :
  1 <= Game.wave g ->
  let e := Game.spawn g in
  Enemy.is_alive e = true /\
  Farm.health (Enemy.farm e) = Farm.max_hp (Enemy.farm e) /\
  112 <= Farm.health (Enemy.farm e) /\
  0 < Farm.attack_power (Enemy.farm e) /\
  Enemy.stunned e = false /\ Enemy.attack_debuff e = None /\
  Enemy.is_boss e = (Game.wave g mod 5 =? 0) /\
  (Enemy.is_boss e = true -> Enemy.passive_reward e <> None).
Proof.
  intros Hw. cbv zeta. unfold Game.spawn, STORY_END_WAVE, Enemy.boss, Enemy.monster.
  destruct (Game.wave g mod 5 =? 0), (Game.endless_mode g);
    cbn [Enemy.is_boss Enemy.kind_of Enemy.farm Farm.init];
    repeat match goal with
           | |- context [if ?b then _ else _] => destruct b
           end;
    cbn; unfold Enemy.is_alive, Farm.is_alive; cbn;
    repeat split; try discriminate; try (apply Z.ltb_lt); lia.
Qed.

(** X10.  An area is announced once.  When [_enter_area_if_needed] has
    returned, calling it again on the game it left does nothing at all:
    it writes nothing, reads nothing and returns. *)
Theorem area_is_announced_once (g : Game.t R) :
  fst (Game.enter_area_if_needed g) = Ok tt ->
  Game.enter_area_if_needed (snd (Game.enter_area_if_needed g))
  = (Ok tt, snd (Game.enter_area_if_needed g)).
Proof.
  destruct g as [[w sc] rng wave km used pl tc em ca sr].
  unfold Game.enter_area_if_needed. run_game.
  destruct (find _ Game.AREA_RANGES) as [[[[start stop] name] detail]|] eqn:Hfind;
    [|intros _; run_game; rewrite Hfind; reflexivity].
  destruct (bool_decide (ca = Some name)) eqn:Hca; cbn [negb]; run_game.
  - intros _. rewrite Hfind, Hca. reflexivity.
  - destruct sc as [|line rest]; run_game; [discriminate|].
    intros _. rewrite Hfind. rewrite bool_decide_eq_true_2 by reflexivity. reflexivity.
Qed.



(** X13.  Every visit and every turn takes an answer.  A turn of a
    battle, a visit of the shop and a visit of the main menu that return
    have each read at least one line of the script, and none of them
    changes the wave counter. *)
Theorem every_pass_takes_an_answer (g : Game.t R) (e : Enemy.t) :
  match Game.battle_turn (g, e) with
  | (Ok _, (g', _)) =>
      Game.wave g' = Game.wave g /\
      (length (IO.script (Game.io g')) < length (IO.script (Game.io g)))%nat
  | (Raise _, _) => True
  end /\
  match Game.shop_visit g with
  | (Ok _, g') =>
      Game.wave g' = Game.wave g /\
      (length (IO.script (Game.io g')) < length (IO.script (Game.io g)))%nat
  | (Raise _, _) => True
  end /\
  match Game.menu_visit g with
  | (Ok _, g') =>
      Game.wave g' = Game.wave g /\
      (length (IO.script (Game.io g')) < length (IO.script (Game.io g)))%nat
  | (Raise _, _) => True
  end.
Proof.
  pose proof (FuelFacts.battle_turn_reads (g, e)) as Hb.
  pose proof (FuelFacts.shop_visit_reads g) as Hs.
  pose proof (FuelFacts.menu_visit_reads g) as Hm.
  destruct (Game.battle_turn (g, e)) as [[[]|x] [g1 e1]],
           (Game.shop_visit g) as [[b|y] g2], (Game.menu_visit g) as [[c|z] g3];
    repeat split; solve [exact I | apply Hb | apply Hs | apply Hm].
Qed.

End WithGenerator.

Lemma spawn_is_fit_witness :
  let e := Game.spawn (Game.set_wave 10 (Game.init (IO.mk [] []) ([] : Tape.t))) in
  Enemy.is_alive e = true /\
  Farm.health (Enemy.farm e) = Farm.max_hp (Enemy.farm e) /\
  112 <= Farm.health (Enemy.farm e) /\
  0 < Farm.attack_power (Enemy.farm e) /\
  Enemy.stunned e = false /\ Enemy.attack_debuff e = None /\
  Enemy.is_boss e = (10 mod 5 =? 0) /\
  (Enemy.is_boss e = true -> Enemy.passive_reward e <> None).
Proof.
  apply (spawn_is_fit (R := Tape.t)
           (Game.set_wave 10 (Game.init (IO.mk [] []) ([] : Tape.t)))).
  cbn. lia.
Defined.

Lemma area_is_announced_once_witness :
  let g := Game.init (IO.mk [] [""%string]) ([] : Tape.t) in
  Game.enter_area_if_needed (snd (Game.enter_area_if_needed g))
  = (Ok tt, snd (Game.enter_area_if_needed g)).
Proof.
  apply (area_is_announced_once (R := Tape.t)). reflexivity.
Defined.



End WaveFacts.

(** ** Random events *)

Module EventFacts.
Import Props.

Section WithGenerator.
Context {R : Type} `{RandomGen R}.

(** The pool by the wave. *)
Lemma event_pool_cases (g : Game.t R) :
  let w := Game.wave g in
  Game.event_pool g =
    Game.RANDOM_EVENTS ++ Game.BAD_EVENTS ++
    (if (1 <=? w) && (w <? 11) then ["Butterfly Bloom"; "Soggy Furrows"]%string
     else if (11 <=? w) && (w <? 21) then ["Cinder Drift"; "Charred Fence"]%string
     else if (21 <=? w) && (w <? 31) then ["Gravel Gust"; "Rusted Plow"]%string
     else []).
Proof.
  cbv zeta. unfold Game.event_pool, Game.WAVE_RANGE_EVENTS. cbn [find].
  destruct ((1 <=? Game.wave g) && (Game.wave g <? 11)); [reflexivity|].
  destruct ((11 <=? Game.wave g) && (Game.wave g <? 21)); [reflexivity|].
  destruct ((21 <=? Game.wave g) && (Game.wave g <? 31)); reflexivity.
Qed.

(** X14.  The pool of events is sound at every wave: it never lists an
    event twice, it holds the twelve common events and two more in each
    of the wave ranges 1-10, 11-20 and 21-30 (twelve events beyond wave 30
    and below wave 1), and every event it lists has a handler in the
    table of [_apply_event], so an event that is drawn is never silently
    dropped. *)
Theorem event_pool_is_sound (g : Game.t R) :
  NoDup (Game.event_pool g) /\
  length (Game.event_pool g)
    = (if (1 <=? Game.wave g) && (Game.wave g <? 31) then 14%nat else 12%nat) /\
  (forall event, event ∈ Game.event_pool g ->
     exists handler,
       find (fun entry => (fst entry =? event)%string) (Game.event_map (R := R))
       = Some (event, handler)).
Proof.
  rewrite event_pool_cases. cbv zeta.
  assert (Hnodup : forall l : list string, bool_decide (NoDup l) = true -> NoDup l)
    by (intros l Hl; exact (bool_decide_eq_true_1 _ Hl)).
  destruct (Z.leb_spec 1 (Game.wave g)), (Z.ltb_spec (Game.wave g) 11),
    (Z.leb_spec 11 (Game.wave g)), (Z.ltb_spec (Game.wave g) 21),
    (Z.leb_spec 21 (Game.wave g)), (Z.ltb_spec (Game.wave g) 31);
    try lia; cbn [andb].
  all: split; [apply Hnodup; vm_compute; reflexivity|].
  all: split; [reflexivity|].
  all: intros event Hin; unfold Game.RANDOM_EVENTS, Game.BAD_EVENTS in Hin;
    cbn [app] in Hin;
    repeat (apply elem_of_cons in Hin as [->|Hin]; [eexists; reflexivity|]);
    apply elem_of_nil in Hin; destruct Hin.
Qed.

Lemma filter_nothing {A : Type} (P : A -> Prop) `{forall x, Decision (P x)} (l : list A) :
  (forall x, x ∈ l -> ~ P x) -> filter P l = [].
Proof.
  induction l as [|a l IH]; intros Hl; [reflexivity|].
  rewrite filter_cons. destruct (decide (P a)) as [Hp|_].
  - exfalso. apply (Hl a); [left | exact Hp].
  - apply IH. intros x Hx. apply Hl. right. exact Hx.
Qed.

(** X15.  A used-up pool crashes the event.  [_trigger_random_event]
    clears the set of used events only when its size equals the size of
    the pool.  When every event of the pool has been used and the set
    holds a different number of names (names of an earlier wave range, or
    one too many after a chained event), nothing is cleared, nothing is
    left to draw from, and [rng.choice] raises [IndexError]: the game is
    left as it was and nothing is written. *)
Theorem used_up_pool_raises (g : Game.t R) (p : PlayerFarm.t R) :
  Game.player g = Some p ->
  size (Game.used_events g) <> length (Game.event_pool g) ->
  (forall event, event ∈ Game.event_pool g -> event ∈ Game.used_events g) ->
  Game.trigger_random_event g = (Raise IndexError, g).
Proof.
  intros Hp Hsize Hall.
  assert (Hnone : filter (fun event => event ∉ Game.used_events g) (Game.event_pool g) = []).
  { apply filter_nothing. intros event Hin Hout. exact (Hout (Hall event Hin)). }
  destruct g as [[w sc] rng wave km used pl tc em ca sr]. cbn in Hp. subst pl.
  unfold Game.trigger_random_event. run_game.
  rewrite bool_decide_eq_false_2 by exact Hsize. run_game.
  cbn [Game.used_events] in Hnone. rewrite Hnone. reflexivity.
Qed.

End WithGenerator.

Lemma used_up_pool_raises_witness :
  let used : gset string :=
    list_to_set (Game.RANDOM_EVENTS ++ Game.BAD_EVENTS) ∪ {["Gravel Gust"%string]} in
  let g := Game.set_used_events used
             (Game.set_wave 33 (game_with (PlayerFarm.init "Farm" ([] : Tape.t)) []
                                  ([] : Tape.t))) in
  Game.trigger_random_event g = (Raise IndexError, g).
Proof.
  apply (used_up_pool_raises (R := Tape.t) _ (PlayerFarm.init "Farm" ([] : Tape.t))).
  - reflexivity.
  - vm_compute. discriminate.
  - intros event Hin. change (event ∈ Game.RANDOM_EVENTS ++ Game.BAD_EVENTS) in Hin.
    cbn [Game.used_events Game.set_used_events]. apply elem_of_union. left.
    apply elem_of_list_to_set. exact Hin.
Defined.

End EventFacts.

(** ** Learning skills *)

Module SkillFacts.
Import Props Ledger.

Section WithGenerator.
Context {R : Type} `{RandomGen R}.

Lemma insert_swaps_head {A : Type} (a b : A) (x : list A) (j : nat) :
  x !! j = Some b -> b :: <[j := a]> x ≡ₚ a :: x.
Proof.
  revert j. induction x as [|d x IH]; intros j Hj; [destruct j; discriminate|].
  destruct j as [|j]; cbn in *.
  - injection Hj as ->. apply perm_swap.
  - rewrite perm_swap, (IH j Hj). apply perm_swap.
Qed.

(** [x[i], x[j] = x[j], x[i]] rearranges [x]. *)
Lemma swap_rearranges {A : Type} (i j : nat) (x : list A) : Random.swap i j x ≡ₚ x.
Proof.
  unfold Random.swap.
  destruct (x !! i) as [a|] eqn:Hi; [|reflexivity].
  destruct (x !! j) as [b|] eqn:Hj; [|reflexivity].
  revert i j Hi Hj. induction x as [|c x IH]; intros i j Hi Hj; [destruct i; discriminate|].
  destruct i as [|i], j as [|j]; cbn in *.
  - injection Hi as ->. reflexivity.
  - injection Hi as ->. apply insert_swaps_head, Hj.
  - injection Hj as ->. apply insert_swaps_head, Hi.
  - rewrite (IH i j Hi Hj). reflexivity.
Qed.

(** [shuffle] returns, and what it returns is a rearrangement. *)
Lemma shuffle_from_rearranges {A : Type} (i : nat) (x : list A) (r : R) :
  exists l r', Random.shuffle_from i x r = (Ok l, r') /\ l ≡ₚ x.
Proof.
  revert x r. induction i as [|i IH]; intros x r; [exists x, r; split; reflexivity|].
  cbn [Random.shuffle_from]. unfold bind at 1, Random.randbelow.
  destruct (rng_randbelow (Z.of_nat (S i) + 1) r) as [j r1].
  destruct (IH (Random.swap (S i) (Z.to_nat j) x) r1) as (l & r' & Hl & Hp).
  exists l, r'. split; [exact Hl|]. rewrite Hp. apply swap_rearranges.
Qed.

Lemma is_new_spec (skill : Skill.t) (owned : list Skill.t) :
  PlayerFarm.is_new skill owned = true <-> Skill.name skill ∉ map Skill.name owned.
Proof.
  unfold PlayerFarm.is_new. induction owned as [|o owned IH]; cbn.
  - split; [intros _ Hin; inversion Hin | reflexivity].
  - rewrite andb_true_iff, IH, negb_true_iff, not_elem_of_cons.
    destruct (String.eqb_spec (Skill.name o) (Skill.name skill)) as [He|He];
      split; intros [H1 H2]; try discriminate; try (split; congruence).
Qed.

(** [add_new_skill] by the skill that the shuffle puts first among the
    new ones. *)
Lemma add_new_skill_cases (p : PlayerFarm.t R) (io : IO.t) :
  exists (available : list Skill.t) (prng : R),
    available ≡ₚ PlayerFarm.all_skills /\
    PlayerFarm.add_new_skill (p, io) =
      match find (fun skill => PlayerFarm.is_new skill (PlayerFarm.skills p)) available with
      | Some skill =>
          (Ok tt,
           (PlayerFarm.set_skills (PlayerFarm.skills p ++ [skill]) (PlayerFarm.set_rng prng p),
            IO.mk (IO.written io ++ ["âœ¨ New skill acquired: " ++ Skill.name skill ++ "!"])
                  (IO.script io)))
      | None =>
          (Ok tt,
           (PlayerFarm.set_rng prng p,
            IO.mk (IO.written io ++ ["No new skill found. All unlocked."]) (IO.script io)))
      end%string.
Proof.
  destruct (shuffle_from_rearranges (length PlayerFarm.all_skills - 1) PlayerFarm.all_skills
              (PlayerFarm.rng p)) as (l & r' & Hl & Hp).
  exists l, r'. split; [exact Hp|].
  unfold PlayerFarm.add_new_skill, Random.shuffle.
  unfold bind at 1, on_fst, zoom. cbn [fst snd]. rewrite Hl.
  destruct p as [pf sk co gd prng tt' tr cds pas kf kr kp gts msg tab iat iab ish dp].
  destruct io as [w sc]. run_game.
  cbn [PlayerFarm.skills PlayerFarm.set_rng PlayerFarm.set_skills].
  destruct (find (fun skill => PlayerFarm.is_new skill sk) l); run_game; reflexivity.
Qed.

(** X16.  [add_new_skill] never fails and never hands out a skill twice.
    It writes one line and leaves the script and everything of the player
    but the skills and the generator as they were.  When a skill of
    [_all_skills] has a name that the player does not own yet, one such
    skill is appended to the skills and announced; only when every name is
    owned are the skills left alone and "No new skill found. All
    unlocked." written. *)
Theorem add_new_skill_hands_out_a_new_one (p : PlayerFarm.t R) (io : IO.t) :
  exists (p' : PlayerFarm.t R) (line : string),
    PlayerFarm.add_new_skill (p, io)
      = (Ok tt, (p', IO.mk (IO.written io ++ [line]) (IO.script io))) /\
    same_but_skills p p' /\
    ((exists skill,
        skill ∈ PlayerFarm.all_skills /\
        (Skill.name skill ∉ skill_names p) /\
        PlayerFarm.skills p' = PlayerFarm.skills p ++ [skill] /\
        line = ("âœ¨ New skill acquired: " ++ Skill.name skill ++ "!")%string) \/
     ((forall skill, skill ∈ PlayerFarm.all_skills -> Skill.name skill ∈ skill_names p) /\
      PlayerFarm.skills p' = PlayerFarm.skills p /\
      line = "No new skill found. All unlocked."%string)).
Proof.
  destruct (add_new_skill_cases p io) as (l & r & Hl & ->).
  destruct (find _ l) as [skill|] eqn:Hfind.
  - apply find_some in Hfind as [Hin Hnew].
    eexists _, _. split; [reflexivity|]. split; [destruct p; reflexivity|]. left.
    exists skill. split; [|split; [|split]].
    + rewrite <- Hl. apply list_elem_of_In, Hin.
    + apply is_new_spec, Hnew.
    + destruct p; reflexivity.
    + reflexivity.
  - eexists _, _. split; [reflexivity|]. split; [destruct p; reflexivity|]. right.
    split; [|split; [destruct p; reflexivity | reflexivity]].
    intros skill Hin. rewrite <- Hl in Hin. apply list_elem_of_In in Hin.
    pose proof (find_none _ _ Hfind skill Hin) as Hold. cbv beta in Hold.
    destruct (decide (Skill.name skill ∈ skill_names p)) as [Hown|Hown]; [exact Hown|].
    apply is_new_spec in Hown. congruence.
Qed.


End WithGenerator.

End SkillFacts.

(** ** The books of the player *)

Module BooksFacts.
Import Props Ledger BattleFacts.

Section WithGenerator.
Context {R : Type} `{RandomGen R}.

(** *** What leaves a ledger alone *)

Lemma ledger_io {A : Type} (P : reading) (absent : Prop) (m : M IO.t A) :
  keeps (ledger_ok P absent) (zoom (Game.io (R := R)) Game.set_io m).
Proof. apply keeps_zoom_apart. intros g io Hg. destruct g. exact Hg. Qed.

Lemma ledger_rng {A : Type} (P : reading) (absent : Prop) (m : M R A) :
  keeps (ledger_ok P absent) (zoom (Game.rng (R := R)) Game.set_rng m).
Proof. apply keeps_zoom_apart. intros g r Hg. destruct g. exact Hg. Qed.

Lemma ledger_assert (P : reading) (absent : Prop) :
  keeps (ledger_ok P absent) (Game.assert_player (R := R)).
Proof. intros g Hg. unfold Game.assert_player. destruct (Game.player g); exact Hg. Qed.

Lemma ledger_the_player (P : reading) (absent : Prop) :
  keeps (ledger_ok P absent) (Game.the_player (R := R)).
Proof. intros g Hg. unfold Game.the_player. destruct (Game.player g); exact Hg. Qed.

Lemma ledger_modify (P : reading) (absent : Prop) (f : Game.t R -> Game.t R) :
  (forall g, Game.player (f g) = Game.player g) -> keeps (ledger_ok P absent) (modify f).
Proof. intros Hf g Hg. cbn. unfold ledger_ok. rewrite Hf. exact Hg. Qed.

Lemma ledger_on_player {A : Type} (P : reading) (absent : Prop) (m : M (PlayerFarm.t R) A) :
  keeps (ledger P) m -> keeps (ledger_ok P absent) (Game.on_player m).
Proof.
  intros Hm g Hg. unfold Game.on_player, ledger_ok in *.
  destruct (Game.player g) as [p|] eqn:Hp; [|cbn [snd]; rewrite Hp; exact Hg].
  specialize (Hm p Hg). destruct (m p) as [r p']. destruct g. exact Hm.
Qed.

Lemma ledger_on_player_io {A : Type} (P : reading) (absent : Prop)
    (m : M (PlayerFarm.t R * IO.t) A) :
  keeps (in_lesson P) m -> keeps (ledger_ok P absent) (Game.on_player_io m).
Proof.
  intros Hm g Hg. unfold Game.on_player_io, ledger_ok in *.
  destruct (Game.player g) as [p|] eqn:Hp; [|cbn [snd]; rewrite Hp; exact Hg].
  specialize (Hm (p, Game.io g) Hg). destruct (m (p, Game.io g)) as [r [p' io']].
  destruct g. exact Hm.
Qed.

Lemma ledger_update (P : reading) (absent : Prop) (f : PlayerFarm.t R -> PlayerFarm.t R) :
  (forall p, ledger P p -> ledger P (f p)) -> keeps (ledger_ok P absent) (Game.update_player f).
Proof. intros Hf. apply ledger_on_player, keeps_modify, Hf. Qed.

Lemma ledger_check_sequence (P : reading) (absent : Prop) (tokens : list string) :
  keeps (ledger_ok P absent) (Game.check_sequence (R := R) tokens).
Proof.
  unfold Game.check_sequence. apply keeps_zoom_apart. intros g s Hg. destruct g. exact Hg.
Qed.

(** What follows a reading of the player may rely on what was read. *)
Lemma ledger_read {A : Type} (P : reading) (absent : Prop)
    (k : PlayerFarm.t R -> M (Game.t R) A) :
  (forall g p, Game.player g = Some p -> ledger P p -> ledger_ok P absent (snd (k p g))) ->
  keeps (ledger_ok P absent) (bind Game.the_player k).
Proof.
  intros Hk g Hg. unfold bind, Game.the_player.
  destruct (Game.player g) as [p|] eqn:Hp; [|exact Hg].
  apply Hk; [exact Hp|]. unfold ledger_ok in Hg. rewrite Hp in Hg. exact Hg.
Qed.

(** A method of the farm of the player. *)
Lemma ledger_on_farm {A : Type} (P : reading) (m : M Farm.t A) :
  keeps (ledger P) (PlayerFarm.on_farm (R := R) m).
Proof. apply keeps_zoom_apart. intros p f Hp. destruct p. exact Hp. Qed.

(** The tests that are known, as arithmetic. *)
Ltac tests_known :=
  repeat match goal with
         | H : (_ && _) = true |- _ => apply andb_true_iff in H as [? ?]
         | H : (_ || _) = false |- _ => apply orb_false_iff in H as [? ?]
         | H : (_ <=? _) = true |- _ => apply Z.leb_le in H
         | H : (_ <=? _) = false |- _ => apply Z.leb_gt in H
         | H : (_ <? _) = true |- _ => apply Z.ltb_lt in H
         | H : (_ <? _) = false |- _ => apply Z.ltb_ge in H
         | H : (_ =? _) = true |- _ => apply Z.eqb_eq in H
         | H : (_ =? _) = false |- _ => apply Z.eqb_neq in H
         end.

(** A ledger that is written out: what [P] asks is at hand or is
    arithmetic. *)
Ltac ledger_arith :=
  unfold in_battle, books_ok, books_sound, ledger_ok, ledger, sound_counts, purse_of, reward
    in *;
  run_game; tests_known;
  repeat match goal with
         | H : _ /\ _ |- _ => destruct H
         end;
  repeat match goal with
         | |- _ /\ _ => split
         end;
  first [assumption | lia | exact I].

(** The ledger after an update that is written out. *)
Ltac sound_arith :=
  let p := fresh "p" in
  let Hp := fresh "Hp" in
  intros p Hp; destruct p; ledger_arith.

(** The shield takes no more than it holds. *)
Lemma ledger_take_damage (P : reading) (d : Z) :
  keeps (ledger P) (PlayerFarm.take_damage (R := R) d).
Proof.
  intros p Hp. unfold PlayerFarm.take_damage.
  destruct p as [[pn pmh ph pa] sk co gd prng tt' tr cds pas kf kr kp gts msg tab iat iab ish dp].
  run_game. destruct ((0 <? ish) && (0 <? d)) eqn:Eshield; run_game; ledger_arith.
Qed.

(** One step for a method of the player that leaves the ledger alone. *)
Ltac sound_step :=
  cbv beta;
  lazymatch goal with
  | |- keeps _ (PlayerFarm.on_farm _) => apply ledger_on_farm
  | |- keeps _ (PlayerFarm.take_damage _) => apply ledger_take_damage
  | |- keeps _ (modify _) =>
      let p := fresh "p" in
      let Hsound := fresh "Hsound" in
      apply keeps_modify; intros p Hsound; destruct p; exact Hsound
  | |- _ => keeps_step
  end.

Lemma ledger_wave_clear_upgrade (P : reading) :
  keeps (ledger P) (PlayerFarm.wave_clear_upgrade (R := R)).
Proof. unfold PlayerFarm.wave_clear_upgrade. repeat sound_step. Qed.

Lemma ledger_boosts (P : reading) :
  keeps (ledger P) (PlayerFarm.attack_boost (R := R)) /\
  keeps (ledger P) (PlayerFarm.defense_boost (R := R)).
Proof.
  split; unfold PlayerFarm.attack_boost, PlayerFarm.defense_boost; repeat sound_step.
Qed.

(** [add_new_skill] touches the skills and the generator only. *)
Lemma lesson_add_new_skill (P : reading) :
  keeps (in_lesson P) (PlayerFarm.add_new_skill (R := R)).
Proof.
  intros [p io] Hp. destruct (SkillFacts.add_new_skill_cases p io) as (l & r & _ & ->).
  destruct (find _ l); destruct p; exact Hp.
Qed.

(** Nothing changes the kind of an enemy. *)
Lemma kind_on_farm {A : Type} (k : Enemy.kind) (m : M Farm.t A) :
  keeps (fun e => Enemy.kind_of e = k) (Enemy.on_farm m).
Proof. apply keeps_zoom_apart. intros e f He. destruct e. exact He. Qed.

(** One step for a method of the enemy. *)
Ltac kind_step :=
  cbv beta;
  lazymatch goal with
  | |- keeps _ (Enemy.on_farm _) => apply kind_on_farm
  | |- keeps _ (modify _) =>
      let e := fresh "e" in
      let Hkind := fresh "Hkind" in
      apply keeps_modify; intros e Hkind; destruct e;
      repeat match goal with
             | debuff : option float |- _ => destruct debuff
             end;
      exact Hkind
  | |- _ => keeps_step
  end.

Lemma kind_scale_attack_power (k : Enemy.kind) :
  keeps (fun e => Enemy.kind_of e = k) Game.scale_attack_power.
Proof. unfold Game.scale_attack_power. repeat kind_step. Qed.

(** No skill touches the ledger or the kind of its target. *)
Lemma skill_keeps_ledger (P : reading) (k : Enemy.kind) (skill : Skill.t) :
  keeps (in_skill P k) (PlayerFarm.use (R := R) skill).
Proof.
  assert (Hp : forall A (m : M (PlayerFarm.t R) A),
             keeps (ledger P) m -> keeps (in_skill P k) (PlayerFarm.on_player m)).
  { intros A m Hm [[p e] io] [Hl Hk]. unfold PlayerFarm.on_player, on_fst, zoom. cbn [fst snd].
    specialize (Hm p Hl). destruct (m p) as [r p']. split; [exact Hm | exact Hk]. }
  assert (He : forall A (m : M Enemy.t A),
             keeps (fun e => Enemy.kind_of e = k) m ->
             keeps (in_skill P k) (PlayerFarm.on_enemy (R := R) m)).
  { intros A m Hm [[p e] io] [Hl Hk]. unfold PlayerFarm.on_enemy, on_fst, on_snd, zoom.
    cbn [fst snd]. specialize (Hm e Hk). destruct (m e) as [r e'].
    split; [exact Hl | exact Hm]. }
  assert (Hio : forall A (m : M IO.t A), keeps (in_skill P k) (PlayerFarm.on_io (R := R) m)).
  { intros A m. unfold PlayerFarm.on_io, on_snd.
    apply keeps_zoom_apart. intros s t Hs. exact Hs. }
  unfold PlayerFarm.use.
  destruct (Skill.effect_of skill);
    unfold PlayerFarm.skill_blazing_corn, PlayerFarm.skill_rain_dance_buffed,
      PlayerFarm.skill_stampede_buffed, PlayerFarm.skill_stampede,
      PlayerFarm.skill_increase_max_hp, PlayerFarm.skill_sap_burst,
      PlayerFarm.skill_concussive_seed.
  all: repeat (cbv beta;
         lazymatch goal with
         | |- keeps _ (PlayerFarm.on_player _) => apply Hp; repeat sound_step
         | |- keeps _ (PlayerFarm.on_enemy _) => apply He; repeat kind_step
         | |- keeps _ (PlayerFarm.on_io _) => apply Hio
         | |- _ => keeps_step
         end).
Qed.

(** Nor does an attack touch the ledger. *)
Lemma attack_keeps_ledger (P : reading) : keeps (in_attack P) (PlayerFarm.attack (R := R)).
Proof.
  unfold PlayerFarm.attack.
  repeat (cbv beta;
    lazymatch goal with
    | |- keeps _ (on_snd _) => unfold on_snd; apply keeps_zoom_apart; intros s t Hs; exact Hs
    | |- keeps _ (on_fst (on_fst _)) =>
        unfold on_fst;
        apply (keeps_zoom_on _ (fun s => ledger P (fst s)));
          [|auto|intros s t _ Ht; exact Ht];
        apply (keeps_zoom_on _ (ledger P)); [|auto|intros s t _ Ht; exact Ht];
        repeat sound_step
    | |- keeps _ (on_fst (on_snd _)) =>
        unfold on_fst;
        apply (keeps_zoom_on _ (fun s => ledger P (fst s)));
          [|auto|intros s t _ Ht; exact Ht];
        unfold on_snd; apply keeps_zoom_apart; intros s t Hs; exact Hs
    | |- _ => keeps_step
    end).
Qed.

(** *** The game *)

Lemma ledger_write_all (P : reading) (absent : Prop) (lines : list string) :
  keeps (ledger_ok P absent) (Game.write_all (R := R) lines).
Proof.
  induction lines as [|line rest IH]; [apply keeps_ret|].
  cbn [Game.write_all]. apply keeps_bind; [apply ledger_io | intros _; exact IH].
Qed.

Lemma ledger_learn (P : reading) (absent : Prop) :
  keeps (ledger_ok P absent) (Game.on_player_io (R := R) PlayerFarm.add_new_skill).
Proof. apply ledger_on_player_io, lesson_add_new_skill. Qed.

(** One step for a computation of the game that leaves the ledger
    alone. *)
Ltac books_step :=
  cbv beta;
  lazymatch goal with
  | |- keeps _ (Game.write _) => apply ledger_io
  | |- keeps _ (Game.prompt _) => apply ledger_io
  | |- keeps _ (Game.write_all _) => apply ledger_write_all
  | |- keeps _ (Game.draw _) => apply ledger_rng
  | |- keeps _ (zoom Game.rng Game.set_rng _) => apply ledger_rng
  | |- keeps _ Game.assert_player => apply ledger_assert
  | |- keeps _ Game.the_player => apply ledger_the_player
  | |- keeps _ (Game.check_sequence _) => apply ledger_check_sequence
  | |- keeps _ (Game.on_player_io PlayerFarm.add_new_skill) => apply ledger_learn
  | |- keeps _ (Game.update_player _) =>
      let p := fresh "p" in
      let Hsound := fresh "Hsound" in
      apply ledger_update; intros p Hsound; destruct p; exact Hsound
  | |- keeps _ (Game.on_player _) => apply ledger_on_player; repeat sound_step
  | |- keeps _ (modify _) =>
      let g := fresh "g" in
      apply ledger_modify; intros g; destruct g; reflexivity
  | |- keeps _ (Game.console_input _) => apply keeps_ret
  | |- _ => keeps_step
  end.

Lemma ledger_tick_cooldowns (P : reading) (absent : Prop) :
  keeps (ledger_ok P absent) (Game.tick_cooldowns (R := R)).
Proof. unfold Game.tick_cooldowns. repeat books_step. Qed.

Lemma ledger_offer_boss_passive (P : reading) (absent : Prop) (boss : Enemy.t) :
  keeps (ledger_ok P absent) (Game.offer_boss_passive (R := R) boss).
Proof. unfold Game.offer_boss_passive. repeat books_step. Qed.

(** A boss drops a fragment only below three. *)
Lemma ledger_drop_fragment (P : reading) (absent : Prop) :
  (forall c g f b k, f < 3 -> P c g f b k -> P c g (f + 1) b k) ->
  keeps (ledger_ok P absent) (Game.drop_fragment (R := R)).
Proof.
  intros Hdrop g Hg. unfold Game.drop_fragment.
  destruct g as [[w sc] rng wave km used [p|] tc em ca sr]; [|exact Hg].
  destruct p as [[pn pmh ph pa] sk co gd prng tt' tr cds pas kf kr kp gts msg tab iat iab ish dp].
  run_game. destruct (kf <? 3) eqn:Ekf; run_game; [|exact Hg].
  apply Z.ltb_lt in Ekf. destruct Hg as (HP & Hs & Ht).
  split; [exact (Hdrop _ _ _ _ _ Ekf HP) | split; assumption].
Qed.

(** *** The battle *)

Lemma battle_on_game {A : Type} (P : reading) (absent : Prop) (k : Enemy.kind)
    (m : M (Game.t R) A) :
  keeps (ledger_ok P absent) m -> keeps (in_battle P absent k) (Game.on_game m).
Proof.
  intros Hm [g e] [Hl Hk]. unfold Game.on_game, on_fst, zoom. cbn [fst snd] in *.
  specialize (Hm g Hl). destruct (m g) as [r g']. split; [exact Hm | exact Hk].
Qed.

Lemma battle_on_enemy {A : Type} (P : reading) (absent : Prop) (k : Enemy.kind)
    (m : M Enemy.t A) :
  keeps (fun e => Enemy.kind_of e = k) m ->
  keeps (in_battle (R := R) P absent k) (Game.on_enemy m).
Proof.
  intros Hm [g e] [Hl Hk]. unfold Game.on_enemy, on_snd, zoom. cbn [fst snd] in *.
  specialize (Hm e Hk). destruct (m e) as [r e']. split; [exact Hl | exact Hm].
Qed.

Lemma battle_player_attacks (P : reading) (absent : Prop) (k : Enemy.kind) :
  keeps (in_battle P absent k) (Game.player_attacks (R := R)).
Proof.
  intros [g e] [Hl Hk]. unfold Game.player_attacks, in_battle, ledger_ok in *.
  cbn [fst snd] in *.
  destruct (Game.player g) as [p|] eqn:Hp; [|cbn [fst snd]; rewrite Hp; split; assumption].
  pose proof (attack_keeps_ledger P (p, Enemy.farm e, Game.rng g) Hl) as Ha.
  destruct (PlayerFarm.attack (p, Enemy.farm e, Game.rng g)) as [r [[p' f'] rng']].
  destruct g, e. split; [exact Ha | exact Hk].
Qed.

Lemma battle_use_skill (P : reading) (absent : Prop) (k : Enemy.kind) (skill : Skill.t) :
  keeps (in_battle P absent k) (Game.use_skill (R := R) skill).
Proof.
  intros [g e] [Hl Hk]. unfold Game.use_skill, in_battle, ledger_ok in *.
  cbn [fst snd] in *.
  destruct (Game.player g) as [p|] eqn:Hp; [|cbn [fst snd]; rewrite Hp; split; assumption].
  pose proof (skill_keeps_ledger P k skill (p, e, Game.io g) (conj Hl Hk)) as Ha.
  destruct (PlayerFarm.use skill (p, e, Game.io g)) as [r [[p' e'] io']].
  destruct g. exact Ha.
Qed.

(** One step for a computation of a battle. *)
Ltac fight_step :=
  cbv beta;
  lazymatch goal with
  | |- keeps _ (Game.on_game _) => apply battle_on_game; repeat books_step
  | |- keeps _ (Game.on_enemy Game.scale_attack_power) =>
      apply battle_on_enemy, kind_scale_attack_power
  | |- keeps _ (Game.on_enemy _) => apply battle_on_enemy; repeat kind_step
  | |- keeps _ Game.player_attacks => apply battle_player_attacks
  | |- keeps _ (Game.use_skill _) => apply battle_use_skill
  | |- _ => keeps_step
  end.

Lemma battle_handle_skill (P : reading) (absent : Prop) (k : Enemy.kind) :
  keeps (in_battle P absent k) (Game.handle_skill (R := R)).
Proof. unfold Game.handle_skill. repeat fight_step. Qed.

Lemma battle_show_options (P : reading) (absent : Prop) (k : Enemy.kind) :
  keeps (in_battle P absent k) (Game.show_options (R := R)).
Proof.
  unfold Game.show_options.
  repeat (cbv beta;
    lazymatch goal with
    | |- keeps _ Game.handle_skill => apply battle_handle_skill
    | |- _ => fight_step
    end).
Qed.

Lemma battle_gimmick (P : reading) (absent : Prop) (k : Enemy.kind) :
  keeps (in_battle P absent k) (Game.maybe_trigger_endless_gimmick (R := R)).
Proof. unfold Game.maybe_trigger_endless_gimmick. repeat fight_step. Qed.

Lemma battle_escalate (P : reading) (absent : Prop) (k : Enemy.kind) :
  keeps (in_battle P absent k) (Game.escalate (R := R)).
Proof. unfold Game.escalate. repeat fight_step. Qed.

Lemma battle_read {A : Type} (P : reading) (absent : Prop) (k : Enemy.kind)
    (rest : PlayerFarm.t R -> M (Game.t R * Enemy.t) A) :
  (forall g e p, Game.player g = Some p -> ledger P p -> Enemy.kind_of e = k ->
     in_battle P absent k (snd (rest p (g, e)))) ->
  keeps (in_battle P absent k) (bind (Game.on_game Game.the_player) rest).
Proof.
  intros Hrest [g e] [Hl Hk]. unfold ledger_ok in Hl. cbn [fst snd] in Hl, Hk.
  unfold bind, Game.on_game, on_fst, zoom, Game.the_player. cbn [fst snd].
  destruct (Game.player g) as [p|] eqn:Hp.
  - apply Hrest; assumption.
  - unfold in_battle, ledger_ok. cbn [fst snd]. rewrite Hp. split; assumption.
Qed.

(** The tonic is counted down only while it has turns left. *)
Lemma battle_enemy_action (P : reading) (absent : Prop) (k : Enemy.kind) :
  keeps (in_battle P absent k) (Game.enemy_action (R := R)).
Proof.
  unfold Game.enemy_action.
  repeat (cbv beta;
    lazymatch goal with
    | |- keeps _ (bind (Game.on_game Game.the_player) _) => fail
    | |- _ => fight_step
    end).
  all: apply battle_read; intros g e p Hp Hsound Hkind.
  all: apply after_bind; [|intros actual; repeat fight_step].
  all: destruct g as [[w sc] rng wave km used pl tc em ca sr]; cbn in Hp; subst pl.
  all: destruct p as [[pn pmh ph pa] sk co gd prng tt' tr cds pas kf kr kp gts msg tab iat iab
                        ish dp].
  all: run_game.
  all: destruct ((0 <? tt') && (0 <? tr)%float) eqn:Etonic; run_game;
         [|split; assumption].
  all: match goal with
       | |- context [Py.int_product ?n ?x] => destruct (Py.int_product n x) as [reduced|err]
       end; run_game; [|split; assumption].
  all: destruct (tt' - 1 =? 0); run_game; ledger_arith.
Qed.

(** A turn keeps the ledger up to the award, which is what is left to
    account for. *)
Lemma battle_turn_pays (P : reading) (absent : Prop) (k : Enemy.kind)
    (Post : result unit * (Game.t R * Enemy.t) -> Prop) :
  (forall e s, in_battle P absent k s -> Post (Raise e, s)) ->
  yields (in_battle P absent k)
    Post
    (let* (g, enemy) := gets id in
     when (negb (Enemy.is_alive enemy)) (Game.on_game (Game.award enemy))) ->
  yields (in_battle P absent k) Post (Game.battle_turn (R := R)).
Proof.
  intros Hraise Haward. unfold Game.battle_turn.
  assert (Hbind : forall B (m : M (Game.t R * Enemy.t) B) rest,
             keeps (in_battle P absent k) m ->
             (forall b, yields (in_battle P absent k) Post (rest b)) ->
             yields (in_battle P absent k) Post (bind m rest)).
  { intros B m rest Hm Hrest s Hs. unfold bind. specialize (Hm s Hs).
    destruct (m s) as [[b|e] s']; cbn [snd] in Hm; [apply Hrest, Hm | apply Hraise, Hm]. }
  repeat (cbv beta;
    lazymatch goal with
    | |- yields _ _ (bind (gets id) ?rest) =>
        lazymatch rest with
        | context [Game.enemy_action] => apply Hbind; [|intros ?]
        | _ => exact Haward
        end
    | |- yields _ _ (bind _ _) => apply Hbind; [|intros ?]
    | |- yields _ _ (match ?x with _ => _ end) => destruct x
    | |- keeps _ Game.escalate => apply battle_escalate
    | |- keeps _ Game.show_options => apply battle_show_options
    | |- keeps _ Game.maybe_trigger_endless_gimmick => apply battle_gimmick
    | |- keeps _ Game.enemy_action => apply battle_enemy_action
    | |- keeps _ (Game.on_game Game.tick_cooldowns) =>
        apply battle_on_game, ledger_tick_cooldowns
    | |- keeps _ _ => fight_step
    end).
Qed.

(** The award: the coins of the reward, then what a boss leaves. *)
Lemma award_pays (P P' : reading) (absent : Prop) (enemy : Enemy.t) :
  (forall c g f b k, P c g f b k -> P' (c + reward (Enemy.kind_of enemy)) g f b k) ->
  (forall c g f b k, f < 3 -> P' c g f b k -> P' c g (f + 1) b k) ->
  forall g, ledger_ok P absent g -> ledger_ok P' absent (snd (Game.award enemy g)).
Proof.
  intros Hpay Hdrop g Hg. unfold Game.award. apply after_bind.
  - destruct g as [[w sc] rng wave km used [p|] tc em ca sr]; [|exact Hg].
    destruct p as [[pn pmh ph pa] sk co gd prng tt' tr cds pas kf kr kp gts msg tab iat iab ish
                     dp].
    destruct enemy as [ef ek er es ed el]. destruct Hg as (HP & Hs & Ht).
    specialize (Hpay _ _ _ _ _ HP). destruct ek; (split; [exact Hpay | split; assumption]).
  - intros _.
    repeat (cbv beta;
      lazymatch goal with
      | |- keeps _ Game.drop_fragment => apply ledger_drop_fragment, Hdrop
      | |- keeps _ (Game.offer_boss_passive _) => apply ledger_offer_boss_passive
      | |- _ => books_step
      end).
Qed.

(** *** The books stay sound in a battle *)

Lemma sound_after_drop (c g f b k : Z) :
  f < 3 -> sound_counts c g f b k -> sound_counts c g (f + 1) b k.
Proof. unfold sound_counts. lia. Qed.

Lemma battle_turn_keeps_books (k : Enemy.kind) :
  keeps (in_battle sound_counts True k) (Game.battle_turn (R := R)).
Proof.
  intros s Hs.
  apply (battle_turn_pays sound_counts True k (fun out => in_battle sound_counts True k (snd out)));
    [intros e s' Hs'; exact Hs' | | exact Hs].
  intros [g e] [Hl Hk]. unfold bind, gets. cbn [fst snd id].
  destruct (Enemy.is_alive e); cbn [negb when]; [split; assumption|].
  unfold Game.on_game, on_fst, zoom. cbn [fst snd].
  pose proof (award_pays sound_counts sound_counts True e) as Hpaid.
  specialize (Hpaid ltac:(intros c g0 f b k0; unfold sound_counts, reward;
                          destruct (Enemy.kind_of e); lia) sound_after_drop g Hl).
  destruct (Game.award e g) as [r g']. split; [exact Hpaid | exact Hk].
Qed.

Lemma battle_loop_keeps_books (k : Enemy.kind) (fuel : nat) :
  keeps (in_battle sound_counts True k) (Game.battle_loop (R := R) fuel).
Proof.
  induction fuel as [|fuel IH]; cbn [Game.battle_loop].
  - repeat fight_step.
  - repeat (cbv beta;
      lazymatch goal with
      | |- keeps _ Game.battle_turn => apply battle_turn_keeps_books
      | |- keeps _ (Game.battle_loop _) => exact IH
      | |- _ => fight_step
      end).
Qed.

Lemma books_battle (enemy : Enemy.t) : keeps books_ok (Game.battle (R := R) enemy).
Proof.
  unfold Game.battle.
  apply keeps_bind; [apply ledger_assert|intros _].
  apply keeps_bind; [books_step|intros _].
  intros g Hg.
  pose proof (battle_loop_keeps_books (Enemy.kind_of enemy)
                (S (length (IO.script (Game.io g)))) (g, enemy) (conj Hg eq_refl)) as Hl.
  destruct (Game.battle_loop _ (g, enemy)) as [r [g' e']]. exact (proj1 Hl).
Qed.

(** *** A battle pays once *)

Lemma purse_after_drop {T : Type} (p : PlayerFarm.t T) (x c g f b k : Z) :
  f < 3 -> purse_of p x c g f b k -> purse_of p x c g (f + 1) b k.
Proof. intros _ Hp. exact Hp. Qed.

Lemma battle_turn_paid (p : PlayerFarm.t R) (k : Enemy.kind) :
  yields (in_battle (purse_of p 0) False k) (turn_paid p k) (Game.battle_turn (R := R)).
Proof.
  apply battle_turn_pays.
  - intros e s Hs. left. split; [exact Hs | discriminate].
  - intros [g e] [Hl Hk]. unfold bind, gets. cbn [fst snd id] in *.
    destruct (Enemy.is_alive e) eqn:Halive; cbn [negb when].
    + left. split; [split; assumption | intros _; exact Halive].
    + right. unfold Game.on_game, on_fst, zoom. cbn [fst snd].
      pose proof (award_pays (purse_of p 0) (purse_of p (reward k)) False e) as Hpaid.
      specialize (Hpaid ltac:(intros c g0 f b k0; unfold purse_of; rewrite Hk; lia)
                        (purse_after_drop p (reward k)) g Hl).
      destruct (Game.award e g) as [r g']. split; [split; assumption | exact Halive].
Qed.

Lemma battle_loop_paid (p : PlayerFarm.t R) (k : Enemy.kind) (fuel : nat)
    (s : Game.t R * Enemy.t) :
  in_battle (purse_of p 0) False k s ->
  Enemy.is_alive (snd s) = true ->
  battle_paid p k (Game.battle_loop fuel s).
Proof.
  revert s. induction fuel as [|fuel IH]; intros [g e] Hs Halive; cbn [snd] in Halive.
  - cbn [Game.battle_loop]. unfold bind, gets, ret, raise, Game.on_game, on_fst, zoom, Game.the_player.
    cbn [fst snd id]. pose proof Hs as [Hl Hk]. unfold ledger_ok in Hl. cbn [fst] in Hl.
    destruct (Game.player g) as [q|] eqn:Hq; [|destruct Hl].
    rewrite Halive, andb_true_r.
    destruct (PlayerFarm.is_alive q) eqn:Hdown; (split; [left; exact Hs|]).
    + discriminate.
    + cbn [fst snd]. intros _ (q' & Hq' & Hup). congruence.
  - cbn [Game.battle_loop]. unfold bind at 1 2, gets, ret, Game.on_game, on_fst, zoom,
      Game.the_player. cbn [fst snd id].
    pose proof Hs as [Hl Hk]. unfold ledger_ok in Hl. cbn [fst] in Hl.
    destruct (Game.player g) as [q|] eqn:Hq; [|destruct Hl].
    rewrite Halive, andb_true_r.
    destruct (PlayerFarm.is_alive q) eqn:Hdown.
    + unfold bind. pose proof (battle_turn_paid p k (g, e) Hs) as Hturn.
      destruct (Game.battle_turn (g, e)) as [[[]|err] [g1 e1]].
      * destruct Hturn as [[Hs1 Halive1] | [Hs1 Hdown1]]; cbn [fst snd] in *.
        -- exact (IH (g1, e1) Hs1 (Halive1 eq_refl)).
        -- assert (Hend : Game.battle_loop fuel (g1, e1) = (Ok tt, (g1, e1))).
           { destruct Hs1 as [Hl1 _]. unfold ledger_ok in Hl1. cbn [fst] in Hl1.
             destruct fuel; cbn [Game.battle_loop];
               unfold bind, gets, ret, Game.on_game, on_fst, zoom, Game.the_player;
               cbn [fst snd id];
               (destruct (Game.player g1); [|destruct Hl1]);
               rewrite Hdown1, andb_false_r; reflexivity. }
           rewrite Hend. split; [right; exact Hs1 | intros _ _; exact Hs1].
      * destruct Hturn as [[Hs1 _] | [Hs1 _]]; cbn [fst snd] in *;
          (split; [auto | discriminate]).
    + split; [left; exact Hs|]. cbn [fst snd]. intros _ (q' & Hq' & Hup). congruence.
Qed.


Lemma books_write_purse : keeps books_ok (Game.write_purse (R := R)).
Proof. unfold Game.write_purse. repeat books_step. Qed.

Lemma books_gold_tip : keeps books_ok (Game.gold_tip (R := R)).
Proof. unfold Game.gold_tip. repeat books_step. Qed.

(** *** The shop: nothing is sold that the purse cannot pay *)

(** Run a purchase on a game and a player that are written out, by the
    cases of its tests. *)
Ltac purchase :=
  run_game;
  repeat match goal with
         | |- context [if ?b then _ else _] => destruct b eqn:?; run_game
         end;
  ledger_arith.

Lemma books_buy_tonic : keeps books_ok (Game.buy_tonic (R := R)).
Proof.
  intros g Hg. unfold Game.buy_tonic.
  destruct g as [[w sc] rng wave km used [p|] tc em ca sr]; [|exact I].
  destruct p as [[pn pmh ph pa] sk co gd prng tt' tr cds pas kf kr kp gts msg tab iat iab ish dp].
  purchase.
Qed.

Lemma books_buy_attack : keeps books_ok (Game.buy_attack (R := R)).
Proof.
  intros g Hg. unfold Game.buy_attack.
  destruct g as [[w sc] rng wave km used [p|] tc em ca sr]; [|exact I].
  destruct p as [[pn pmh ph pa] sk co gd prng tt' tr cds pas kf kr kp gts msg tab iat iab ish dp].
  purchase.
Qed.

Lemma books_buy_gold : keeps books_ok (Game.buy_gold (R := R)).
Proof.
  intros g Hg. unfold Game.buy_gold.
  destruct g as [[w sc] rng wave km used [p|] tc em ca sr]; [|exact I].
  destruct p as [[pn pmh ph pa] sk co gd prng tt' tr cds pas kf kr kp gts msg tab iat iab ish dp].
  purchase.
Qed.

Lemma books_buy_seed : keeps books_ok (Game.buy_seed (R := R)).
Proof.
  intros g Hg. unfold Game.buy_seed, Game.plant_seed.
  destruct g as [[w sc] rng wave km used [p|] tc em ca sr]; [|destruct em; exact I].
  destruct p as [[pn pmh ph pa] sk co gd prng tt' tr cds pas kf kr kp gts msg tab iat iab ish dp].
  purchase.
Qed.


Lemma books_activate_fragment (coins_cost gold_cost : Z) :
  keeps books_ok (Game.activate_fragment (R := R) coins_cost gold_cost).
Proof.
  intros g Hg. unfold Game.activate_fragment.
  destruct g as [[w sc] rng wave km used [p|] tc em ca sr]; [|exact I].
  destruct p as [[pn pmh ph pa] sk co gd prng tt' tr cds pas kf kr kp gts msg tab iat iab ish dp].
  run_game.
  destruct (0 <? kf) eqn:Ekf; run_game; [|exact Hg].
  destruct ((gd <? gold_cost) || (co <? coins_cost)) eqn:Ecost; run_game.
  { destruct gts; run_game; exact Hg. }
  destruct sc as [|line rest]; run_game; [exact Hg|].
  unfold Game.check_sequence. run_game.
  destruct (KonamiManager.check_sequence _ _) as [[[|]|e] [km' rng']]; run_game;
    [| |exact Hg].
  - destruct (Py.int_product pa 0.3) as [a|e]; run_game; [|ledger_arith].
    destruct (Py.int_product pmh 0.3) as [b|e]; run_game; [|ledger_arith].
    match goal with
    | |- context [PlayerFarm.add_new_skill (?q, ?io)] =>
        destruct (SkillFacts.add_new_skill_cases q io) as (l & r & _ & ->)
    end.
    destruct (find _ l); run_game; ledger_arith.
  - unfold Random.random.
    destruct (rng_random rng') as [x rng'']. run_game.
    destruct (x <? 0.25)%float; run_game; ledger_arith.
Qed.


Lemma books_shop_visit : keeps books_ok (Game.shop_visit (R := R)).
Proof.
  unfold Game.shop_visit.
  repeat (cbv beta;
    lazymatch goal with
    | |- keeps _ Game.buy_tonic => apply books_buy_tonic
    | |- keeps _ Game.buy_attack => apply books_buy_attack
    | |- keeps _ Game.buy_gold => apply books_buy_gold
    | |- keeps _ Game.buy_seed => apply books_buy_seed
    | |- keeps _ (Game.activate_fragment _ _) => apply books_activate_fragment
    | |- _ => books_step
    end).
Qed.

Lemma books_shop_loop (fuel : nat) : keeps books_ok (Game.shop_loop (R := R) fuel).
Proof.
  induction fuel as [|fuel IH]; [apply keeps_raise|].
  cbn [Game.shop_loop]. apply keeps_bind; [apply books_shop_visit|].
  intros [|]; [exact IH | apply keeps_ret].
Qed.

Lemma books_open_shop : keeps books_ok (Game.open_shop (R := R)).
Proof.
  unfold Game.open_shop.
  repeat (cbv beta;
    lazymatch goal with
    | |- keeps _ (Game.shop_loop _) => apply books_shop_loop
    | |- _ => books_step
    end).
Qed.

(** *** Random events: what is found is never less than nothing *)

(** [randint(a, b)] draws [a] at the least. *)
Lemma books_found (a b : Z) (k : Z -> M (Game.t R) unit) :
  a <= b ->
  (forall c, a <= c -> keeps books_ok (k c)) ->
  keeps books_ok (bind (Game.draw (Random.randint a b)) k).
Proof.
  intros Hab Hk g Hg.
  unfold bind at 1, Game.draw, zoom, Random.randint, bind, Random.randbelow, ret.
  pose proof (rng_randbelow_range (b - a + 1) (Game.rng g) ltac:(lia)) as Hr.
  destruct (rng_randbelow (b - a + 1) (Game.rng g)) as [c r]. cbn [fst] in Hr.
  apply (Hk (a + c)); [lia|]. destruct g. exact Hg.
Qed.

Lemma books_gain_coins (c : Z) : 0 <= c -> keeps books_ok (Game.gain_coins (R := R) c).
Proof. intros Hc. unfold Game.gain_coins. apply ledger_update. sound_arith. Qed.

Lemma books_scaled_percent (base : float) : keeps books_ok (Game.scaled_percent (R := R) base).
Proof. unfold Game.scaled_percent, Game.event_scale. repeat books_step. Qed.

Lemma books_damage_scaled (base : float) : keeps books_ok (Game.damage_scaled (R := R) base).
Proof.
  unfold Game.damage_scaled. apply keeps_bind; [apply books_scaled_percent|].
  intros percent. books_step.
Qed.

(** One step for an event. *)
Ltac event_step :=
  cbv beta;
  lazymatch goal with
  | |- keeps _ (bind (Game.draw (Random.randint _ _)) _) =>
      let c := fresh "c" in
      let Hc := fresh "Hc" in
      apply books_found; [lia | intros c Hc]
  | |- keeps _ (Game.gain_coins _) => apply books_gain_coins; lia
  | |- keeps _ (Game.damage_scaled _) => apply books_damage_scaled
  | |- keeps _ (Game.scaled_percent _) => apply books_scaled_percent
  | |- keeps _ Game.event_scale => unfold Game.event_scale
  | |- keeps _ Game.player_name => unfold Game.player_name
  | |- keeps _ (Game.update_player (fun p => PlayerFarm.set_coins _ p)) =>
      apply ledger_update; sound_arith
  | |- keeps _ (Game.update_player (fun p => PlayerFarm.set_gold _ p)) =>
      apply ledger_update; sound_arith
  | |- keeps _ (Game.update_player (fun p => PlayerFarm.set_irrigation_shield _ p)) =>
      apply ledger_update; sound_arith
  | |- keeps _ (Game.update_player (fun p => PlayerFarm.set_temp_attack_bonus _ p)) =>
      apply ledger_update; sound_arith
  | |- _ => books_step
  end.

Lemma books_event (event : string) : keeps books_ok (Game.apply_event (R := R) event).
Proof.
  unfold Game.apply_event, Game.event_map. cbn [find fst].
  repeat lazymatch goal with
         | |- keeps _ (match (if ?b then _ else _) with _ => _ end) => destruct b
         end.
  all: unfold Game.event_mysterious_merchant, Game.event_lightning_storm, Game.event_lost_cow,
         Game.event_strange_seed, Game.event_trap, Game.event_wandering_bard,
         Game.event_locust_swarm, Game.event_irrigation_boom, Game.event_moonlit_harvest,
         Game.event_butterfly_bloom, Game.event_soggy_furrows, Game.event_cinder_drift,
         Game.event_charred_fence, Game.event_gravel_gust, Game.event_rusted_plow,
         Game.event_bad_event.
  all: repeat event_step.
Qed.

Lemma books_trigger_random_event : keeps books_ok (Game.trigger_random_event (R := R)).
Proof.
  unfold Game.trigger_random_event.
  repeat (cbv beta;
    lazymatch goal with
    | |- keeps _ (Game.apply_event _) => apply books_event
    | |- _ => books_step
    end).
Qed.


(** *** Waves and the session *)

Lemma books_story_arc (wave : Z) : keeps books_ok (Game.story_arc (R := R) wave).
Proof.
  unfold Game.story_arc.
  repeat (cbv beta;
    lazymatch goal with
    | |- keeps _ Game.trigger_random_event => apply books_trigger_random_event
    | |- keeps _ (Game.on_player PlayerFarm.defense_boost) =>
        apply ledger_on_player, (ledger_boosts sound_counts)
    | |- keeps _ (Game.on_player PlayerFarm.attack_boost) =>
        apply ledger_on_player, (ledger_boosts sound_counts)
    | |- _ => books_step
    end).
Qed.

Lemma books_enter_area : keeps books_ok (Game.enter_area_if_needed (R := R)).
Proof. unfold Game.enter_area_if_needed. repeat books_step. Qed.

Lemma books_prompt_endless_mode : keeps books_ok (Game.prompt_endless_mode (R := R)).
Proof. unfold Game.prompt_endless_mode. repeat books_step. Qed.

Lemma books_corrode_fragments : keeps books_ok (Game.corrode_fragments (R := R)).
Proof.
  unfold Game.corrode_fragments.
  repeat (cbv beta;
    lazymatch goal with
    | |- keeps _ (Game.update_player (PlayerFarm.set_konami_fragments 0)) =>
        apply ledger_update; sound_arith
    | |- _ => books_step
    end).
Qed.

Lemma books_strip_temp_bonus : keeps books_ok (Game.strip_temp_bonus (R := R)).
Proof.
  unfold Game.strip_temp_bonus.
  repeat (cbv beta;
    lazymatch goal with
    | |- keeps _ (Game.update_player (PlayerFarm.set_temp_attack_bonus 0)) =>
        apply ledger_update; sound_arith
    | |- _ => books_step
    end).
Qed.

Lemma books_play_wave : keeps books_ok (Game.play_wave (R := R)).
Proof.
  unfold Game.play_wave.
  repeat (cbv beta;
    lazymatch goal with
    | |- keeps _ Game.prompt_endless_mode => apply books_prompt_endless_mode
    | |- keeps _ Game.enter_area_if_needed => apply books_enter_area
    | |- keeps _ (Game.story_arc _) => apply books_story_arc
    | |- keeps _ Game.open_shop => apply books_open_shop
    | |- keeps _ Game.corrode_fragments => apply books_corrode_fragments
    | |- keeps _ (Game.battle _) => apply books_battle
    | |- keeps _ Game.strip_temp_bonus => apply books_strip_temp_bonus
    | |- _ => books_step
    end).
Qed.

Lemma books_intro : keeps books_ok (Game.intro (R := R)).
Proof. unfold Game.intro. repeat books_step. Qed.

Lemma books_menu_loop (fuel : nat) : keeps books_ok (Game.menu_loop (R := R) fuel).
Proof.
  induction fuel as [|fuel IH]; [apply keeps_raise|].
  cbn [Game.menu_loop]. apply keeps_bind.
  - unfold Game.menu_visit.
    repeat (cbv beta;
      lazymatch goal with
      | |- keeps _ Game.intro => apply books_intro
      | |- _ => books_step
      end).
  - intros [|]; [exact IH | apply keeps_ret].
Qed.

Lemma books_wave_loop (fuel : nat) : keeps books_ok (Game.wave_loop (R := R) fuel).
Proof.
  induction fuel as [|fuel IH]; cbn [Game.wave_loop].
  - repeat books_step.
  - repeat (cbv beta;
      lazymatch goal with
      | |- keeps _ Game.play_wave => apply books_play_wave
      | |- keeps _ (Game.wave_loop _) => exact IH
      | |- keeps _ (Game.on_player PlayerFarm.wave_clear_upgrade) =>
          apply ledger_on_player, ledger_wave_clear_upgrade
      | |- _ => books_step
      end).
Qed.

Lemma keeps_except_interrupt {S A : Type} (I : S -> Prop) (m handler : M S A) :
  keeps I m -> keeps I handler -> keeps I (except_interrupt m handler).
Proof.
  intros Hm Hh s Hs. unfold except_interrupt. specialize (Hm s Hs).
  destruct (m s) as [[a|e] s']; [exact Hm|]. destruct e; try exact Hm. apply Hh, Hm.
Qed.

(** [start] makes a player whose books are sound, whatever the game held
    before. *)
Lemma books_start (entropy : R) : keeps books_ok (Game.start entropy).
Proof.
  unfold Game.start.
  repeat (cbv beta;
    lazymatch goal with
    | |- keeps _ Game.intro => apply books_intro
    | |- keeps _ (Game.menu_loop _) => apply books_menu_loop
    | |- keeps _ (bind (modify (Game.set_player _)) _) => fail
    | |- _ => books_step
    end).
  intros g _. unfold bind at 1, modify.
  match goal with
  | |- books_ok (snd (?m ?g1)) =>
      assert (Hg1 : books_ok g1)
        by (destruct g; unfold books_ok, ledger_ok, ledger, sound_counts; cbn; lia);
      revert Hg1; generalize g1; change (keeps books_ok m)
  end.
  repeat (cbv beta;
    lazymatch goal with
    | |- keeps _ (Game.update_player (PlayerFarm.set_coins 2)) =>
        apply ledger_update; sound_arith
    | |- keeps _ (except_interrupt _ _) => apply keeps_except_interrupt
    | |- keeps _ (Game.wave_loop _) => apply books_wave_loop
    | |- _ => books_step
    end).
Qed.


(** X17.  A wave keeps the books of the player sound, whatever is typed
    and whatever the generators draw, and whether it returns or raises.
    When the player owes neither coins nor gold, holds between no and
    three fragments, and has a shield, tonic turns, a temporary attack
    bonus and a count of activations that are not negative, the same is
    true after the shop, after a random event, after a battle with any
    enemy, and after the whole of [_play_wave]: the shop sells nothing the
    purse cannot pay, and a boss drops no fourth fragment. *)
Theorem wave_keeps_the_books (g : Game.t R) (enemy : Enemy.t) :
  books_ok g ->
  books_ok (snd (Game.open_shop g)) /\
  books_ok (snd (Game.trigger_random_event g)) /\
  books_ok (snd (Game.battle enemy g)) /\
  books_ok (snd (Game.play_wave g)).
Proof.
  intros Hg. repeat split.
  - apply books_open_shop, Hg.
  - apply books_trigger_random_event, Hg.
  - apply books_battle, Hg.
  - apply books_play_wave, Hg.
Qed.

(** X18.  A session ends with sound books.  [start], run on a new game
    with any script and any generators, leaves the game without a player
    (the script ended before the farm was named) or with a player who
    owes neither coins nor gold, holds at most three fragments, and whose
    shield, tonic turns, temporary attack bonus and count of activations
    are not negative.  The script may end anywhere, so this holds at every
    prompt of the session. *)
Theorem session_keeps_the_books (io : IO.t) (rng entropy : R) :
  books_ok (snd (Game.start entropy (Game.init io rng))).
Proof. apply books_start. exact I. Qed.



(** X19.  A battle pays once.  Against an enemy that is alive when the
    battle begins, [_battle] leaves the gold as it was and the coins
    either as they were or with the one reward on top, 6 coins for a
    monster and 15 for a boss, whatever is typed and drawn and whether it
    returns or raises; and when it returns with the player alive, the
    reward has been paid. *)
Theorem a_battle_pays_once (enemy : Enemy.t) (g : Game.t R) (p : PlayerFarm.t R) :
  Game.player g = Some p ->
  0 <= PlayerFarm.irrigation_shield p ->
  0 <= PlayerFarm.tonic_turns p ->
  Enemy.is_alive enemy = true ->
  let out := Game.battle enemy g in
  let prize := reward (Enemy.kind_of enemy) in
  exists p',
    Game.player (snd out) = Some p' /\
    PlayerFarm.gold p' = PlayerFarm.gold p /\
    (PlayerFarm.coins p' = PlayerFarm.coins p \/
     PlayerFarm.coins p' = PlayerFarm.coins p + prize) /\
    (fst out = Ok tt -> PlayerFarm.is_alive p' = true ->
     PlayerFarm.coins p' = PlayerFarm.coins p + prize).
Proof.
  intros Hp Hshield Htonic Halive. cbv zeta.
  set (k := Enemy.kind_of enemy).
  unfold Game.battle, bind, Game.assert_player, modify. rewrite Hp.
  set (g0 := Game.set_turn_count 0 g).
  assert (Hs : in_battle (purse_of p 0) False k (g0, enemy)).
  { split; [|reflexivity]. unfold ledger_ok, g0. cbn [fst].
    destruct g. cbn in Hp. subst. cbn. unfold ledger, purse_of. repeat split; lia. }
  pose proof (battle_loop_paid p k (S (length (IO.script (Game.io g0)))) (g0, enemy) Hs Halive)
    as [Hpaid Hwon].
  destruct (Game.battle_loop _ (g0, enemy)) as [r [g' e']]. cbn [fst snd] in *.
  assert (Hread : forall x, in_battle (purse_of p x) False k (g', e') ->
            exists p', Game.player g' = Some p' /\
              PlayerFarm.gold p' = PlayerFarm.gold p /\
              PlayerFarm.coins p' = PlayerFarm.coins p + x).
  { intros x [Hl _]. unfold ledger_ok in Hl. cbn [fst] in Hl.
    destruct (Game.player g') as [p'|]; [|destruct Hl].
    exists p'. destruct Hl as ((Hc & Hg & _) & _). auto. }
  destruct Hpaid as [Hpaid | Hpaid];
    destruct (Hread _ Hpaid) as (p' & Hp' & Hgold & Hcoins);
    exists p'; (split; [exact Hp'|]); (split; [exact Hgold|]); (split; [lia|]).
  - intros Hr Hup.
    destruct (Hread _ (Hwon Hr (ex_intro _ p' (conj Hp' Hup)))) as (q & Hq & _ & Hpay).
    congruence.
  - intros _ _. exact Hcoins.
Qed.


End WithGenerator.

Lemma wave_keeps_the_books_witness :
  let g := Game.set_wave 2
             (game_with (PlayerFarm.set_coins 10 (PlayerFarm.init "Farm" ([] : Tape.t)))
                ["3"; "6"; "1"]%string ([] : Tape.t)) in
  books_ok (snd (Game.open_shop g)) /\
  books_ok (snd (Game.trigger_random_event g)) /\
  books_ok (snd (Game.battle (Enemy.monster 2) g)) /\
  books_ok (snd (Game.play_wave g)).
Proof.
  apply (wave_keeps_the_books (R := Tape.t)).
  unfold books_ok, ledger_ok, ledger, sound_counts. cbn. lia.
Defined.

Lemma a_battle_pays_once_witness :
  let p := PlayerFarm.init "Farm" ([] : Tape.t) in
  let g := game_with p (repeat "1" 5)%string (repeat (2 ^ 52) 9 : Tape.t) in
  let out := Game.battle (Enemy.monster 1) g in
  let prize := reward (Enemy.kind_of (Enemy.monster 1)) in
  exists p',
    Game.player (snd out) = Some p' /\
    PlayerFarm.gold p' = PlayerFarm.gold p /\
    (PlayerFarm.coins p' = PlayerFarm.coins p \/
     PlayerFarm.coins p' = PlayerFarm.coins p + prize) /\
    (fst out = Ok tt -> PlayerFarm.is_alive p' = true ->
     PlayerFarm.coins p' = PlayerFarm.coins p + prize).
Proof.
  apply (a_battle_pays_once (R := Tape.t)).
  - reflexivity.
  - cbn. lia.
  - cbn. lia.
  - reflexivity.
Defined.

End BooksFacts.

(** ** The shop, the story and the stun *)

Module ShopFacts.
Import Props Ledger.

Section WithGenerator.
Context {R : Type} `{RandomGen R}.




(** The two ways an activation ends, on a game that is written out. *)
Ltac unpaid :=
  eexists; split; [reflexivity|]; left; run_game;
  repeat match goal with
         | |- _ /\ _ => split
         | |- _ \/ _ => first [left; reflexivity | right; reflexivity]
         end;
  reflexivity.

Ltac paid :=
  eexists; split; [reflexivity|]; right; run_game;
  repeat match goal with
         | |- _ /\ _ => split
         end;
  first [assumption | reflexivity].

(** X21.  An activation is paid once or not at all.  Choosing to
    activate a fragment either takes nothing from the purse (no fragment
    held, not enough gold or coins, no answer, or a sequence that fizzles,
    which may break one fragment), or it takes exactly the price in coins
    and in gold and one fragment, and counts one activation; and the
    price is taken only from a purse that holds it. *)
Theorem activation_is_paid_once (coins_cost gold_cost : Z) (g : Game.t R)
    (p : PlayerFarm.t R) :
  Game.player g = Some p ->
  exists p',
    Game.player (snd (Game.activate_fragment coins_cost gold_cost g)) = Some p' /\
    ((PlayerFarm.coins p' = PlayerFarm.coins p /\
      PlayerFarm.gold p' = PlayerFarm.gold p /\
      PlayerFarm.konami_purchase_count p' = PlayerFarm.konami_purchase_count p /\
      (PlayerFarm.konami_fragments p' = PlayerFarm.konami_fragments p \/
       PlayerFarm.konami_fragments p' = Z.max 0 (PlayerFarm.konami_fragments p - 1))) \/
     (0 < PlayerFarm.konami_fragments p /\
      coins_cost <= PlayerFarm.coins p /\
      gold_cost <= PlayerFarm.gold p /\
      PlayerFarm.coins p' = PlayerFarm.coins p - coins_cost /\
      PlayerFarm.gold p' = PlayerFarm.gold p - gold_cost /\
      PlayerFarm.konami_purchase_count p' = PlayerFarm.konami_purchase_count p + 1 /\
      PlayerFarm.konami_fragments p' = PlayerFarm.konami_fragments p - 1)).
Proof.
  intros Hp. destruct g as [[w sc] rng wave km used pl tc em ca sr]. cbn in Hp. subst pl.
  destruct p as [[pn pmh ph pa] sk co gd prng tt' tr cds pas kf kr kp gts msg tab iat iab ish dp].
  unfold Game.activate_fragment. run_game.
  destruct (Z.ltb_spec 0 kf) as [Hkf|Hkf]; run_game; [|unpaid].
  destruct (Z.ltb_spec gd gold_cost) as [Hgd|Hgd]; cbn [orb]; run_game.
  { destruct gts; run_game; unpaid. }
  destruct (Z.ltb_spec co coins_cost) as [Hco|Hco]; run_game.
  { destruct gts; run_game; unpaid. }
  destruct sc as [|line rest]; run_game; [unpaid|].
  unfold Game.check_sequence. run_game.
  destruct (KonamiManager.check_sequence _ _) as [[[|]|e] [km' rng']]; run_game;
    [| |unpaid].
  - destruct (Py.int_product pa 0.3) as [a|e]; run_game; [|paid].
    destruct (Py.int_product pmh 0.3) as [b|e]; run_game; [|paid].
    match goal with
    | |- context [PlayerFarm.add_new_skill (?q, ?io)] =>
        destruct (SkillFacts.add_new_skill_cases q io) as (l & r & _ & ->)
    end.
    destruct (find _ l); run_game; paid.
  - unfold Random.random.
    destruct (rng_random rng') as [x rng'']. run_game.
    destruct (x <? 0.25)%float; run_game; unpaid.
Qed.

End WithGenerator.


Lemma activation_is_paid_once_witness :
  let p := PlayerFarm.set_konami_fragments 1
             (PlayerFarm.set_gold 5 (PlayerFarm.set_coins 7 (PlayerFarm.init "Farm" ([] : Tape.t)))) in
  let g := game_with p ["up up down down left right left right b a"]%string ([] : Tape.t) in
  exists p',
    Game.player (snd (Game.activate_fragment 7 5 g)) = Some p' /\
    ((PlayerFarm.coins p' = PlayerFarm.coins p /\
      PlayerFarm.gold p' = PlayerFarm.gold p /\
      PlayerFarm.konami_purchase_count p' = PlayerFarm.konami_purchase_count p /\
      (PlayerFarm.konami_fragments p' = PlayerFarm.konami_fragments p \/
       PlayerFarm.konami_fragments p' = Z.max 0 (PlayerFarm.konami_fragments p - 1))) \/
     (0 < PlayerFarm.konami_fragments p /\
      7 <= PlayerFarm.coins p /\
      5 <= PlayerFarm.gold p /\
      PlayerFarm.coins p' = PlayerFarm.coins p - 7 /\
      PlayerFarm.gold p' = PlayerFarm.gold p - 5 /\
      PlayerFarm.konami_purchase_count p' = PlayerFarm.konami_purchase_count p + 1 /\
      PlayerFarm.konami_fragments p' = PlayerFarm.konami_fragments p - 1)).
Proof.
  apply (activation_is_paid_once (R := Tape.t)). reflexivity.
Defined.

End ShopFacts.

Module StoryFacts.
Import Props Ledger BattleFacts.

Section WithGenerator.
Context {R : Type} `{RandomGen R}.

Lemma undrawn_io {A : Type} (used : gset string) (rng : R) (m : M IO.t A) :
  keeps (undrawn used rng) (zoom Game.io Game.set_io m).
Proof. apply keeps_zoom_apart. intros g io Hg. destruct g. exact Hg. Qed.

Lemma undrawn_on_player {A : Type} (used : gset string) (rng : R) (m : M (PlayerFarm.t R) A) :
  keeps (undrawn used rng) (Game.on_player m).
Proof.
  intros g Hg. unfold Game.on_player.
  destruct (Game.player g) as [p|]; [|exact Hg].
  destruct (m p) as [r p']. destruct g. exact Hg.
Qed.

Lemma undrawn_on_player_io {A : Type} (used : gset string) (rng : R)
    (m : M (PlayerFarm.t R * IO.t) A) :
  keeps (undrawn used rng) (Game.on_player_io m).
Proof.
  intros g Hg. unfold Game.on_player_io.
  destruct (Game.player g) as [p|]; [|exact Hg].
  destruct (m (p, Game.io g)) as [r [p' io']]. destruct g. exact Hg.
Qed.

Lemma undrawn_assert (used : gset string) (rng : R) :
  keeps (undrawn used rng) Game.assert_player.
Proof. intros g Hg. unfold Game.assert_player. destruct (Game.player g); exact Hg. Qed.

(** The story marks 5 and 10 are no third waves: of the three marks only
    wave 15 is ever spared. *)
Lemma event_wave_spared (wave : Z) :
  (1 <? wave) && (wave mod 3 =? 0) = true ->
  (wave =? 5) || (wave =? 10) || (wave =? 15) = negb (event_wave wave).
Proof.
  intros Hthird. unfold event_wave. rewrite Hthird. cbn [andb]. rewrite negb_involutive.
  apply andb_true_iff in Hthird as [_ Hmod]. apply Z.eqb_eq in Hmod.
  destruct (Z.eqb_spec wave 5) as [->|_]; [discriminate Hmod|].
  destruct (Z.eqb_spec wave 10) as [->|_]; [discriminate Hmod|].
  reflexivity.
Qed.

(** X22.  Random events come on the third waves, wave 15 apart.  On a
    wave past the first that is a multiple of 3 and not 15, [_story_arc]
    is the story header (on a multiple of 5) followed by
    [_trigger_random_event]; the marks 5 and 10 of its exclusion list are
    never third waves.  On every other wave, whatever the story does, no
    event is drawn: the set of used events and the generator of the game
    are as before. *)
Theorem events_come_on_third_waves (wave : Z) (g : Game.t R) :
  if event_wave wave then
    Game.story_arc wave g =
      (Game.assert_player ;;;
       when (wave mod 5 =? 0)
         (Game.write ("
ðŸ“œ STORY ARC [" ++ Py.str wave ++ "]")) ;;;
       Game.trigger_random_event) g
  else
    Game.used_events (snd (Game.story_arc wave g)) = Game.used_events g /\
    Game.rng (snd (Game.story_arc wave g)) = Game.rng g.
Proof.
  destruct (event_wave wave) eqn:Hevent.
  - assert (Hthird : (1 <? wave) && (wave mod 3 =? 0) = true).
    { unfold event_wave in Hevent. apply andb_true_iff in Hevent as [Ht _]. exact Ht. }
    pose proof (event_wave_spared wave Hthird) as Hspared. rewrite Hevent in Hspared.
    unfold Game.story_arc. rewrite Hthird, Hspared. cbn [negb when].
    apply orb_false_iff in Hspared as [Hspared H15].
    apply orb_false_iff in Hspared as [H5 H10]. rewrite H5, H10, H15.
    apply andb_true_iff in Hthird as [_ Hmod]. apply Z.eqb_eq in Hmod.
    destruct (Z.eqb_spec wave 20) as [->|_]; [discriminate Hmod|].
    destruct (Z.eqb_spec wave 25) as [->|_]; [discriminate Hmod|].
    unfold bind, Game.assert_player.
    destruct (Game.player g); [|reflexivity].
    destruct (wave mod 5 =? 0); cbn [when]; [|reflexivity].
    destruct (Game.write _ g) as [[u|e] g']; reflexivity.
  - assert (Hkeeps : keeps (undrawn (Game.used_events g) (Game.rng g)) (Game.story_arc wave)).
    { unfold Game.story_arc.
      repeat (cbv beta;
        lazymatch goal with
        | |- keeps _ Game.assert_player => apply undrawn_assert
        | |- keeps _ (Game.write _) => apply undrawn_io
        | |- keeps _ (Game.prompt _) => apply undrawn_io
        | |- keeps _ (Game.on_player_io _) => apply undrawn_on_player_io
        | |- keeps _ (Game.update_player _) => apply undrawn_on_player
        | |- keeps _ (Game.on_player _) => apply undrawn_on_player
        | |- keeps _ (when ((1 <? wave) && (wave mod 3 =? 0)) _) =>
            destruct ((1 <? wave) && (wave mod 3 =? 0)) eqn:Hthird;
              [rewrite (event_wave_spared wave Hthird), Hevent; apply keeps_ret
              |apply keeps_ret]
        | |- _ => keeps_step
        end). }
    exact (Hkeeps g (conj eq_refl eq_refl)).
Qed.

(** X23.  A stun costs the enemy one action.  Blazing Corn and
    Concussive Seed, when they return, leave the enemy stunned; and the
    action of the stunned enemy writes that it cannot act, clears the
    stun, and touches nothing else: the player takes no damage, no tonic
    turn is used and nothing is drawn. *)
Theorem stun_costs_one_action (skill : Skill.t) (p : PlayerFarm.t R) (e : Enemy.t)
    (io : IO.t) (g : Game.t R) :
  Skill.effect_of skill = Skill.blazing_corn \/
  Skill.effect_of skill = Skill.concussive_seed ->
  fst (PlayerFarm.use skill (p, e, io)) = Ok tt ->
  let e' := snd (fst (snd (PlayerFarm.use skill (p, e, io)))) in
  Enemy.stunned e' = true /\
  Game.enemy_action (g, e') =
    (Ok tt,
     (Game.set_io
        (IO.mk (IO.written (Game.io g)
                  ++ [Game.enemy_name e' ++ " got stunned and can't act this turn!"]%string)
               (IO.script (Game.io g))) g,
      Enemy.set_stunned false e')).
Proof.
  intros Heffect.
  assert (Hstunned : forall (g : Game.t R) (e : Enemy.t), Enemy.stunned e = true ->
            Game.enemy_action (g, e) =
              (Ok tt,
               (Game.set_io
                  (IO.mk (IO.written (Game.io g)
                            ++ [Game.enemy_name e ++ " got stunned and can't act this turn!"]%string)
                         (IO.script (Game.io g))) g,
                Enemy.set_stunned false e))).
  { intros [[w sc] rng wave km used pl tc em ca sr] [ef ek er es ed el]. cbn. intros ->.
    unfold Game.enemy_action. run_game. reflexivity. }
  destruct p as [[pn pmh ph pa] sk co gd prng tt' tr cds pas kf kr kp gts msg tab iat iab ish dp].
  destruct e as [[fn fmh fh fa] ek er es ed el]. destruct io as [w sc].
  unfold PlayerFarm.use.
  destruct Heffect as [-> | ->];
    unfold PlayerFarm.skill_blazing_corn, PlayerFarm.skill_concussive_seed,
      PlayerFarm.on_enemy, PlayerFarm.on_io; run_game.
  - destruct (Py.round_product fh 0.3) as [a|err]; run_game; [|discriminate].
    destruct (Py.round_product pa 0.3) as [b|err]; run_game; [|discriminate].
    intros _. split; [reflexivity|]. apply Hstunned. reflexivity.
  - destruct (Py.round_product pa 0.5) as [a|err]; run_game; [|discriminate].
    intros _. split; [reflexivity|]. apply Hstunned. reflexivity.
Qed.

End WithGenerator.

Lemma stun_costs_one_action_witness :
  let p := PlayerFarm.init "Farm" ([] : Tape.t) in
  let g := game_with p [] ([] : Tape.t) in
  let skill := Skill.mk "Concussive Seed"
                 "Deal 0.5x attack power and stun the enemy to skip its next turn."
                 Skill.concussive_seed 4 in
  let e' := snd (fst (snd (PlayerFarm.use skill (p, Enemy.monster 1, Game.io g)))) in
  Enemy.stunned e' = true /\
  Game.enemy_action (g, e') =
    (Ok tt,
     (Game.set_io
        (IO.mk (IO.written (Game.io g)
                  ++ [Game.enemy_name e' ++ " got stunned and can't act this turn!"]%string)
               (IO.script (Game.io g))) g,
      Enemy.set_stunned false e')).
Proof.
  apply (stun_costs_one_action (R := Tape.t)).
  - right. reflexivity.
  - vm_compute. reflexivity.
Defined.

End StoryFacts.
